(** * numba-cuda: the NVVM bridge ([numba/cuda/cudadrv/nvvm.py])

    A shallow embedding of the text-level IR rewriting ([llvm_replace],
    [llvm150_to_70_ir]), of the synthesized CAS-loop atomics, of the option
    encoder of [CompilationUnit], of the [fastmath] expansion of
    [compile_ir], of [set_launch_bounds] and of [NVVM.data_layout], with the
    properties the specification states about them.

    Conventions.  Python [str] values are modelled as [string] (a sequence of
    8-bit characters); the model covers ASCII module text, which is what the
    IR printer emits.  A Python exception is a value [Raise e] of the
    [result] type; code that mutates an object threads it explicitly. *)

From Stdlib Require Import Bool Arith ZArith Lia List Ascii String.
From Stdlib Require Import Numbers.DecimalString.
Import ListNotations.

Set Implicit Arguments.

Open Scope list_scope.
Open Scope string_scope.

(** ** Exceptions *)

Inductive exn : Type :=
| KeyError (key : string)
| ValueError (msg : string)
| AttributeError (msg : string)
| IndexError (msg : string)
| NvvmError (msg code : string).

Inductive result (A : Type) : Type :=
| Ok (a : A)
| Raise (e : exn).

Arguments Ok {A} a.
Arguments Raise {A} e.

Definition bind {A B : Type} (r : result A) (k : A -> result B) : result B :=
  match r with
  | Ok a => k a
  | Raise e => Raise e
  end.

Notation "x <- e ;; k" := (bind e (fun x => k))
  (at level 61, e at next level, right associativity).

(** [[f(x) for x in l]] where [f] may raise: the first failure propagates. *)
Fixpoint mapM {A B : Type} (f : A -> result B) (l : list A) : result (list B) :=
  match l with
  | [] => Ok []
  | x :: xs => y <- f x ;; ys <- mapM f xs ;; Ok (y :: ys)
  end.

(** ** The Python string primitives the module uses *)

Module Py.

(** The double-quote character, and a helper that writes it as an
    apostrophe inside a literal (no literal of the source contains an
    apostrophe). *)
Definition dquote : ascii := ascii_of_nat 34.
Definition squote : ascii := ascii_of_nat 39.

Fixpoint q (s : string) : string :=
  match s with
  | EmptyString => EmptyString
  | String c s' => String (if Ascii.eqb c squote then dquote else c) (q s')
  end.

(** [s.startswith(p)] *)
Fixpoint startswith (s p : string) {struct p} : bool :=
  match p with
  | EmptyString => true
  | String a p' =>
      match s with
      | EmptyString => false
      | String b s' => Ascii.eqb a b && startswith s' p'
      end
  end.

(** [old in s] *)
Fixpoint contains (s old : string) {struct s} : bool :=
  startswith s old ||
  match s with
  | EmptyString => false
  | String _ s' => contains s' old
  end.

(** [s.replace(old, new)] for a non-empty [old]: scan from the left; at a
    match emit [new] and skip the matched characters ([skip] counts the
    characters of the current match still to be dropped). *)
Fixpoint replace_from (old new : string) (skip : nat) (s : string) : string :=
  match s with
  | EmptyString => EmptyString
  | String c s' =>
      match skip with
      | S k => replace_from old new k s'
      | O =>
          if startswith s old
          then new ++ replace_from old new (length old - 1) s'
          else String c (replace_from old new 0 s')
      end
  end.

(** With an empty [old] Python inserts [new] before every character and at
    the end. *)
Fixpoint replace_empty (new s : string) : string :=
  match s with
  | EmptyString => new
  | String c s' => new ++ String c (replace_empty new s')
  end.

Definition replace (s old new : string) : string :=
  match old with
  | EmptyString => replace_empty new s
  | String _ _ => replace_from old new 0 s
  end.

(** [sep.join(l)] *)
Fixpoint join (sep : string) (l : list string) : string :=
  match l with
  | [] => EmptyString
  | [x] => x
  | x :: xs => x ++ sep ++ join sep xs
  end.

(** Line boundaries of [str.splitlines] below code point 128:
    LF, VT, FF, CR, FS, GS, RS (and the pair CR LF). *)
Definition is_linebreak (c : ascii) : bool :=
  match nat_of_ascii c with
  | 10 | 11 | 12 | 13 | 28 | 29 | 30 => true
  | _ => false
  end.

Definition is_cr (c : ascii) : bool := Nat.eqb (nat_of_ascii c) 13.
Definition is_lf (c : ascii) : bool := Nat.eqb (nat_of_ascii c) 10.

(** [s.splitlines()] *)
Fixpoint splitlines (s : string) : list string :=
  match s with
  | EmptyString => []
  | String c s' =>
      if is_linebreak c then
        match s' with
        | String c2 s'' =>
            if is_cr c && is_lf c2
            then EmptyString :: splitlines s''
            else EmptyString :: splitlines s'
        | EmptyString => [EmptyString]
        end
      else
        match splitlines s' with
        | [] => [String c EmptyString]
        | l :: ls => String c l :: ls
        end
  end.

(** [str.isspace] on one character below code point 128. *)
Definition isspace (c : ascii) : bool :=
  match nat_of_ascii c with
  | 9 | 10 | 11 | 12 | 13 | 28 | 29 | 30 | 31 | 32 => true
  | _ => false
  end.

(** [s.split()]: the maximal runs of non-whitespace characters. *)
Fixpoint split (s : string) : list string :=
  match s with
  | EmptyString => []
  | String c s' =>
      if isspace c then split s'
      else
        match s' with
        | EmptyString => [String c EmptyString]
        | String c2 _ =>
            if isspace c2 then String c EmptyString :: split s'
            else
              match split s' with
              | t :: ts => String c t :: ts
              | [] => [String c EmptyString]
              end
        end
  end.

(** [kwargs[name]] *)
Fixpoint lookup (name : string) (kw : list (string * string)) : result string :=
  match kw with
  | [] => Raise (KeyError name)
  | (k, v) :: kw' => if String.eqb k name then Ok v else lookup name kw'
  end.

(** [template.format] with keyword arguments [kw], for templates whose
    replacement fields are plain names: [{{] and [}}] stand for one brace,
    [{name}] for [kw[name]].  [field] is [Some n] while the scan is inside
    a field of which [n] has been read. *)
Fixpoint format_from (kw : list (string * string)) (field : option string)
  (s : string) {struct s} : result string :=
  match s with
  | EmptyString =>
      match field with
      | None => Ok EmptyString
      | Some _ => Raise (ValueError "expected '}' before end of string")
      end
  | String c s' =>
      match field with
      | Some name =>
          if Ascii.eqb c "}"
          then v <- lookup name kw ;;
               r <- format_from kw None s' ;;
               Ok (v ++ r)
          else format_from kw (Some (name ++ String c EmptyString)) s'
      | None =>
          if Ascii.eqb c "{" then
            match s' with
            | String c2 s'' =>
                if Ascii.eqb c2 "{"
                then r <- format_from kw None s'' ;; Ok (String c r)
                else format_from kw (Some EmptyString) s'
            | EmptyString => Raise (ValueError "Single '{' encountered in format string")
            end
          else if Ascii.eqb c "}" then
            match s' with
            | String c2 s'' =>
                if Ascii.eqb c2 "}"
                then r <- format_from kw None s'' ;; Ok (String c r)
                else Raise (ValueError "Single '}' encountered in format string")
            | EmptyString => Raise (ValueError "Single '}' encountered in format string")
            end
          else r <- format_from kw None s' ;; Ok (String c r)
      end
  end.

Definition format (template : string) (kw : list (string * string)) : result string :=
  format_from kw None template.

(** [str(n)] for an [int]. *)
Definition str_int (n : Z) : string := NilZero.string_of_int (Z.to_int n).

End Py.

(** ** The CAS-loop templates *)

Definition cas_nvvm : string := "
    %cas_success = cmpxchg volatile {Ti}* %iptr, {Ti} %old, {Ti} %new monotonic monotonic
    %cas = extractvalue {{ {Ti}, i1 }} %cas_success, 0
".

Definition ir_numba_atomic_binary_template : string := "
define internal {T} @___numba_atomic_{T}_{FUNC}({T}* %ptr, {T} %val) alwaysinline {{
entry:
    %iptr = bitcast {T}* %ptr to {Ti}*
    %old2 = load volatile {Ti}, {Ti}* %iptr
    br label %attempt

attempt:
    %old = phi {Ti} [ %old2, %entry ], [ %cas, %attempt ]
    %dold = bitcast {Ti} %old to {T}
    %dnew = {OP} {T} %dold, %val
    %new = bitcast {T} %dnew to {Ti}
    {CAS}
    %repeat = icmp ne {Ti} %cas, %old
    br i1 %repeat, label %attempt, label %done

done:
    %result = bitcast {Ti} %old to {T}
    ret {T} %result
}}
".

Definition ir_numba_atomic_inc_template : string := "
define internal {T} @___numba_atomic_{Tu}_inc({T}* %iptr, {T} %val) alwaysinline {{
entry:
    %old2 = load volatile {T}, {T}* %iptr
    br label %attempt

attempt:
    %old = phi {T} [ %old2, %entry ], [ %cas, %attempt ]
    %bndchk = icmp ult {T} %old, %val
    %inc = add {T} %old, 1
    %new = select i1 %bndchk, {T} %inc, {T} 0
    {CAS}
    %repeat = icmp ne {T} %cas, %old
    br i1 %repeat, label %attempt, label %done

done:
    ret {T} %old
}}
".

Definition ir_numba_atomic_dec_template : string := "
define internal {T} @___numba_atomic_{Tu}_dec({T}* %iptr, {T} %val) alwaysinline {{
entry:
    %old2 = load volatile {T}, {T}* %iptr
    br label %attempt

attempt:
    %old = phi {T} [ %old2, %entry ], [ %cas, %attempt ]
    %dec = add {T} %old, -1
    %bndchk = icmp ult {T} %dec, %val
    %new = select i1 %bndchk, {T} %dec, {T} %val
    {CAS}
    %repeat = icmp ne {T} %cas, %old
    br i1 %repeat, label %attempt, label %done

done:
    ret {T} %old
}}
".

Definition ir_numba_atomic_minmax_template : string := "
define internal {T} @___numba_atomic_{T}_{NAN}{FUNC}({T}* %ptr, {T} %val) alwaysinline {{
entry:
    %ptrval = load volatile {T}, {T}* %ptr
    ; Return early when:
    ; - For nanmin / nanmax when val is a NaN
    ; - For min / max when val or ptr is a NaN
    %early_return = fcmp uno {T} %val, %{PTR_OR_VAL}val
    br i1 %early_return, label %done, label %lt_check

lt_check:
    %dold = phi {T} [ %ptrval, %entry ], [ %dcas, %attempt ]
    ; Continue attempts if dold less or greater than val (depending on whether min or max)
    ; or if dold is NaN (for nanmin / nanmax)
    %cmp = fcmp {OP} {T} %dold, %val
    br i1 %cmp, label %attempt, label %done

attempt:
    ; Attempt to swap in the value
    %old = bitcast {T} %dold to {Ti}
    %iptr = bitcast {T}* %ptr to {Ti}*
    %new = bitcast {T} %val to {Ti}
    {CAS}
    %dcas = bitcast {Ti} %cas to {T}
    br label %lt_check

done:
    ret {T} %ptrval
}}
".

Definition ir_cas (Ti : string) : result string :=
  Py.format cas_nvvm [("Ti", Ti)].

Definition ir_numba_atomic_binary (T Ti OP FUNC : string) : result string :=
  CAS <- ir_cas Ti ;;
  Py.format ir_numba_atomic_binary_template
    [("T", T); ("Ti", Ti); ("OP", OP); ("FUNC", FUNC); ("CAS", CAS)].

Definition ir_numba_atomic_minmax (T Ti NAN OP PTR_OR_VAL FUNC : string)
  : result string :=
  CAS <- ir_cas Ti ;;
  Py.format ir_numba_atomic_minmax_template
    [("T", T); ("Ti", Ti); ("NAN", NAN); ("OP", OP);
     ("PTR_OR_VAL", PTR_OR_VAL); ("FUNC", FUNC); ("CAS", CAS)].

Definition ir_numba_atomic_inc (T Tu : string) : result string :=
  CAS <- ir_cas T ;;
  Py.format ir_numba_atomic_inc_template [("T", T); ("Tu", Tu); ("CAS", CAS)].

Definition ir_numba_atomic_dec (T Tu : string) : result string :=
  CAS <- ir_cas T ;;
  Py.format ir_numba_atomic_dec_template [("T", T); ("Tu", Tu); ("CAS", CAS)].

(** ** [llvm150_to_70_ir] *)

Definition LF : string := String (ascii_of_nat 10) EmptyString.

Definition is_digit (c : ascii) : bool :=
  let n := nat_of_ascii c in (48 <=? n)%nat && (n <=? 57)%nat.

(** [\w] below code point 128: letters, digits and the underscore. *)
Definition is_word (c : ascii) : bool :=
  let n := nat_of_ascii c in
  is_digit c
  || ((65 <=? n)%nat && (n <=? 90)%nat)
  || ((97 <=? n)%nat && (n <=? 122)%nat)
  || Nat.eqb n 95.

(** [s] with the literal [p] removed from its front, when [s] starts with it. *)
Fixpoint strip_prefix (p s : string) {struct p} : option string :=
  match p with
  | EmptyString => Some s
  | String a p' =>
      match s with
      | EmptyString => None
      | String b s' => if Ascii.eqb a b then strip_prefix p' s' else None
      end
  end.

(** [\d+]: at least one digit, then as many as follow.  What comes next in
    the pattern is a space, so giving a digit back can never help. *)
Fixpoint skip_digits (s : string) : string :=
  match s with
  | String c s' => if is_digit c then skip_digits s' else s
  | EmptyString => s
  end.

Definition re_digits (s : string) : option string :=
  match s with
  | String c s' => if is_digit c then Some (skip_digits s') else None
  | EmptyString => None
  end.

(** [([\w\s]+)\ }]: the group takes as many characters of the class as it
    can and gives them back one at a time until a space and a closing brace
    follow. *)
Fixpoint re_group (s : string) : option string :=
  match s with
  | EmptyString => None
  | String c s' =>
      if is_word c || Py.isspace c then
        match re_group s' with
        | Some g => Some (String c g)
        | None => if Py.startswith s' " }" then Some (String c EmptyString) else None
        end
      else None
  end.

(** [re_attributes_def.match(line)], as [m.group(1)] when there is a match. *)
Definition re_attributes_def (line : string) : option string :=
  match strip_prefix "attributes #" line with
  | None => None
  | Some s1 =>
      match re_digits s1 with
      | None => None
      | Some s2 =>
          match strip_prefix " = { " s2 with
          | None => None
          | Some s3 => re_group s3
          end
      end
  end.

(** The body of the loop over the lines. *)
Definition convert_line (line : string) : result string :=
  if Py.startswith line "attributes #" then
    match re_attributes_def line with
    | None => Raise (AttributeError "'NoneType' object has no attribute 'group'")
    | Some g =>
        let attrs := Py.split g in
        let attrs :=
          Py.join " " (filter (fun a => negb (String.eqb a "willreturn")) attrs) in
        Ok (Py.replace line g attrs)
    end
  else Ok line.

Definition llvm150_to_70_ir (ir : string) : result string :=
  buf <- mapM convert_line (Py.splitlines ir) ;;
  Ok (Py.join LF buf).

(** ** [llvm_replace] *)

(** The calls of the synthesizer that [llvm_replace] makes. *)
Inductive atomic_call : Type :=
| Binary (T Ti OP FUNC : string)
| Inc (T Tu : string)
| Dec (T Tu : string)
| MinMax (T Ti NAN OP PTR_OR_VAL FUNC : string).

Definition synthesize (c : atomic_call) : result string :=
  match c with
  | Binary T Ti OP FUNC => ir_numba_atomic_binary T Ti OP FUNC
  | Inc T Tu => ir_numba_atomic_inc T Tu
  | Dec T Tu => ir_numba_atomic_dec T Tu
  | MinMax T Ti NAN OP PTR_OR_VAL FUNC =>
      ir_numba_atomic_minmax T Ti NAN OP PTR_OR_VAL FUNC
  end.

(** The declaration patterns of [replacements] with the call that builds
    the definition each one is replaced by, in the order of the source. *)
Definition atomic_catalog : list (string * atomic_call) :=
  [ (Py.q "declare double @'___numba_atomic_double_add'(double* %'.1', double %'.2')",
     Binary "double" "i64" "fadd" "add");
    (Py.q "declare float @'___numba_atomic_float_sub'(float* %'.1', float %'.2')",
     Binary "float" "i32" "fsub" "sub");
    (Py.q "declare double @'___numba_atomic_double_sub'(double* %'.1', double %'.2')",
     Binary "double" "i64" "fsub" "sub");
    (Py.q "declare i64 @'___numba_atomic_u64_inc'(i64* %'.1', i64 %'.2')",
     Inc "i64" "u64");
    (Py.q "declare i64 @'___numba_atomic_u64_dec'(i64* %'.1', i64 %'.2')",
     Dec "i64" "u64");
    (Py.q "declare float @'___numba_atomic_float_max'(float* %'.1', float %'.2')",
     MinMax "float" "i32" EmptyString "nnan olt" "ptr" "max");
    (Py.q "declare double @'___numba_atomic_double_max'(double* %'.1', double %'.2')",
     MinMax "double" "i64" EmptyString "nnan olt" "ptr" "max");
    (Py.q "declare float @'___numba_atomic_float_min'(float* %'.1', float %'.2')",
     MinMax "float" "i32" EmptyString "nnan ogt" "ptr" "min");
    (Py.q "declare double @'___numba_atomic_double_min'(double* %'.1', double %'.2')",
     MinMax "double" "i64" EmptyString "nnan ogt" "ptr" "min");
    (Py.q "declare float @'___numba_atomic_float_nanmax'(float* %'.1', float %'.2')",
     MinMax "float" "i32" "nan" "ult" EmptyString "max");
    (Py.q "declare double @'___numba_atomic_double_nanmax'(double* %'.1', double %'.2')",
     MinMax "double" "i64" "nan" "ult" EmptyString "max");
    (Py.q "declare float @'___numba_atomic_float_nanmin'(float* %'.1', float %'.2')",
     MinMax "float" "i32" "nan" "ugt" EmptyString "min");
    (Py.q "declare double @'___numba_atomic_double_nanmin'(double* %'.1', double %'.2')",
     MinMax "double" "i64" "nan" "ugt" EmptyString "min") ].

(** The atomic part of [replacements]: each declaration with its definition. *)
Definition atomic_replacements : result (list (string * string)) :=
  mapM (fun e : string * atomic_call => fn <- synthesize (snd e) ;; Ok (fst e, fn))
       atomic_catalog.

Definition replacements : result (list (string * string)) :=
  atomic <- atomic_replacements ;;
  Ok (atomic ++ [("immarg", EmptyString)])%list.

(** [for decl, fn in l: llvmir = llvmir.replace(decl, fn)] *)
Definition replace_all (l : list (string * string)) (llvmir : string) : string :=
  fold_left (fun ir e => Py.replace ir (fst e) (snd e)) l llvmir.

Definition llvm_replace (llvmir : string) : result string :=
  rs <- replacements ;;
  llvm150_to_70_ir (replace_all rs llvmir).

(** The declaration-to-definition substitution alone: the loop of
    [llvm_replace] over the atomic entries of [replacements]. *)
Definition atomic_substitution (llvmir : string) : result string :=
  rs <- atomic_replacements ;;
  Ok (replace_all rs llvmir).

(** ** Option encoding ([CompilationUnit.__init__]) and [compile_ir] *)

(** The option values the encoder distinguishes. *)
Inductive pyval : Type :=
| PNone
| PBool (b : bool)
| PInt (n : Z)
| PStr (s : string).

(** [f"{v}"] *)
Definition format_value (v : pyval) : string :=
  match v with
  | PNone => "None"
  | PBool true => "True"
  | PBool false => "False"
  | PInt n => Py.str_int n
  | PStr s => s
  end.

(** [bool(v)] *)
Definition truthy (v : pyval) : bool :=
  match v with
  | PNone => false
  | PBool b => b
  | PInt n => negb (n =? 0)%Z
  | PStr s => negb (String.eqb s EmptyString)
  end.

(** A [dict] with string keys, as the list of its items in insertion order
    (no key occurs twice). *)
Definition dict : Type := list (string * pyval).

Fixpoint dict_get (k : string) (d : dict) : option pyval :=
  match d with
  | [] => None
  | (k', v) :: d' => if String.eqb k' k then Some v else dict_get k d'
  end.

(** [del d[k]] *)
Fixpoint dict_del (k : string) (d : dict) : dict :=
  match d with
  | [] => []
  | (k', v) :: d' => if String.eqb k' k then d' else (k', v) :: dict_del k d'
  end.

(** [d.pop(k, default)]: the value and the dict afterwards. *)
Definition dict_pop (k : string) (default : pyval) (d : dict) : pyval * dict :=
  match dict_get k d with
  | Some v => (v, dict_del k d)
  | None => (default, d)
  end.

(** [d[k] = v]: a key already present keeps its place. *)
Fixpoint dict_set (k : string) (v : pyval) (d : dict) : dict :=
  match d with
  | [] => [(k, v)]
  | (k', v') :: d' =>
      if String.eqb k' k then (k', v) :: d' else (k', v') :: dict_set k v d'
  end.

(** [d.update(items)] *)
Definition dict_update (d : dict) (items : dict) : dict :=
  fold_left (fun d e => dict_set (fst e) (snd e) d) items d.

Definition stringify_option (k : string) (v : pyval) : string :=
  let k := Py.replace k "_" "-" in
  match v with
  | PNone => "-" ++ k
  | _ =>
      let v := match v with PBool b => PInt (Z.b2z b) | _ => v end in
      "-" ++ k ++ "=" ++ format_value v
  end.

(** [self.options] of a [CompilationUnit] built from [options]. *)
Definition CompilationUnit_options (options : dict) : list string :=
  map (fun kv => stringify_option (fst kv) (snd kv)) options.

Definition fastmath_options : dict :=
  [ ("ftz", PBool true); ("fma", PBool true);
    ("prec_div", PBool false); ("prec_sqrt", PBool false) ].

(** The options [compile_ir] hands to [CompilationUnit]. *)
Definition compile_ir_options (options : dict) : dict :=
  let (fastmath, options) := dict_pop "fastmath" (PBool false) options in
  if truthy fastmath then dict_update options fastmath_options else options.

(** The option list of the session [compile_ir] creates. *)
Definition compile_ir_encoded (options : dict) : list string :=
  CompilationUnit_options (compile_ir_options options).

(** ** [set_launch_bounds] *)

Inductive launch_bounds_arg : Type :=
| LBNone
| LBInt (n : Z)
| LBTuple (l : list Z).

(** A metadata node [(kernel, MetaDataString(prop), i32 bound)]; a kernel
    is named by its symbol. *)
Record md_node : Type := MD { md_kernel : string; md_prop : string; md_value : Z }.

Definition md_eqb (a b : md_node) : bool :=
  String.eqb (md_kernel a) (md_kernel b)
  && String.eqb (md_prop a) (md_prop b)
  && (md_value a =? md_value b)%Z.

(** The part of an IR module the annotator touches: its metadata nodes, and
    its named metadata (each name with the indices of its operands). *)
Record module : Type := Module_
  { metadata : list md_node;
    named_metadata : list (string * list nat) }.

Fixpoint md_index (x : md_node) (l : list md_node) (i : nat) : option nat :=
  match l with
  | [] => None
  | y :: l' => if md_eqb x y then Some i else md_index x l' (S i)
  end.

(** [module.add_metadata(operands)]: the node with these operands, created
    at the end of the module's metadata unless it exists. *)
Definition add_metadata (x : md_node) (m : module) : nat * module :=
  match md_index x (metadata m) 0 with
  | Some i => (i, m)
  | None =>
      (List.length (metadata m),
       Module_ (metadata m ++ [x])%list (named_metadata m))
  end.

Fixpoint has_named (name : string) (l : list (string * list nat)) : bool :=
  match l with
  | [] => false
  | (n, _) :: l' => String.eqb n name || has_named name l'
  end.

(** Modelled from the spec: [cgutils.get_or_insert_named_metadata], which is
    not among the sources: the named metadata [name] of the module, added
    empty when the module has none of that name. *)
Definition get_or_insert_named_metadata (name : string) (m : module) : module :=
  if has_named name (named_metadata m) then m
  else Module_ (metadata m) (named_metadata m ++ [(name, [])])%list.

Fixpoint named_add (name : string) (i : nat) (l : list (string * list nat))
  : list (string * list nat) :=
  match l with
  | [] => []
  | (n, ops) :: l' =>
      if String.eqb n name then (n, (ops ++ [i])%list) :: l'
      else (n, ops) :: named_add name i l'
  end.

(** [nmd.add(md)] on the named metadata [name]. *)
Definition nmd_add (name : string) (i : nat) (m : module) : module :=
  Module_ (metadata m) (named_add name i (named_metadata m)).

(** [repr] of a tuple of integers. *)
Definition repr_tuple (l : list Z) : string :=
  match l with
  | [x] => "(" ++ Py.str_int x ++ ",)"
  | _ => "(" ++ Py.join ", " (map Py.str_int l) ++ ")"
  end.

Definition properties : list string := ["maxntidx"; "minctasm"; "cluster_max_blocks"].

(** One turn of the loop over [zip(properties, launch_bounds)]. *)
Definition attach_bound (kernel : string) (m : module) (pb : string * Z) : module :=
  let (md, m) := add_metadata (MD kernel (fst pb) (snd pb)) m in
  nmd_add "nvvm.annotations" md m.

(** The outcome and the module afterwards (an exception leaves the module
    as it was when it was raised). *)
Definition set_launch_bounds (kernel : string) (launch_bounds : launch_bounds_arg)
  (m : module) : result unit * module :=
  match launch_bounds with
  | LBNone => (Ok tt, m)
  | _ =>
      let launch_bounds :=
        match launch_bounds with
        | LBInt n => [n]
        | LBTuple l => l
        | LBNone => []
        end in
      let n := List.length launch_bounds in
      if (3 <? n)%nat then
        (Raise (ValueError
           ("Got " ++ Py.str_int (Z.of_nat n) ++ " launch bounds: "
            ++ repr_tuple launch_bounds
            ++ ". A maximum of three are supported: "
            ++ "(max_threads_per_block, min_blocks_per_sm, max_blocks_per_cluster)")),
         m)
      else
        let m := get_or_insert_named_metadata "nvvm.annotations" m in
        (Ok tt, fold_left (attach_bound kernel) (combine properties launch_bounds) m)
  end.

(** ** The driver singleton: IR version and data layout *)

Definition _datalayout_original : string :=
  "e-p:64:64:64-i1:8:8-i8:8:8-i16:16:16-i32:32:32-"
  ++ "i64:64:64-f32:32:32-f64:64:64-v16:16:16-v32:32:32-"
  ++ "v64:64:64-v128:128:128-n16:32:64".

Definition _datalayout_i128 : string :=
  "e-p:64:64:64-i1:8:8-i8:8:8-i16:16:16-i32:32:32-i64:64:64-"
  ++ "i128:128:128-f32:32:32-f64:64:64-v16:16:16-v32:32:32-"
  ++ "v64:64:64-v128:128:128-n16:32:64".

(** What [nvvmIRVersion] of the loaded library answers: a result code and
    the four numbers it writes. *)
Record driver : Type := Driver
  { nvvmIRVersion : Z * (Z * Z * Z * Z) }.

Record NVVM : Type := MkNVVM
  { _majorIR : Z; _minorIR : Z; _majorDbg : Z; _minorDbg : Z }.

Definition RESULT_CODE_NAMES : list string :=
  [ "NVVM_SUCCESS";
    "NVVM_ERROR_OUT_OF_MEMORY";
    "NVVM_ERROR_PROGRAM_CREATION_FAILURE";
    "NVVM_ERROR_IR_VERSION_MISMATCH";
    "NVVM_ERROR_INVALID_INPUT";
    "NVVM_ERROR_INVALID_PROGRAM";
    "NVVM_ERROR_INVALID_IR";
    "NVVM_ERROR_INVALID_OPTION";
    "NVVM_ERROR_NO_MODULE_IN_PROGRAM";
    "NVVM_ERROR_COMPILATION" ].

(** [sys.maxsize], the largest index, on the 64-bit platforms CUDA runs
    on. *)
Definition sys_maxsize : Z := (2 ^ 63 - 1)%Z.

(** [l[i]]: an integer that does not fit an index is refused before the
    list is looked at; a negative index counts from the end. *)
Definition list_index (l : list string) (i : Z) : result string :=
  if (i <? - sys_maxsize - 1)%Z || (sys_maxsize <? i)%Z then
    Raise (IndexError "cannot fit 'int' into an index-sized integer")
  else
  let n := Z.of_nat (List.length l) in
  let j := if (i <? 0)%Z then (n + i)%Z else i in
  if (j <? 0)%Z then Raise (IndexError "list index out of range")
  else
    match nth_error l (Z.to_nat j) with
    | Some x => Ok x
    | None => Raise (IndexError "list index out of range")
    end.

(** [check_error(error, msg)], [exit] left at its default [False]: a
    non-zero result code raises.  The method with [exit] is
    [NVVM_check_error] below. *)
Definition check_error (error : Z) (msg : string) : result unit :=
  if (error =? 0)%Z then Ok tt
  else code <- list_index RESULT_CODE_NAMES error ;; Raise (NvvmError msg code).

Definition get_ir_version (d : driver) : result (Z * Z * Z * Z) :=
  let (err, versions) := nvvmIRVersion d in
  _ <- check_error err "Failed to get IR version." ;;
  Ok versions.

(** [NVVM.__init__] *)
Definition NVVM_init (d : driver) : result NVVM :=
  ir_versions <- get_ir_version d ;;
  let '(majorIR, minorIR, majorDbg, minorDbg) := ir_versions in
  Ok (MkNVVM majorIR minorIR majorDbg minorDbg).

(** [(a, b) < (c, d)] on tuples of integers. *)
Definition tuple_lt (x y : Z * Z) : bool :=
  if (fst x =? fst y)%Z then (snd x <? snd y)%Z else (fst x <? fst y)%Z.

Definition data_layout (self : NVVM) : string :=
  if tuple_lt (_majorIR self, _minorIR self) (1, 8)%Z
  then _datalayout_original
  else _datalayout_i128.

(** ** What the synthesized functions compute

    The functions of the templates, instruction by instruction, run by one
    thread on the cell [%ptr] points to while other threads write to it.
    A value is its bit pattern, so a [bitcast] changes nothing.  The
    [schedule] says what the other threads do to the cell just before each
    access of this thread (the initial [load], then every [cmpxchg]):
    [Some v] stores [v], [None] leaves the cell alone; when the schedule is
    used up the cell is left alone. *)

Definition schedule : Type := list (option Z).

Definition interfere (sched : schedule) (mem : Z) : Z * schedule :=
  match sched with
  | [] => (mem, [])
  | None :: sched' => (mem, sched')
  | Some v :: sched' => (v, sched')
  end.

(** One [cmpxchg]: the contents it found, the contents it expected, and the
    contents it stores when the two agree. *)
Record cas_event : Type := CasEvent { observed : Z; expected : Z; desired : Z }.

Definition succeeded (e : cas_event) : bool := (observed e =? expected e)%Z.

(** [cmpxchg volatile Ti* %iptr, Ti %old, Ti %new]: the value of [%cas] and
    the cell afterwards. *)
Definition cmpxchg (mem old new : Z) : Z * Z :=
  if (mem =? old)%Z then (mem, new) else (mem, mem).

(** A finished call: the value returned, the cell and the rest of the
    schedule at the return, and the [cmpxchg]s executed, oldest first. *)
Record outcome : Type := Outcome
  { ret : Z; final_mem : Z; attempts : list cas_event; unused : schedule }.

Section Atomics.

(** Floating point enters only through these: which bit patterns are NaNs,
    the order of two numbers, the arithmetic of an opcode, and what a
    comparison flagged [nnan] yields on a NaN (it is poison there). *)
Variable is_nan : Z -> bool.
Variable flt : Z -> Z -> bool.
Variable farith : string -> Z -> Z -> Z.
Variable nnan_poison : bool.

Definition fcmp_pred (pred : string) (a b : Z) : bool :=
  let uno := is_nan a || is_nan b in
  if String.eqb pred "uno" then uno
  else if String.eqb pred "olt" then negb uno && flt a b
  else if String.eqb pred "ogt" then negb uno && flt b a
  else if String.eqb pred "ult" then uno || flt a b
  else if String.eqb pred "ugt" then uno || flt b a
  else false.

(** [fcmp OP T %a, %b] for the [OP] a template is instantiated with: a
    predicate, or the flag [nnan] and a predicate. *)
Definition fcmp (OP : string) (a b : Z) : bool :=
  match Py.split OP with
  | [pred] => fcmp_pred pred a b
  | [flag; pred] =>
      if String.eqb flag "nnan" then
        if is_nan a || is_nan b then nnan_poison else fcmp_pred pred a b
      else false
  | _ => false
  end.

(** The block [attempt] of the binary template, entered with [%old]; it
    branches to itself while [%repeat] holds and to [done] otherwise. *)
Fixpoint binary_attempt (fuel : nat) (OP : string) (val old mem : Z)
  (sched : schedule) (trace : list cas_event) : option outcome :=
  match fuel with
  | O => None
  | S fuel' =>
      let dnew := farith OP old val in
      let (mem, sched) := interfere sched mem in
      let (cas, mem') := cmpxchg mem old dnew in
      let trace := (trace ++ [CasEvent mem old dnew])%list in
      let repeat := negb (cas =? old)%Z in
      if repeat then binary_attempt fuel' OP val cas mem' sched trace
      else (* done: *) Some (Outcome old mem' trace sched)
  end.

(** [___numba_atomic_{T}_{FUNC}(%ptr, %val)] of the binary template. *)
Definition numba_atomic_binary (fuel : nat) (OP : string) (val mem : Z)
  (sched : schedule) : option outcome :=
  let (mem, sched) := interfere sched mem in
  let old2 := mem in
  binary_attempt fuel OP val old2 mem sched [].

(** The value of the register [%<name>] in the block [entry] of the
    min/max template. *)
Definition entry_register (name : string) (val ptrval : Z) : option Z :=
  if String.eqb name "val" then Some val
  else if String.eqb name "ptrval" then Some ptrval
  else None.

(** [%early_return = fcmp uno T %val, %{PTR_OR_VAL}val] *)
Definition early_return (PTR_OR_VAL : string) (val ptrval : Z) : option bool :=
  match entry_register (PTR_OR_VAL ++ "val") val ptrval with
  | Some reference => Some (fcmp "uno" val reference)
  | None => None
  end.

(** The blocks [lt_check] and [attempt] of the min/max template, entered
    with [%dold]. *)
Fixpoint minmax_lt_check (fuel : nat) (OP : string) (val ptrval dold mem : Z)
  (sched : schedule) (trace : list cas_event) : option outcome :=
  match fuel with
  | O => None
  | S fuel' =>
      let cmp := fcmp OP dold val in
      if cmp then
        (* attempt: *)
        let (mem, sched) := interfere sched mem in
        let (cas, mem') := cmpxchg mem dold val in
        let trace := (trace ++ [CasEvent mem dold val])%list in
        minmax_lt_check fuel' OP val ptrval cas mem' sched trace
      else (* done: *) Some (Outcome ptrval mem trace sched)
  end.

(** [___numba_atomic_{T}_{NAN}{FUNC}(%ptr, %val)] of the min/max template. *)
Definition numba_atomic_minmax (fuel : nat) (OP PTR_OR_VAL : string)
  (val mem : Z) (sched : schedule) : option outcome :=
  let (mem, sched) := interfere sched mem in
  let ptrval := mem in
  match early_return PTR_OR_VAL val ptrval with
  | None => None
  | Some true => (* done: *) Some (Outcome ptrval mem [] sched)
  | Some false => minmax_lt_check fuel OP val ptrval ptrval mem sched []
  end.

End Atomics.

(** A small instance to run the functions on: the numbers are the
    non-negative integers in their order, every negative pattern is a NaN. *)
Definition toy_is_nan (x : Z) : bool := (x <? 0)%Z.
Definition toy_flt (a b : Z) : bool := (a <? b)%Z.
Definition toy_arith (OP : string) (a b : Z) : Z :=
  if String.eqb OP "fadd" then (a + b)%Z
  else if String.eqb OP "fsub" then (a - b)%Z
  else a.

(** ** Reading the synthesized text *)

(** The first line that starts with [p]. *)
Definition find_line (p : string) (ls : list string) : option string :=
  find (fun l => Py.startswith l p) ls.

(** The lines of a basic block: from a line on, up to the first empty line
    or closing brace. *)
Fixpoint block_body (ls : list string) : list string :=
  match ls with
  | [] => []
  | l :: ls' =>
      if String.eqb l EmptyString || String.eqb l "}" then []
      else l :: block_body ls'
  end.

(** The lines of the block labelled [label]. *)
Fixpoint block_of (label : string) (ls : list string) : list string :=
  match ls with
  | [] => []
  | l :: ls' =>
      if String.eqb l (label ++ ":") then block_body ls' else block_of label ls'
  end.

(** The line of a function's text that computes [%early_return]. *)
Definition early_return_line (fn : string) : option string :=
  find_line "    %early_return = " (Py.splitlines fn).

Definition done_block (fn : string) : list string :=
  block_of "done" (Py.splitlines fn).


(** What the text of a catalog entry says about the early return: a NaN-aware
    function compares [%val] with itself, a plain one with [%ptrval]. *)
Definition early_return_text (e : string * atomic_call) : Prop :=
  match snd e with
  | MinMax T Ti NAN OP PTR_OR_VAL FUNC =>
      exists fn,
        synthesize (snd e) = Ok fn
        /\ ((NAN = "nan" /\ PTR_OR_VAL = EmptyString
             /\ early_return_line fn
                = Some ("    %early_return = fcmp uno " ++ T ++ " %val, %val"))
            \/ (NAN = EmptyString /\ PTR_OR_VAL = "ptr"
                /\ early_return_line fn
                   = Some ("    %early_return = fcmp uno " ++ T ++ " %val, %ptrval")))
  | _ => True
  end.


(** ** Definitions that follow the words of the specification *)

(** A name with every underscore replaced by a dash, character by
    character. *)
Fixpoint dashed (k : string) : string :=
  match k with
  | EmptyString => EmptyString
  | String c k' => String (if Ascii.eqb c "_" then "-"%char else c) (dashed k')
  end.

(** The token the specification gives for one option. *)
Definition spec_token (k : string) (v : pyval) : string :=
  match v with
  | PNone => "-" ++ dashed k
  | PBool true => "-" ++ dashed k ++ "=1"
  | PBool false => "-" ++ dashed k ++ "=0"
  | PInt n => "-" ++ dashed k ++ "=" ++ Py.str_int n
  | PStr s => "-" ++ dashed k ++ "=" ++ s
  end.

(** [f] applied twice, the second time to what the first returned. *)
Definition twice (f : string -> result string) (s : string) : result string :=
  r <- f s ;; f r.

(** The text of an attribute group: its number [ds] and its attributes
    [ts], one space apart. *)
Definition attr_line (ds : string) (ts : list string) : string :=
  "attributes #" ++ ds ++ " = { " ++ Py.join " " ts ++ " }".

Fixpoint all_chars (p : ascii -> bool) (s : string) : bool :=
  match s with
  | EmptyString => true
  | String c s' => p c && all_chars p s'
  end.

(** A non-empty run of digits. *)
Definition is_number (s : string) : bool :=
  negb (String.eqb s EmptyString) && all_chars is_digit s.

(** An attribute written with word characters only. *)
Definition is_attr_token (s : string) : bool :=
  negb (String.eqb s EmptyString) && all_chars is_word s.

(** [s] without every character that lies in an occurrence of [pat]:
    [cover] counts the characters still to come of the occurrences that
    began earlier. *)
Fixpoint delete_covered (pat : string) (cover : nat) (s : string) : string :=
  match s with
  | EmptyString => EmptyString
  | String c s' =>
      let cover := if Py.startswith s pat then String.length pat else cover in
      match cover with
      | O => String c (delete_covered pat 0 s')
      | S k => delete_covered pat k s'
      end
  end.

Definition delete_occurrences (pat s : string) : string := delete_covered pat 0 s.

(** The class [[\w\s]] of the pattern. *)
Definition in_class (c : ascii) : bool := is_word c || Py.isspace c.

(** [c in s] for one character. *)
Fixpoint char_in (c : ascii) (s : string) : bool :=
  match s with
  | EmptyString => false
  | String x s' => Ascii.eqb x c || char_in c s'
  end.

(** A line as [splitlines] yields them: no line boundary inside. *)
Definition is_line (s : string) : bool :=
  all_chars (fun c => negb (Py.is_linebreak c)) s.

Definition not_willreturn (a : string) : bool := negb (String.eqb a "willreturn").

(** [s[k:]] *)
Fixpoint drop (k : nat) (s : string) : string :=
  match k, s with
  | O, _ => s
  | S k', String _ s' => drop k' s'
  | S _, EmptyString => EmptyString
  end.

Definition lf : ascii := ascii_of_nat 10.

(** No line feed in [s]. *)
Definition lf_free (s : string) : bool := all_chars (fun c => negb (Py.is_lf c)) s.

Fixpoint ends_lf (s : string) : bool :=
  match s with
  | EmptyString => false
  | String c EmptyString => Py.is_lf c
  | String _ s' => ends_lf s'
  end.

(** [s] starts with a line feed and ends with another one. *)
Definition lf_bounded (s : string) : bool :=
  match s with
  | String c s' => Py.is_lf c && ends_lf s'
  | EmptyString => false
  end.

(** What makes a table of replacements safe to apply twice: every pattern
    is a non-empty text without a line feed, every replacement text lies
    between two line feeds and contains none of the patterns. *)
Definition table_ok (tbl : list (string * string)) : bool :=
  forallb
    (fun e =>
       negb (String.eqb (fst e) EmptyString)
       && lf_free (fst e)
       && lf_bounded (snd e)
       && forallb (fun d => negb (Py.contains (snd e) (fst d))) tbl)
    tbl.

(** The operands of the named metadata [nvvm.annotations]. *)
Fixpoint named_ops (name : string) (l : list (string * list nat)) : list nat :=
  match l with
  | [] => []
  | (n, ops) :: l' => if String.eqb n name then ops else named_ops name l'
  end.

Definition annotation_ops (m : module) : list nat :=
  named_ops "nvvm.annotations" (named_metadata m).

(** ** Reading a declaration or a definition *)

(** The text before the first [b]. *)
Fixpoint text_until (b : ascii) (s : string) : string :=
  match s with
  | EmptyString => EmptyString
  | String c s' => if Ascii.eqb c b then EmptyString else String c (text_until b s')
  end.

(** The text after the first [a]. *)
Fixpoint text_after (a : ascii) (s : string) : string :=
  match s with
  | EmptyString => EmptyString
  | String c s' => if Ascii.eqb c a then s' else text_after a s'
  end.

(** [s] without its double quotes. *)
Fixpoint unquote (s : string) : string :=
  match s with
  | EmptyString => EmptyString
  | String c s' => if Ascii.eqb c Py.dquote then unquote s' else String c (unquote s')
  end.

Fixpoint evens {A : Type} (l : list A) : list A :=
  match l with
  | x :: _ :: l' => x :: evens l'
  | _ => l
  end.

(** Of the first function a text declares or defines: the return type (the
    word before the [@]), the symbol (between the [@] and the parenthesis,
    quoted or not) and the types of the parameters. *)
Definition signature_of (text : string) : string * string * list string :=
  (last (Py.split (text_until "@" text)) EmptyString,
   unquote (text_until "(" (text_after "@" text)),
   evens (Py.split (text_until ")" (text_after "(" text)))).

(** ** The increment and the decrement *)

(** An [i64] is its unsigned value; [add] wraps. *)
Definition u64 (x : Z) : Z := (x mod 2 ^ 64)%Z.

Definition is_u64 (x : Z) : Prop := (0 <= x < 2 ^ 64)%Z.

(** The block [attempt] of the increment template. *)
Fixpoint inc_attempt (fuel : nat) (val old mem : Z) (sched : schedule)
  (trace : list cas_event) : option outcome :=
  match fuel with
  | O => None
  | S fuel' =>
      let bndchk := (old <? val)%Z in
      let inc := u64 (old + 1) in
      let new := if bndchk then inc else 0%Z in
      let (mem, sched) := interfere sched mem in
      let (cas, mem') := cmpxchg mem old new in
      let trace := (trace ++ [CasEvent mem old new])%list in
      let repeat := negb (cas =? old)%Z in
      if repeat then inc_attempt fuel' val cas mem' sched trace
      else (* done: *) Some (Outcome old mem' trace sched)
  end.

(** [___numba_atomic_{Tu}_inc(%iptr, %val)] *)
Definition numba_atomic_inc (fuel : nat) (val mem : Z) (sched : schedule)
  : option outcome :=
  let (mem, sched) := interfere sched mem in
  let old2 := mem in
  inc_attempt fuel val old2 mem sched [].

(** The block [attempt] of the decrement template. *)
Fixpoint dec_attempt (fuel : nat) (val old mem : Z) (sched : schedule)
  (trace : list cas_event) : option outcome :=
  match fuel with
  | O => None
  | S fuel' =>
      let dec := u64 (old + -1) in
      let bndchk := (dec <? val)%Z in
      let new := if bndchk then dec else val in
      let (mem, sched) := interfere sched mem in
      let (cas, mem') := cmpxchg mem old new in
      let trace := (trace ++ [CasEvent mem old new])%list in
      let repeat := negb (cas =? old)%Z in
      if repeat then dec_attempt fuel' val cas mem' sched trace
      else (* done: *) Some (Outcome old mem' trace sched)
  end.

(** [___numba_atomic_{Tu}_dec(%iptr, %val)] *)
Definition numba_atomic_dec (fuel : nat) (val mem : Z) (sched : schedule)
  : option outcome :=
  let (mem, sched) := interfere sched mem in
  let old2 := mem in
  dec_attempt fuel val old2 mem sched [].

(** The values the other threads store. *)
Definition stores (sched : schedule) (P : Z -> Prop) : Prop :=
  forall v, In (Some v) sched -> P v.

(** ** [set_cuda_kernel] *)

(** A global variable of a module. *)
Record global_variable : Type := GlobalVariable
  { gv_name : string; gv_linkage : string; gv_section : string;
    gv_initializer : list string }.

(** A module as [set_cuda_kernel] sees it: the metadata, the names of
    functions and globals taken in the module's scope (the names llvmlite
    makes up for metadata strings and nodes, a dot or digits, are left out:
    none can be that of a global), and the global variables. *)
Record ir_module : Type := IRModule
  { ir_metadata : module; ir_scope : list string;
    ir_globals : list global_variable }.

(** How a call ends: normally, or with the [DuplicatedNameError] that the
    creation of a global raises when its name is taken. *)
Inductive kernel_outcome : Type :=
| Marked
| DuplicatedNameError (name : string).

(** The outcome, the module afterwards and the attributes of the function
    afterwards ([function] is the symbol of the function, [attributes] its
    attribute set). *)
Definition set_cuda_kernel (function : string) (attributes : list string)
  (m : ir_module) : kernel_outcome * ir_module * list string :=
  (* Add kernel metadata *)
  let (md, mdm) := add_metadata (MD function "kernel" 1) (ir_metadata m) in
  let mdm := get_or_insert_named_metadata "nvvm.annotations" mdm in
  let mdm := nmd_add "nvvm.annotations" md mdm in
  (* Create the used list *)
  if existsb (String.eqb "llvm.used") (ir_scope m) then
    (DuplicatedNameError "llvm.used",
     IRModule mdm (ir_scope m) (ir_globals m), attributes)
  else
    let llvm_used :=
      GlobalVariable "llvm.used" "appending" "llvm.metadata" [function] in
    (Marked,
     IRModule mdm (ir_scope m ++ ["llvm.used"])%list
              (ir_globals m ++ [llvm_used])%list,
     (* Remove 'noinline' if it is present. *)
     filter (fun a => negb (String.eqb a "noinline")) attributes).

(** ** What [update] leaves

    A dict after [d.update(items)], said without the loop: the items of [d]
    where they stood, each with the value [items] gives its key if it gives
    one, followed by the items of [items] whose key [d] did not have. *)

Definition overwritten (items d : dict) : dict :=
  map (fun kv => (fst kv, match dict_get (fst kv) items with
                          | Some v => v
                          | None => snd kv
                          end)) d.

Definition appended (items d : dict) : dict :=
  filter (fun kv => match dict_get (fst kv) d with
                    | Some _ => false
                    | None => true
                    end) items.

(** ** A compilation session ([CompilationUnit], [LibDevice], [compile_ir])

    libNVVM is outside the program: its answers are a parameter, a function
    of the request and of everything that happened before it.  The library
    is taken as loaded ([NVVM.__new__] has found it), warnings as shown, and
    a text as the bytes of its UTF-8 encoding.

    Objects are released as CPython releases them.  A [CompilationUnit]
    that nothing refers to any more is finalized at once: [__del__] runs,
    and an exception that leaves it is reported and ignored.  The unit of
    [compile_ir] is held by the frame alone, so a return releases it before
    the caller has the result; an exception keeps the frame, and the unit
    with it, alive in its traceback, and the release then happens when the
    caller drops the exception, after the run. *)

(** The entry points of libNVVM, with what the caller passes. *)
Inductive request : Type :=
| IRVersion
| CreateProgram
| DestroyProgram (cu : Z)
| AddModuleToProgram (cu : Z) (buffer : string)
| LazyAddModuleToProgram (cu : Z) (buffer : string)
| VerifyProgram (cu : Z) (options : list string)
| CompileProgram (cu : Z) (options : list string)
| GetCompiledResultSize (cu : Z)
| GetCompiledResult (cu : Z) (size : Z)
| GetProgramLogSize (cu : Z)
| GetProgramLog (cu : Z) (size : Z).

(** What a call leaves in its out-parameter. *)
Inductive out_value : Type :=
| NoValue
| Versions (v : Z * Z * Z * Z)
| Program (cu : Z)
| Size (n : Z)
| Bytes (s : string).

(** The result code of a call, and what it wrote. *)
Record reply : Type := Reply { rc : Z; written : out_value }.

(** The exceptions of this layer: those of the functions above, the
    [RuntimeError] of [LibDevice], the [UnicodeDecodeError] of [decode] and
    the [SystemExit] of [sys.exit]. *)
Inductive raised : Type :=
| Exn (e : exn)
| RuntimeError (msg : string)
| UnicodeDecodeError
| SystemExit (code : Z).

(** What a session does that can be seen from outside: the calls of the
    library with their answers, the reading of libdevice, a warning,
    [print(exc)], and the report of an exception ignored in [__del__]. *)
Inductive event : Type :=
| Native (r : request) (a : reply)
| OpenLibdevice
| Warn (message : string)
| Printed (exc : exn)
| Ignored (e : raised).



Definition size_value (a : reply) : Z :=
  match written a with Size n => n | _ => 0%Z end.

Fixpoint nul_bytes (n : nat) : string :=
  match n with
  | O => EmptyString
  | S n' => String Ascii.zero (nul_bytes n')
  end.

Definition buffer_value (size : Z) (a : reply) : string :=
  match written a with Bytes s => s | _ => nul_bytes (Z.to_nat size) end.

(** A computation of a session: from the events so far to a value or an
    exception, and the events afterwards. *)
Definition session (A : Type) : Type := list event -> (A + raised) * list event.

Definition pure {A : Type} (a : A) : session A := fun t => (inl a, t).

Definition throw {A : Type} (e : raised) : session A := fun t => (inr e, t).

Definition and_then {A B : Type} (c : session A) (k : A -> session B) : session B :=
  fun t =>
    match c t with
    | (inl a, t') => k a t'
    | (inr e, t') => (inr e, t')
    end.

Notation "x <~ c ;; k" := (and_then c (fun x => k))
  (at level 61, c at next level, right associativity).

Definition lift {A : Type} (r : result A) : session A :=
  match r with
  | Ok a => pure a
  | Raise e => throw (Exn e)
  end.

Definition emit (e : event) : session unit := fun t => (inl tt, (t ++ [e])%list).

(** [NVVM.check_error(error, msg, exit)].  The name of the code is looked
    up before [exit] is; with [exit] the exception is printed and the
    interpreter asked to exit with status 1. *)
Definition NVVM_check_error (error : Z) (msg : string) (exit : bool)
  : session unit :=
  if (error =? 0)%Z then pure tt
  else
    code <~ lift (list_index RESULT_CODE_NAMES error) ;;
    let exc := NvvmError msg code in
    if exit then _ <~ emit (Printed exc) ;; throw (SystemExit 1)
    else throw (Exn exc).

(** Whether bytes are the UTF-8 encoding of a text, as the strict decoder
    of Python judges: [need] continuation bytes are still due, the next one
    within [lo] and [hi]. *)
Fixpoint utf8_from (need lo hi : nat) (s : string) : bool :=
  match s with
  | EmptyString => Nat.eqb need 0
  | String c s' =>
      let b := nat_of_ascii c in
      match need with
      | O =>
          if (b <? 128)%nat then utf8_from 0 128 191 s'
          else if (194 <=? b)%nat && (b <=? 223)%nat then utf8_from 1 128 191 s'
          else if (b =? 224)%nat then utf8_from 2 160 191 s'
          else if (225 <=? b)%nat && (b <=? 236)%nat then utf8_from 2 128 191 s'
          else if (b =? 237)%nat then utf8_from 2 128 159 s'
          else if (238 <=? b)%nat && (b <=? 239)%nat then utf8_from 2 128 191 s'
          else if (b =? 240)%nat then utf8_from 3 144 191 s'
          else if (241 <=? b)%nat && (b <=? 243)%nat then utf8_from 3 128 191 s'
          else if (b =? 244)%nat then utf8_from 3 128 143 s'
          else false
      | S need' =>
          (lo <=? b)%nat && (b <=? hi)%nat && utf8_from need' 128 191 s'
      end
  end.

(** [b.decode('utf8')]: the text, which is its own encoding. *)
Definition decode_utf8 (b : string) : session string :=
  if utf8_from 0 128 191 b then pure b else throw UnicodeDecodeError.


(** [self._handle] and [self.options] of a [CompilationUnit]. *)
Record CompilationUnit : Type := MkCompilationUnit
  { cu_handle : Z; cu_options : list string }.


Section Session.

Variable libnvvm : list event -> request -> reply.
(** [get_libdevice()] and [open_libdevice()] of [cudadrv.libs]: the path of
    the libdevice file if there is one, and its content. *)
Variable get_libdevice : option string.
Variable open_libdevice : string.

Definition call (r : request) : session reply :=
  fun t => let a := libnvvm t r in (inl a, (t ++ [Native r a])%list).







(** [logbuf.value] is the content of the buffer up to its first zero byte. *)
Definition get_log (self : CompilationUnit) : session string :=
  a <~ call (GetProgramLogSize (cu_handle self)) ;;
  _ <~ lift (check_error (rc a) "Failed to get compilation log size.") ;;
  let reslen := size_value a in
  if (1 <? reslen)%Z then
    b <~ call (GetProgramLog (cu_handle self) reslen) ;;
    _ <~ lift (check_error (rc b) "Failed to get compilation log.") ;;
    decode_utf8 (text_until Ascii.zero (buffer_value reslen b))
  else pure EmptyString.

(** The message is built, and so the log read, before [check_error] looks
    at [err]. *)
Definition _try_error (self : CompilationUnit) (err : Z) (msg : string)
  : session unit :=
  log <~ get_log self ;;
  lift (check_error err (msg ++ LF ++ log)).

Definition verify (self : CompilationUnit) : session unit :=
  a <~ call (VerifyProgram (cu_handle self) (cu_options self)) ;;
  _try_error self (rc a) ("Failed to verify" ++ LF).






End Session.

(** *** Reading the events of a run *)

Definition is_log_request (r : request) : bool :=
  match r with
  | GetProgramLogSize _ | GetProgramLog _ _ => true
  | _ => false
  end.

Definition is_log_query (e : event) : bool :=
  match e with
  | Native r _ => is_log_request r
  | _ => false
  end.

(** An event that is not a call the library answered with an error. *)
Definition accepted (e : event) : bool :=
  match e with
  | Native _ a => (rc a =? 0)%Z
  | _ => true
  end.

(** Nothing but queries of the log follows the first call that the library
    answers with an error. *)
Fixpoint stops_at_error (new : list event) : bool :=
  match new with
  | [] => true
  | e :: new' =>
      if accepted e then stops_at_error new' else forallb is_log_query new'
  end.









(** ** Vector type stubs ([numba/cuda/stubs.py]) *)

(** A stub class made by [make_vector_type_stubs]: its name, the attributes
    that are methods, and the other entries of its class dictionary. *)
Record stub : Type := MkStub
  { __name__ : string;
    methods : list string;
    _description_ : string;
    __signature__ : list string;
    __doc__ : string;
    aliases : list string }.

Definition vector_type_prefix : list string :=
  [ "int8"; "int16"; "int32"; "int64";
    "uint8"; "uint16"; "uint32"; "uint64";
    "float32"; "float64" ].

Definition vector_type_element_counts : list nat := [1; 2; 3; 4]%nat.

Definition vector_type_attribute_names : list string := ["x"; "y"; "z"; "w"].

(** [itertools.product(a, b)] *)
Definition product {A B : Type} (a : list A) (b : list B) : list (A * B) :=
  flat_map (fun x => map (pair x) b) a.

(** The class built in one turn of the loop. *)
Definition vector_type_stub (prefix : string) (nelem : nat) : stub :=
  let type_name := prefix ++ "x" ++ Py.str_int (Z.of_nat nelem) in
  let attr_names := firstn nelem vector_type_attribute_names in
  MkStub type_name
         attr_names
         ("<" ++ type_name ++ ">")
         (firstn nelem attr_names)
         ("A stub for " ++ type_name ++ " to be used in " ++ "CUDA kernels.")
         [].

Definition make_vector_type_stubs : list stub :=
  map (fun pn => vector_type_stub (fst pn) (snd pn))
      (product vector_type_prefix vector_type_element_counts).

(** The sizes in bytes that numpy reports for the C types of the platform. *)
Record itemsizes : Type := MkItemsizes
  { np_byte : Z; np_short : Z; np_intc : Z; np_int_ : Z; np_longlong : Z;
    np_ubyte : Z; np_ushort : Z; np_uintc : Z; np_uint : Z; np_ulonglong : Z;
    np_single : Z; np_double : Z }.

(** The items of the dict [base_type_to_alias], in order: alias, base type. *)
Definition base_type_to_alias (np : itemsizes) : list (string * string) :=
  [ ("char", "int" ++ Py.str_int (np_byte np * 8));
    ("short", "int" ++ Py.str_int (np_short np * 8));
    ("int", "int" ++ Py.str_int (np_intc np * 8));
    ("long", "int" ++ Py.str_int (np_int_ np * 8));
    ("longlong", "int" ++ Py.str_int (np_longlong np * 8));
    ("uchar", "uint" ++ Py.str_int (np_ubyte np * 8));
    ("ushort", "uint" ++ Py.str_int (np_ushort np * 8));
    ("uint", "uint" ++ Py.str_int (np_uintc np * 8));
    ("ulong", "uint" ++ Py.str_int (np_uint np * 8));
    ("ulonglong", "uint" ++ Py.str_int (np_ulonglong np * 8));
    ("float", "float" ++ Py.str_int (np_single np * 8));
    ("double", "float" ++ Py.str_int (np_double np * 8)) ].

(** [s[:-2]] *)
Definition but_last_two (s : string) : string :=
  substring 0 (String.length s - 2) s.

(** [s[-1]] *)
Fixpoint last_char (s : string) : result string :=
  match s with
  | EmptyString => Raise (IndexError "string index out of range")
  | String c EmptyString => Ok (String c EmptyString)
  | String _ s' => last_char s'
  end.

(** The stub classes are objects that the function changes in place: a
    store gives the class behind each reference, and the list handed to the
    function is a list of references (the same class may occur twice). *)
Definition store : Type := nat -> stub.

(** [stub.aliases.append(a)] on the class behind [r]. *)
Definition append_alias (h : store) (r : nat) (a : string) : store :=
  fun i =>
    if Nat.eqb i r then
      let s := h i in
      MkStub (__name__ s) (methods s) (_description_ s) (__signature__ s)
             (__doc__ s) (aliases s ++ [a])%list
    else h i.

(** [d[k].append(r)] on a [defaultdict(list)], as the list of its items. *)
Fixpoint dd_append (k : string) (r : nat) (d : list (string * list nat))
  : list (string * list nat) :=
  match d with
  | [] => [(k, [r])]
  | (k', l) :: d' =>
      if String.eqb k' k then (k', (l ++ [r])%list) :: d'
      else (k', l) :: dd_append k r d'
  end.

(** [d[k]]: the empty list for a key that is not there. *)
Fixpoint dd_get (k : string) (d : list (string * list nat)) : list nat :=
  match d with
  | [] => []
  | (k', l) :: d' => if String.eqb k' k then l else dd_get k d'
  end.

(** A loop whose body may raise. *)
Fixpoint foldM {A S : Type} (f : S -> A -> result S) (l : list A) (s : S)
  : result S :=
  match l with
  | [] => Ok s
  | x :: l' => s' <- f s x ;; foldM f l' s'
  end.

Definition map_vector_type_stubs_to_alias (np : itemsizes) (h : store)
  (vector_type_stubs : list nat) : result store :=
  let base_type_to_vector_type :=
    fold_left (fun d r => dd_append (but_last_two (__name__ (h r))) r d)
              vector_type_stubs [] in
  foldM (fun h (item : string * string) =>
           let (alias, base_type) := item in
           let vector_type_stubs := dd_get base_type base_type_to_vector_type in
           foldM (fun h r =>
                    nelem <- last_char (__name__ (h r)) ;;
                    Ok (append_alias h r (alias ++ nelem)))
                 vector_type_stubs h)
        (base_type_to_alias np) h.

(** The store holding the classes of a list at the references 0, 1, ... *)
Definition store_of (l : list stub) : store :=
  fun i => nth i l (MkStub EmptyString [] EmptyString [] EmptyString []).

(** [_vector_type_stubs] once the module is loaded. *)
Definition _vector_type_stubs (np : itemsizes) : result store :=
  map_vector_type_stubs_to_alias np (store_of make_vector_type_stubs)
    (seq 0 (List.length make_vector_type_stubs)).

(** The aliases a class gets: one for every item of the table whose base
    type is the name without its last two characters, and every occurrence
    of the class in the list; each ends with the last character of the
    name. *)
Definition last_or_empty (s : string) : string :=
  match last_char s with Ok c => c | Raise _ => EmptyString end.

Definition new_aliases (table : list (string * string)) (refs : list nat)
  (name : string) (i : nat) : list string :=
  flat_map (fun item : string * string =>
              flat_map (fun r =>
                          if Nat.eqb r i && String.eqb (but_last_two name) (snd item)
                          then [fst item ++ last_or_empty name]
                          else [])
                       refs)
           table.

(** The fields of a class other than [aliases]. *)
Definition same_class (s s' : stub) : Prop :=
  __name__ s' = __name__ s /\ methods s' = methods s
  /\ _description_ s' = _description_ s /\ __signature__ s' = __signature__ s
  /\ __doc__ s' = __doc__ s.

(** The sizes on a platform where [long] has eight bytes. *)
Definition lp64 : itemsizes := MkItemsizes 1 2 4 8 8 1 2 4 8 8 4 8.

(** * Properties *)

(** ** Data layout *)

Lemma tuple_lt_spec (a b c d : Z) :
  tuple_lt (a, b) (c, d) = true <-> (a < c \/ (a = c /\ b < d))%Z.
Proof.
  unfold tuple_lt; cbn [fst snd].
  destruct (Z.eqb_spec a c) as [->|Hne].
  - rewrite Z.ltb_lt. lia.
  - rewrite Z.ltb_lt. lia.
Qed.

Lemma datalayouts_differ : _datalayout_original <> _datalayout_i128.
Proof. vm_compute. discriminate. Qed.

(** C8.  Whatever IR version [nvvmIRVersion] reports when the driver object
    is initialised, the object stores it and [data_layout] is computed from
    the stored numbers: the original layout (which has no [i128] entry) when
    (majorIR, minorIR) is lexicographically below (1, 8), the layout with
    [i128:128:128] when it is (1, 8) or above. *)
Theorem data_layout_selection (majorIR minorIR majorDbg minorDbg : Z) :
  exists self,
    NVVM_init (Driver (0%Z, (majorIR, minorIR, majorDbg, minorDbg))) = Ok self
    /\ _majorIR self = majorIR /\ _minorIR self = minorIR
    /\ ((majorIR < 1 \/ (majorIR = 1 /\ minorIR < 8))%Z ->
        data_layout self = _datalayout_original)
    /\ ((majorIR > 1 \/ (majorIR = 1 /\ minorIR >= 8))%Z ->
        data_layout self = _datalayout_i128)
    /\ Py.contains _datalayout_original "i128" = false
    /\ Py.contains _datalayout_i128 "i128:128:128" = true.
Proof.
  eexists. split; [reflexivity|]. cbn [_majorIR _minorIR].
  split; [reflexivity|]. split; [reflexivity|].
  unfold data_layout; cbn [_majorIR _minorIR].
  destruct (tuple_lt (majorIR, minorIR) (1, 8)%Z) eqn:E.
  - apply tuple_lt_spec in E.
    repeat split; try reflexivity. intros; lia.
  - assert (~ (majorIR < 1 \/ (majorIR = 1 /\ minorIR < 8))%Z) as N.
    { intro H. apply tuple_lt_spec in H. congruence. }
    repeat split; try reflexivity. intros; lia.
Qed.

(** The two cases of the specification: version (1, 7) and version (1, 8). *)
Lemma data_layout_selection_witness :
  (exists self,
     NVVM_init (Driver (0%Z, (1, 7, 3, 0)%Z)) = Ok self
     /\ data_layout self = _datalayout_original)
  /\ (exists self,
     NVVM_init (Driver (0%Z, (1, 8, 3, 1)%Z)) = Ok self
     /\ data_layout self = _datalayout_i128).
Proof.
  split.
  - destruct (data_layout_selection 1 7 3 0) as (self & Hi & _ & _ & Ho & _).
    exists self. split; [exact Hi | apply Ho; lia].
  - destruct (data_layout_selection 1 8 3 1) as (self & Hi & _ & _ & _ & Hn & _).
    exists self. split; [exact Hi | apply Hn; lia].
Defined.

(** A failing version query leaves no driver object to ask for a layout. *)
Example NVVM_init_failure :
  NVVM_init (Driver (3%Z, (0, 0, 0, 0)%Z))
  = Raise (NvvmError "Failed to get IR version." "NVVM_ERROR_IR_VERSION_MISMATCH").
Proof. reflexivity. Qed.

(** ** Option encoding *)

Lemma replace_underscore (k : string) : Py.replace k "_" "-" = dashed k.
Proof.
  unfold Py.replace.
  induction k as [|c k IH]; [reflexivity|].
  cbn [Py.replace_from Py.startswith dashed String.length Nat.sub].
  rewrite Ascii.eqb_sym.
  destruct (Ascii.eqb c "_"); cbn [andb]; rewrite IH; reflexivity.
Qed.

Lemma stringify_option_spec (k : string) (v : pyval) :
  stringify_option k v = spec_token k v.
Proof.
  unfold stringify_option, spec_token. rewrite replace_underscore.
  destruct v as [|[|]|n|s]; reflexivity.
Qed.

(** C5.  The option list of a [CompilationUnit] is the list of the
    specification's tokens of the items of [options], in the order of the
    items: underscores of a name become dashes, [None] gives the bare flag,
    a Boolean is rendered as 1 or 0, any other value as it prints. *)
Theorem option_encoding (options : dict) :
  CompilationUnit_options options
    = map (fun kv => spec_token (fst kv) (snd kv)) options
  /\ List.length (CompilationUnit_options options) = List.length options
  /\ forall i k v,
       nth_error options i = Some (k, v) ->
       nth_error (CompilationUnit_options options) i = Some (spec_token k v).
Proof.
  assert (CompilationUnit_options options
          = map (fun kv => spec_token (fst kv) (snd kv)) options) as E.
  { unfold CompilationUnit_options. apply map_ext.
    intros [k v]. apply stringify_option_spec. }
  split; [exact E|]. split.
  - unfold CompilationUnit_options. apply length_map.
  - intros i k v H. rewrite E.
    rewrite nth_error_map, H. reflexivity.
Qed.

(** The examples of the specification, in one [dict]. *)
Lemma option_encoding_witness :
  nth_error
    (CompilationUnit_options
       [("opt_a", PNone); ("opt_b", PBool true); ("opt_c", PInt 3)]) 1
  = Some "-opt-b=1".
Proof.
  exact (proj2 (proj2 (option_encoding
                         [("opt_a", PNone); ("opt_b", PBool true); ("opt_c", PInt 3)]))
               1%nat "opt_b" (PBool true) eq_refl).
Defined.

Example option_encoding_examples :
  CompilationUnit_options
    [("opt_a", PNone); ("opt_b", PBool true); ("opt_c", PInt 3);
     ("gen_lto", PNone); ("arch", PStr "compute_75"); ("opt", PInt (-1));
     ("g", PBool false)]
  = ["-opt-a"; "-opt-b=1"; "-opt-c=3"; "-gen-lto"; "-arch=compute_75";
     "-opt=-1"; "-g=0"].
Proof. reflexivity. Qed.

(** ** The [fastmath] flag of [compile_ir] *)

Lemma dict_get_set_same (k : string) (v : pyval) (d : dict) :
  dict_get k (dict_set k v d) = Some v.
Proof.
  induction d as [|[k' v'] d IH]; cbn.
  - rewrite String.eqb_refl. reflexivity.
  - destruct (String.eqb k' k) eqn:E; cbn; rewrite E; [reflexivity | exact IH].
Qed.

Lemma dict_get_set_other (k k' : string) (v : pyval) (d : dict) :
  k <> k' -> dict_get k' (dict_set k v d) = dict_get k' d.
Proof.
  intros Hne. induction d as [|[k0 v0] d IH]; cbn.
  - destruct (String.eqb_spec k k'); [contradiction | reflexivity].
  - destruct (String.eqb_spec k0 k) as [->|]; cbn.
    + destruct (String.eqb_spec k k'); [contradiction | reflexivity].
    + rewrite IH. reflexivity.
Qed.

Lemma dict_set_absent (k : string) (v : pyval) (d : dict) :
  dict_get k d = None -> dict_set k v d = (d ++ [(k, v)])%list.
Proof.
  induction d as [|[k0 v0] d IH]; cbn; [reflexivity|].
  destruct (String.eqb k0 k); [discriminate|].
  intros H. rewrite (IH H). reflexivity.
Qed.

Lemma dict_get_app_absent (k : string) (d e : dict) :
  dict_get k d = None -> dict_get k (d ++ e)%list = dict_get k e.
Proof.
  induction d as [|[k0 v0] d IH]; cbn; [reflexivity|].
  destruct (String.eqb k0 k); [discriminate | exact IH].
Qed.

Lemma dict_get_absent_notin (k : string) (d : dict) :
  ~ In k (map fst d) -> dict_get k d = None.
Proof.
  induction d as [|[k0 v0] d IH]; cbn; [reflexivity|].
  intros H. destruct (String.eqb_spec k0 k) as [->|].
  - exfalso. apply H. left. reflexivity.
  - apply IH. intro. apply H. right. assumption.
Qed.

Lemma dict_get_del_same (k : string) (d : dict) :
  NoDup (map fst d) -> dict_get k (dict_del k d) = None.
Proof.
  induction d as [|[k0 v0] d IH]; cbn; [reflexivity|].
  intros H. inversion H as [|? ? Hnotin Hnd]; subst.
  destruct (String.eqb_spec k0 k) as [->|Hne].
  - apply dict_get_absent_notin. exact Hnotin.
  - cbn. destruct (String.eqb_spec k0 k); [contradiction|]. apply IH, Hnd.
Qed.

Lemma dict_get_del_other (k k' : string) (d : dict) :
  k <> k' -> dict_get k' (dict_del k d) = dict_get k' d.
Proof.
  intros Hne. induction d as [|[k0 v0] d IH]; cbn; [reflexivity|].
  destruct (String.eqb_spec k0 k) as [->|].
  - destruct (String.eqb_spec k k'); [contradiction | reflexivity].
  - cbn. rewrite IH. reflexivity.
Qed.

Lemma dict_del_absent (k : string) (d : dict) :
  dict_get k d = None -> dict_del k d = d.
Proof.
  induction d as [|[k0 v0] d IH]; cbn; [reflexivity|].
  destruct (String.eqb k0 k); [discriminate|].
  intros H. rewrite (IH H). reflexivity.
Qed.

Lemma dict_update_absent (items d : dict) :
  (forall k, In k (map fst items) -> dict_get k d = None) ->
  NoDup (map fst items) ->
  dict_update d items = (d ++ items)%list.
Proof.
  unfold dict_update. revert d.
  induction items as [|[k v] items IH]; intros d Hd Hnd; cbn [fold_left fst snd].
  - rewrite app_nil_r. reflexivity.
  - inversion Hnd as [|? ? Hnotin Hnd']; subst.
    rewrite dict_set_absent by (apply Hd; left; reflexivity).
    rewrite IH.
    + rewrite <- app_assoc. reflexivity.
    + intros k' Hk'. rewrite dict_get_app_absent by (apply Hd; right; exact Hk').
      cbn. destruct (String.eqb_spec k k') as [->|]; [contradiction | reflexivity].
    + exact Hnd'.
Qed.

Lemma dict_get_notin (k : string) (d : dict) :
  dict_get k d = None -> ~ In k (map fst d).
Proof.
  induction d as [|[k0 v0] d IH]; cbn; [tauto|].
  destruct (String.eqb_spec k0 k) as [->|Hne]; [discriminate|].
  intros H [E|Hin]; [contradiction | exact (IH H Hin)].
Qed.

Lemma overwritten_other (k : string) (v : pyval) (items d : dict) :
  ~ In k (map fst d) -> overwritten ((k, v) :: items) d = overwritten items d.
Proof.
  intros Hk. unfold overwritten. apply map_ext_in. intros [k0 v0] Hin.
  cbn [fst snd dict_get].
  destruct (String.eqb_spec k k0) as [->|Hne]; [|reflexivity].
  exfalso. apply Hk. apply (in_map fst) in Hin. exact Hin.
Qed.

(** One assignment [d[k] = v], seen through the items of [d]. *)
Lemma overwritten_set (k : string) (v : pyval) (items d : dict) :
  NoDup (map fst d) -> dict_get k items = None ->
  overwritten items (dict_set k v d)
  = (overwritten ((k, v) :: items) d
     ++ match dict_get k d with Some _ => [] | None => [(k, v)] end)%list.
Proof.
  intros Hnd Hk. induction d as [|[k0 v0] d IH]; cbn [dict_set dict_get].
  - cbn. rewrite Hk. reflexivity.
  - inversion Hnd as [|? ? Hnotin Hnd']; subst.
    destruct (String.eqb_spec k0 k) as [->|Hne].
    + cbn [overwritten map fst snd dict_get]. rewrite Hk, String.eqb_refl.
      rewrite app_nil_r. f_equal.
      symmetry. apply overwritten_other. exact Hnotin.
    + cbn [overwritten map fst snd dict_get].
      destruct (String.eqb_spec k k0) as [E|_]; [congruence|].
      fold (overwritten items (dict_set k v d)).
      fold (overwritten ((k, v) :: items) d).
      rewrite (IH Hnd'). reflexivity.
Qed.

Lemma appended_set (k : string) (v : pyval) (items d : dict) :
  ~ In k (map fst items) ->
  appended items (dict_set k v d) = appended items d.
Proof.
  intros Hk. unfold appended. apply filter_ext_in. intros [k0 v0] Hin.
  cbn [fst]. rewrite dict_get_set_other; [reflexivity|].
  intros ->. apply Hk. apply (in_map fst) in Hin. exact Hin.
Qed.

Lemma dict_set_keys (k x : string) (v : pyval) (d : dict) :
  In x (map fst (dict_set k v d)) -> x = k \/ In x (map fst d).
Proof.
  induction d as [|[k0 v0] d IH]; cbn.
  - intros [E|[]]; left; congruence.
  - destruct (String.eqb k0 k); cbn; [tauto|].
    intros [E|Hin]; [tauto|]. destruct (IH Hin); tauto.
Qed.

Lemma dict_set_NoDup (k : string) (v : pyval) (d : dict) :
  NoDup (map fst d) -> NoDup (map fst (dict_set k v d)).
Proof.
  induction d as [|[k0 v0] d IH]; cbn; intros Hnd.
  - constructor; [tauto | constructor].
  - inversion Hnd as [|? ? Hnotin Hnd']; subst.
    destruct (String.eqb_spec k0 k) as [->|Hne]; cbn.
    + constructor; assumption.
    + constructor; [|exact (IH Hnd')].
      intros Hin. apply dict_set_keys in Hin. destruct Hin as [E|Hin];
        [congruence | contradiction].
Qed.

Lemma dict_del_keys (k x : string) (d : dict) :
  In x (map fst (dict_del k d)) -> In x (map fst d).
Proof.
  induction d as [|[k0 v0] d IH]; cbn; [tauto|].
  destruct (String.eqb k0 k); cbn; [tauto|].
  intros [E|Hin]; [tauto | right; exact (IH Hin)].
Qed.

Lemma dict_del_NoDup (k : string) (d : dict) :
  NoDup (map fst d) -> NoDup (map fst (dict_del k d)).
Proof.
  induction d as [|[k0 v0] d IH]; cbn; intros Hnd; [constructor|].
  inversion Hnd as [|? ? Hnotin Hnd']; subst.
  destruct (String.eqb k0 k); cbn; [exact Hnd'|].
  constructor; [|exact (IH Hnd')].
  intros Hin. apply Hnotin. eapply dict_del_keys. exact Hin.
Qed.

(** [d.update(items)]: every item of [d] stays where it is and takes the
    value of [items] if there is one; the other items of [items] follow in
    their order. *)
Lemma dict_update_shape (items : dict) :
  NoDup (map fst items) ->
  forall d, NoDup (map fst d) ->
            dict_update d items = (overwritten items d ++ appended items d)%list.
Proof.
  unfold dict_update.
  induction items as [|[k v] items IH]; intros Hi d Hd; cbn [fold_left fst snd].
  - unfold overwritten, appended. cbn. rewrite app_nil_r.
    rewrite <- (map_id d) at 1. apply map_ext. intros [k0 v0]. reflexivity.
  - inversion Hi as [|? ? Hnotin Hi']; subst.
    rewrite (IH Hi' _ (@dict_set_NoDup k v d Hd)).
    rewrite (@overwritten_set k v items d Hd (@dict_get_absent_notin k items Hnotin)).
    rewrite (@appended_set k v items d Hnotin).
    rewrite <- app_assoc. f_equal.
    unfold appended at 2. cbn [filter fst].
    destruct (dict_get k d); reflexivity.
Qed.

(** The dict [compile_ir] builds, by the value popped for [fastmath]. *)
Lemma compile_ir_options_unfold (options : dict) :
  compile_ir_options options =
  if truthy (match dict_get "fastmath" options with
             | Some v => v
             | None => PBool false
             end)
  then dict_update (dict_del "fastmath" options) fastmath_options
  else dict_del "fastmath" options.
Proof.
  unfold compile_ir_options, dict_pop.
  destruct (dict_get "fastmath" options) as [v|] eqn:E.
  - reflexivity.
  - cbn. rewrite (dict_del_absent _ _ E). reflexivity.
Qed.

Ltac other_key :=
  let H := fresh in intro H; inversion H.

(** C6 (as amended).  When [fastmath] is passed with a true value, the flag
    is removed and the dict has [ftz=True], [fma=True], [prec_div=False],
    [prec_sqrt=False] before it is encoded, every other option being kept;
    when the caller passed none of the four they are appended in this order
    after the caller's options; in general every option of the caller keeps
    its position, one of the four taking the fastmath value where it
    stands, and those of the four the caller did not pass follow in this
    order.  When [fastmath] is absent or false nothing is added (a false
    flag is removed all the same). *)
Theorem fastmath_expansion (options : dict) :
  NoDup (map fst options) ->
  let fastmath :=
    match dict_get "fastmath" options with Some v => v | None => PBool false end in
  let r := compile_ir_options options in
  (truthy fastmath = true ->
     dict_get "fastmath" r = None
     /\ dict_get "ftz" r = Some (PBool true)
     /\ dict_get "fma" r = Some (PBool true)
     /\ dict_get "prec_div" r = Some (PBool false)
     /\ dict_get "prec_sqrt" r = Some (PBool false)
     /\ (forall k, ~ In k ["fastmath"; "ftz"; "fma"; "prec_div"; "prec_sqrt"] ->
                   dict_get k r = dict_get k options)
     /\ ((forall k, In k ["ftz"; "fma"; "prec_div"; "prec_sqrt"] ->
                    dict_get k options = None) ->
         r = (dict_del "fastmath" options ++ fastmath_options)%list
         /\ compile_ir_encoded options
            = (CompilationUnit_options (dict_del "fastmath" options)
               ++ ["-ftz=1"; "-fma=1"; "-prec-div=0"; "-prec-sqrt=0"])%list)
     /\ r = (overwritten fastmath_options (dict_del "fastmath" options)
             ++ appended fastmath_options (dict_del "fastmath" options))%list
     /\ compile_ir_encoded options
        = CompilationUnit_options
            (overwritten fastmath_options (dict_del "fastmath" options)
             ++ appended fastmath_options (dict_del "fastmath" options))%list)
  /\ (truthy fastmath = false -> r = dict_del "fastmath" options).
Proof.
  intros Hnd fastmath r. subst r. unfold compile_ir_encoded.
  rewrite compile_ir_options_unfold. fold fastmath.
  split; intros Ht; rewrite Ht; [|reflexivity].
  set (d := dict_del "fastmath" options).
  assert (dict_get "fastmath" d = None) as Hfm by (apply dict_get_del_same, Hnd).
  assert (Hshape : dict_update d fastmath_options
                   = (overwritten fastmath_options d
                      ++ appended fastmath_options d)%list).
  { apply dict_update_shape; [|subst d; apply dict_del_NoDup, Hnd].
    vm_compute. repeat constructor; cbn; intuition discriminate. }
  unfold dict_update at 1 2 3 4 5 6; unfold fastmath_options at 1 2 3 4 5 6;
  cbn [fold_left fst snd].
  split; [|split; [|split; [|split; [|split; [|split;
    [|split; [intros H; split | split]]]]]]].
  - rewrite !dict_get_set_other by other_key. exact Hfm.
  - rewrite !dict_get_set_other by other_key. apply dict_get_set_same.
  - rewrite !dict_get_set_other by other_key. apply dict_get_set_same.
  - rewrite !dict_get_set_other by other_key. apply dict_get_set_same.
  - apply dict_get_set_same.
  - intros k Hk.
    rewrite !dict_get_set_other by (intro; subst k; apply Hk; cbn; tauto).
    subst d. apply dict_get_del_other. intro; subst k; apply Hk; cbn; tauto.
  - subst d. apply dict_update_absent.
    + intros k Hk. rewrite dict_get_del_other.
      * apply H, Hk.
      * intro; subst k. cbn in Hk. intuition discriminate.
    + vm_compute. repeat constructor; cbn; intuition discriminate.
  - fold (dict_update d fastmath_options).
    subst d. rewrite dict_update_absent.
    + unfold CompilationUnit_options. rewrite map_app. reflexivity.
    + intros k Hk. rewrite dict_get_del_other.
      * apply H, Hk.
      * intro; subst k. cbn in Hk. intuition discriminate.
    + vm_compute. repeat constructor; cbn; intuition discriminate.
  - exact Hshape.
  - rewrite Hshape. reflexivity.
Qed.

(** [compile_ir(ir, opt=3, fastmath=True)] *)
Lemma fastmath_expansion_witness :
  compile_ir_encoded [("opt", PInt 3); ("fastmath", PBool true)]
  = ["-opt=3"; "-ftz=1"; "-fma=1"; "-prec-div=0"; "-prec-sqrt=0"].
Proof.
  assert (NoDup (map fst [("opt", PInt 3); ("fastmath", PBool true)])) as Hnd.
  { repeat constructor; cbn; intuition discriminate. }
  destruct (fastmath_expansion _ Hnd) as [Hset _].
  destruct (Hset eq_refl) as (_ & _ & _ & _ & _ & _ & Happ & _).
  destruct Happ as [_ Henc].
  - intros k Hk. cbn in Hk.
    destruct Hk as [<-|[<-|[<-|[<-|[]]]]]; reflexivity.
  - exact Henc.
Defined.

(** C6 as stated fails on [compile_ir(ir, prec_sqrt=True, fastmath=True)]:
    [prec_sqrt] is overwritten where it stands, so three options are added
    and the four do not come in the order ftz, fma, prec_div, prec_sqrt. *)
Lemma fastmath_overwrites_in_place :
  let options := [("prec_sqrt", PBool true); ("fastmath", PBool true)] in
  compile_ir_options options
  = [("prec_sqrt", PBool false); ("ftz", PBool true); ("fma", PBool true);
     ("prec_div", PBool false)]
  /\ compile_ir_encoded options = ["-prec-sqrt=0"; "-ftz=1"; "-fma=1"; "-prec-div=0"]
  /\ compile_ir_options options
     <> (dict_del "fastmath" options ++ fastmath_options)%list.
Proof.
  cbv zeta. split; [reflexivity|]. split; [reflexivity|].
  vm_compute. discriminate.
Qed.

Example fastmath_examples :
  compile_ir_encoded [("fastmath", PBool true)]
  = ["-ftz=1"; "-fma=1"; "-prec-div=0"; "-prec-sqrt=0"]
  /\ compile_ir_encoded [("fastmath", PBool false); ("opt", PInt 3)] = ["-opt=3"]
  /\ compile_ir_encoded [("opt", PInt 3)] = ["-opt=3"].
Proof. repeat split. Qed.

(** ** Launch bounds *)

Lemma md_eqb_eq (a b : md_node) : md_eqb a b = true -> a = b.
Proof.
  destruct a as [k p v], b as [k' p' v']. unfold md_eqb; cbn.
  rewrite !andb_true_iff. intros [[Hk Hp] Hv].
  apply String.eqb_eq in Hk, Hp. apply Z.eqb_eq in Hv. congruence.
Qed.

Lemma md_index_sound (x : md_node) (l : list md_node) :
  forall i j, md_index x l i = Some j ->
              (i <= j)%nat /\ nth_error l (j - i) = Some x.
Proof.
  induction l as [|y l IH]; intros i j H; cbn in H; [discriminate|].
  destruct (md_eqb x y) eqn:E.
  - inversion H; subst. apply md_eqb_eq in E; subst.
    rewrite Nat.sub_diag. split; [lia | reflexivity].
  - destruct (IH _ _ H) as [Hle Hn]. split; [lia|].
    replace (j - i)%nat with (S (j - S i)) by lia. exact Hn.
Qed.

(** [add_metadata] only appends, and the index it returns is the node's. *)
Lemma add_metadata_spec (x : md_node) (m : module) :
  let (i, m') := add_metadata x m in
  nth_error (metadata m') i = Some x
  /\ named_metadata m' = named_metadata m
  /\ exists extra, metadata m' = (metadata m ++ extra)%list.
Proof.
  unfold add_metadata.
  destruct (md_index x (metadata m) 0) as [i|] eqn:E.
  - apply md_index_sound in E. rewrite Nat.sub_0_r in E.
    split; [apply E|]. split; [reflexivity|]. exists []. rewrite app_nil_r. reflexivity.
  - cbn. split.
    + rewrite nth_error_app2 by lia. rewrite Nat.sub_diag. reflexivity.
    + split; [reflexivity|]. exists [x]. reflexivity.
Qed.

Lemma named_ops_add (name : string) (i : nat) (l : list (string * list nat)) :
  has_named name l = true ->
  named_ops name (named_add name i l) = (named_ops name l ++ [i])%list
  /\ has_named name (named_add name i l) = true.
Proof.
  induction l as [|[n ops] l IH]; cbn; [discriminate|].
  destruct (String.eqb n name) eqn:E; cbn; rewrite E; cbn.
  - intros _. split; reflexivity.
  - exact IH.
Qed.

Lemma named_ops_insert (name : string) (l : list (string * list nat)) :
  has_named name l = false ->
  named_ops name (l ++ [(name, [])])%list = named_ops name l
  /\ has_named name (l ++ [(name, [])])%list = true.
Proof.
  induction l as [|[n ops] l IH]; cbn.
  - intros _. rewrite String.eqb_refl. split; reflexivity.
  - destruct (String.eqb n name) eqn:E; cbn; [discriminate|]. exact IH.
Qed.

Lemma named_ops_absent (name : string) (l : list (string * list nat)) :
  has_named name l = false -> named_ops name l = [].
Proof.
  induction l as [|[n ops] l IH]; cbn; [reflexivity|].
  destruct (String.eqb n name); cbn; [discriminate | exact IH].
Qed.

Lemma nth_error_prefix {A : Type} (l extra : list A) (i : nat) (x : A) :
  nth_error l i = Some x -> nth_error (l ++ extra)%list i = Some x.
Proof.
  intros H. rewrite nth_error_app1; [exact H|].
  apply nth_error_Some. congruence.
Qed.

(** The loop over [zip(properties, launch_bounds)]: the operands of
    [nvvm.annotations] grow by one node per pair, in the order of the
    pairs, and no node of the module is lost. *)
Lemma attach_bounds_spec (kernel : string) (pbs : list (string * Z)) :
  forall m,
    has_named "nvvm.annotations" (named_metadata m) = true ->
    let m' := fold_left (attach_bound kernel) pbs m in
    exists idx extra,
      annotation_ops m' = (annotation_ops m ++ idx)%list
      /\ metadata m' = (metadata m ++ extra)%list
      /\ map (nth_error (metadata m')) idx
         = map (fun pb => Some (MD kernel (fst pb) (snd pb))) pbs.
Proof.
  induction pbs as [|pb pbs IH]; intros m Hn; cbn [fold_left].
  - exists [], []. rewrite !app_nil_r. repeat split.
  - assert (exists i m1,
              attach_bound kernel m pb = nmd_add "nvvm.annotations" i m1
              /\ nth_error (metadata m1) i = Some (MD kernel (fst pb) (snd pb))
              /\ named_metadata m1 = named_metadata m
              /\ exists extra1, metadata m1 = (metadata m ++ extra1)%list)
      as (i & m1 & Heq & Hi & Hnm & extra1 & Hext1).
    { unfold attach_bound.
      pose proof (add_metadata_spec (MD kernel (fst pb) (snd pb)) m) as Ha.
      destruct (add_metadata (MD kernel (fst pb) (snd pb)) m) as [i m1].
      exists i, m1. split; [reflexivity | exact Ha]. }
    rewrite Heq.
    set (m2 := nmd_add "nvvm.annotations" i m1).
    assert (has_named "nvvm.annotations" (named_metadata m1) = true) as Hn1
      by (rewrite Hnm; exact Hn).
    destruct (named_ops_add "nvvm.annotations" i _ Hn1) as [Hops Hn2].
    destruct (IH m2 Hn2) as (idx & extra & Hops' & Hext & Hnodes).
    exists (i :: idx), (extra1 ++ extra)%list.
    split; [|split].
    + rewrite Hops'. unfold annotation_ops, m2, nmd_add at 1; cbn [named_metadata].
      rewrite Hops, Hnm, <- app_assoc. reflexivity.
    + rewrite Hext. unfold m2, nmd_add; cbn [metadata].
      rewrite Hext1, <- app_assoc. reflexivity.
    + cbn [map]. rewrite Hnodes. f_equal.
      rewrite Hext. apply nth_error_prefix. exact Hi.
Qed.

Lemma get_or_insert_spec (name : string) (m : module) :
  let m' := get_or_insert_named_metadata name m in
  has_named name (named_metadata m') = true
  /\ named_ops name (named_metadata m') = named_ops name (named_metadata m)
  /\ metadata m' = metadata m.
Proof.
  unfold get_or_insert_named_metadata.
  destruct (has_named name (named_metadata m)) eqn:E; cbn.
  - auto.
  - destruct (named_ops_insert name _ E) as [Ho Hn]. auto.
Qed.

Lemma zip_properties (l : list Z) :
  (List.length l <= 3)%nat ->
  map fst (combine properties l) = firstn (List.length l) properties
  /\ map snd (combine properties l) = l.
Proof.
  destruct l as [|a [|b [|c [|d l]]]]; cbn; intros H; try (split; reflexivity).
  lia.
Qed.

(** C7.  [None] leaves the module as it is; an integer does what the
    one-element tuple does; more than three values raise [ValueError] with
    the module untouched; and [k <= 3] values add to [nvvm.annotations], in
    order, one node per value, carrying the first [k] of the properties
    [maxntidx], [minctasm], [cluster_max_blocks] and nothing else. *)
Theorem launch_bounds_attachment (kernel : string) (m : module) :
  set_launch_bounds kernel LBNone m = (Ok tt, m)
  /\ (forall n,
        set_launch_bounds kernel (LBInt n) m
        = set_launch_bounds kernel (LBTuple [n]) m)
  /\ (forall l,
        (3 < List.length l)%nat ->
        exists msg,
          set_launch_bounds kernel (LBTuple l) m = (Raise (ValueError msg), m))
  /\ (forall l,
        (List.length l <= 3)%nat ->
        exists m' idx extra,
          set_launch_bounds kernel (LBTuple l) m = (Ok tt, m')
          /\ annotation_ops m' = (annotation_ops m ++ idx)%list
          /\ metadata m' = (metadata m ++ extra)%list
          /\ map (nth_error (metadata m')) idx
             = map (fun pb => Some (MD kernel (fst pb) (snd pb)))
                   (combine properties l)
          /\ map fst (combine properties l) = firstn (List.length l) properties
          /\ map snd (combine properties l) = l).
Proof.
  split; [reflexivity|]. split; [reflexivity|]. split.
  - intros l Hl. unfold set_launch_bounds.
    apply Nat.ltb_lt in Hl. rewrite Hl. eexists. reflexivity.
  - intros l Hl. unfold set_launch_bounds.
    assert ((3 <? List.length l)%nat = false) as -> by (apply Nat.ltb_ge; exact Hl).
    pose proof (get_or_insert_spec "nvvm.annotations" m) as Hg.
    set (m0 := get_or_insert_named_metadata "nvvm.annotations" m) in *.
    destruct Hg as (Hn & Hops & Hmd).
    destruct (attach_bounds_spec kernel (combine properties l) m0 Hn)
      as (idx & extra & Ha & Hb & Hc).
    destruct (zip_properties l Hl) as [Hf Hs].
    eexists; exists idx, extra. split; [reflexivity|].
    split; [|split; [|split; [|split]]].
    + rewrite Ha. unfold annotation_ops. rewrite Hops. reflexivity.
    + rewrite Hb, Hmd. reflexivity.
    + exact Hc.
    + exact Hf.
    + exact Hs.
Qed.

(** A 4-tuple is refused, and a 2-tuple on an empty module sets
    [maxntidx] and [minctasm] only. *)
Lemma launch_bounds_attachment_witness :
  (exists msg,
     set_launch_bounds "kernel" (LBTuple [128; 2; 1; 7]%Z) (Module_ [] [])
     = (Raise (ValueError msg), Module_ [] []))
  /\ (exists m' idx extra,
        set_launch_bounds "kernel" (LBTuple [128; 2]%Z) (Module_ [] []) = (Ok tt, m')
        /\ annotation_ops m' = (annotation_ops (Module_ [] []) ++ idx)%list
        /\ metadata m' = (metadata (Module_ [] []) ++ extra)%list
        /\ map (nth_error (metadata m')) idx
           = map (fun pb => Some (MD "kernel" (fst pb) (snd pb)))
                 (combine properties [128; 2]%Z)
        /\ map fst (combine properties [128; 2]%Z) = firstn 2 properties
        /\ map snd (combine properties [128; 2]%Z) = [128; 2]%Z).
Proof.
  destruct (launch_bounds_attachment "kernel" (Module_ [] [])) as (_ & _ & Hmany & Hfew).
  split.
  - apply Hmany. cbn. lia.
  - apply (Hfew [128; 2]%Z). cbn. lia.
Defined.

Example launch_bounds_examples :
  set_launch_bounds "k" (LBTuple [128; 2]%Z) (Module_ [] [])
  = (Ok tt,
     Module_ [MD "k" "maxntidx" 128; MD "k" "minctasm" 2]
             [("nvvm.annotations", [0; 1]%nat)])
  /\ set_launch_bounds "k" (LBInt 256) (Module_ [] [])
     = (Ok tt, Module_ [MD "k" "maxntidx" 256] [("nvvm.annotations", [0%nat])])
  /\ set_launch_bounds "k" (LBTuple [1; 2; 3; 4]%Z) (Module_ [] [])
     = (Raise (ValueError
          ("Got 4 launch bounds: (1, 2, 3, 4). A maximum of three are supported: "
           ++ "(max_threads_per_block, min_blocks_per_sm, max_blocks_per_cluster)")),
        Module_ [] []).
Proof. repeat split. Qed.

(** ** The synthesized atomics: early return and returned value *)

Lemma early_return_text_catalog : Forall early_return_text atomic_catalog.
Proof.
  unfold atomic_catalog.
  repeat (apply Forall_cons; [|]); try apply Forall_nil;
    unfold early_return_text; cbn [snd]; try exact I;
    (eexists; split; [vm_compute; reflexivity|]);
    first [ left; repeat split; vm_compute; reflexivity
          | right; repeat split; vm_compute; reflexivity ].
Qed.


Section AtomicsFacts.

Variable is_nan : Z -> bool.
Variable flt : Z -> Z -> bool.
Variable farith : string -> Z -> Z -> Z.
Variable nnan_poison : bool.

Lemma cmpxchg_hit (old new : Z) : cmpxchg old old new = (old, new).
Proof. unfold cmpxchg. rewrite Z.eqb_refl. reflexivity. Qed.

Lemma cmpxchg_miss (mem old new : Z) : mem <> old -> cmpxchg mem old new = (mem, mem).
Proof.
  intros H. unfold cmpxchg. destruct (Z.eqb_spec mem old); [contradiction | reflexivity].
Qed.

(** The loop of the binary template, entered with the cell holding what
    was read last: it ends, on the first [cmpxchg] that finds what it
    expects, and returns what that [cmpxchg] found. *)
Lemma binary_attempt_spec (OP : string) (val : Z) (sched : schedule) :
  forall fuel old trace,
    (List.length sched < fuel)%nat ->
    exists out earlier last,
      binary_attempt farith fuel OP val old old sched trace = Some out
      /\ attempts out = (trace ++ earlier ++ [last])%list
      /\ Forall (fun e => succeeded e = false) earlier
      /\ succeeded last = true
      /\ ret out = observed last
      /\ desired last = farith OP (ret out) val
      /\ final_mem out = desired last.
Proof.
  induction sched as [|a sched' IH]; intros fuel old trace Hfuel.
  - destruct fuel as [|fuel]; [cbn in Hfuel; lia|].
    cbn [binary_attempt interfere]. rewrite cmpxchg_hit, Z.eqb_refl. cbn [negb].
    eexists; exists [], (CasEvent old old (farith OP old val)).
    split; [reflexivity|]. cbn. unfold succeeded; cbn. rewrite Z.eqb_refl.
    repeat split; auto.
  - destruct fuel as [|fuel]; [cbn in Hfuel; lia|].
    cbn in Hfuel. apply Nat.succ_lt_mono in Hfuel.
    cbn [binary_attempt].
    assert (forall mem,
              mem = old ->
              exists out earlier last,
                (let (cas, mem') := cmpxchg mem old (farith OP old val) in
                 if negb (cas =? old)%Z
                 then binary_attempt farith fuel OP val cas mem' sched'
                        (trace ++ [CasEvent mem old (farith OP old val)])%list
                 else Some (Outcome old mem'
                        (trace ++ [CasEvent mem old (farith OP old val)])%list sched'))
                = Some out
                /\ attempts out = (trace ++ earlier ++ [last])%list
                /\ Forall (fun e => succeeded e = false) earlier
                /\ succeeded last = true
                /\ ret out = observed last
                /\ desired last = farith OP (ret out) val
                /\ final_mem out = desired last) as Hhit.
    { intros mem ->. rewrite cmpxchg_hit, Z.eqb_refl. cbn [negb].
      eexists; exists [], (CasEvent old old (farith OP old val)).
      split; [reflexivity|]. cbn. unfold succeeded; cbn. rewrite Z.eqb_refl.
      repeat split; auto. }
    destruct a as [v|]; cbn [interfere]; [|apply Hhit; reflexivity].
    destruct (Z.eq_dec v old) as [->|Hne]; [apply Hhit; reflexivity|].
    rewrite (cmpxchg_miss _ Hne).
    destruct (Z.eqb_spec v old) as [|_]; [contradiction|]. cbn [negb].
    destruct (IH fuel v (trace ++ [CasEvent v old (farith OP old val)])%list Hfuel)
      as (out & earlier & last & Hrun & Htr & Hfail & Hrest).
    exists out, (CasEvent v old (farith OP old val) :: earlier), last.
    split; [exact Hrun|]. split.
    + rewrite Htr, <- app_assoc. reflexivity.
    + split; [|exact Hrest].
      constructor; [|exact Hfail].
      unfold succeeded; cbn. apply Z.eqb_neq. exact Hne.
Qed.

Lemma numba_atomic_binary_spec (OP : string) (val mem : Z) (sched : schedule) :
  exists out earlier last,
    numba_atomic_binary farith (S (List.length sched)) OP val mem sched = Some out
    /\ attempts out = (earlier ++ [last])%list
    /\ Forall (fun e => succeeded e = false) earlier
    /\ succeeded last = true
    /\ ret out = observed last
    /\ desired last = farith OP (ret out) val
    /\ final_mem out = desired last.
Proof.
  unfold numba_atomic_binary.
  destruct (interfere sched mem) as [mem0 sched0] eqn:E.
  assert (List.length sched0 < S (List.length sched))%nat as Hlen.
  { destruct sched as [|[v|] sched']; cbn in E; inversion E; subst; cbn; lia. }
  destruct (binary_attempt_spec OP val sched0 mem0 [] Hlen)
    as (out & earlier & last & H).
  exists out, earlier, last. exact H.
Qed.

(** On two equal numbers every comparison of the catalog is false. *)
Lemma fcmp_pred_refl (pred : string) (x : Z) :
  (forall y, flt y y = false) -> is_nan x = false ->
  fcmp_pred is_nan flt pred x x = false.
Proof.
  intros Hirr Hx. unfold fcmp_pred. rewrite Hx, Hirr. cbn.
  repeat match goal with |- context [String.eqb ?a ?b] => destruct (String.eqb a b) end;
    reflexivity.
Qed.

Lemma fcmp_refl (OP : string) (x : Z) :
  (forall y, flt y y = false) -> is_nan x = false ->
  fcmp is_nan flt nnan_poison OP x x = false.
Proof.
  intros Hirr Hx. unfold fcmp.
  destruct (Py.split OP) as [|p [|p' [|]]]; try reflexivity.
  - apply fcmp_pred_refl; assumption.
  - destruct (String.eqb p "nnan"); [|reflexivity].
    rewrite Hx. cbn. apply fcmp_pred_refl; assumption.
Qed.

Lemma fcmp_uno (a b : Z) :
  fcmp is_nan flt nnan_poison "uno" a b = is_nan a || is_nan b.
Proof. reflexivity. Qed.

(** The loop of the min/max template.  The cell holds what was read last,
    or - after a successful [cmpxchg] - the operand; either way the loop
    ends and the function returns [%ptrval]. *)
Lemma minmax_lt_check_spec (OP : string) (val ptrval : Z) :
  (forall y, flt y y = false) -> is_nan val = false ->
  forall sched fuel dold mem trace,
    mem = dold \/ (mem = val /\ fcmp is_nan flt nnan_poison OP dold val = true) ->
    (List.length sched + 3 <= fuel)%nat ->
    exists out more,
      minmax_lt_check is_nan flt nnan_poison fuel OP val ptrval dold mem sched trace
      = Some out
      /\ ret out = ptrval
      /\ attempts out = (trace ++ more)%list.
Proof.
  intros Hirr Hval.
  assert (forall dold, fcmp is_nan flt nnan_poison OP dold val = true -> val <> dold)
    as Hneq.
  { intros dold Hc <-. rewrite fcmp_refl in Hc by assumption. discriminate. }
  assert (forall fuel mem sched trace,
            exists out more,
              minmax_lt_check is_nan flt nnan_poison (S fuel) OP val ptrval val mem
                sched trace = Some out
              /\ ret out = ptrval /\ attempts out = (trace ++ more)%list) as Hstop.
  { intros. cbn [minmax_lt_check]. rewrite fcmp_refl by assumption.
    eexists; exists []. rewrite app_nil_r. repeat split. }
  induction sched as [|a sched' IH]; intros fuel dold mem trace Hinv Hfuel.
  - destruct fuel as [|[|[|fuel]]]; try (cbn in Hfuel; lia).
    cbn [minmax_lt_check interfere].
    destruct (fcmp is_nan flt nnan_poison OP dold val) eqn:Hc.
    + destruct Hinv as [->|[-> _]].
      * rewrite cmpxchg_hit.
        cbn [minmax_lt_check interfere]. rewrite Hc.
        rewrite (cmpxchg_miss _ (Hneq _ Hc)).
        destruct (Hstop fuel val []
                    ((trace ++ [CasEvent dold dold val])
                       ++ [CasEvent val dold val])%list)
          as (out & more & Hrun & Hret & Htr).
        exists out; eexists. split; [exact Hrun|]. split; [exact Hret|].
        rewrite Htr, <- !app_assoc. reflexivity.
      * rewrite (cmpxchg_miss _ (Hneq _ Hc)).
        destruct (Hstop (S fuel) val [] (trace ++ [CasEvent val dold val])%list)
          as (out & more & Hrun & Hret & Htr).
        exists out; eexists. split; [exact Hrun|]. split; [exact Hret|].
        rewrite Htr, <- !app_assoc. reflexivity.
    + eexists; exists []. rewrite app_nil_r. repeat split.
  - destruct fuel as [|fuel]; [cbn in Hfuel; lia|].
    cbn in Hfuel. apply le_S_n in Hfuel.
    cbn [minmax_lt_check].
    destruct (fcmp is_nan flt nnan_poison OP dold val) eqn:Hc;
      [|eexists; exists []; rewrite app_nil_r; repeat split].
    destruct (interfere (a :: sched') mem) as [mem1 sched1] eqn:Ei.
    assert (sched1 = sched') as -> by (destruct a; cbn in Ei; congruence).
    destruct (Z.eq_dec mem1 dold) as [->|Hne].
    + rewrite cmpxchg_hit.
      destruct (IH fuel dold val (trace ++ [CasEvent dold dold val])%list)
        as (out & more & Hrun & Hret & Htr); [right; auto | exact Hfuel |].
      exists out; eexists. split; [exact Hrun|]. split; [exact Hret|].
      rewrite Htr, <- !app_assoc. reflexivity.
    + rewrite (cmpxchg_miss _ Hne).
      destruct (IH fuel mem1 mem1 (trace ++ [CasEvent mem1 dold val])%list)
        as (out & more & Hrun & Hret & Htr); [left; auto | exact Hfuel |].
      exists out; eexists. split; [exact Hrun|]. split; [exact Hret|].
      rewrite Htr, <- !app_assoc. reflexivity.
Qed.

Lemma interfere_length (sched : schedule) (mem : Z) :
  (List.length (snd (interfere sched mem)) <= List.length sched)%nat.
Proof. destruct sched as [|[v|] sched']; cbn; lia. Qed.

Lemma numba_atomic_minmax_spec (OP PTR_OR_VAL : string) (val mem : Z)
  (sched : schedule) :
  (forall y, flt y y = false) ->
  PTR_OR_VAL = EmptyString \/ PTR_OR_VAL = "ptr" ->
  exists out,
    numba_atomic_minmax is_nan flt nnan_poison (List.length sched + 3)
      OP PTR_OR_VAL val mem sched = Some out
    /\ ret out = fst (interfere sched mem).
Proof.
  intros Hirr HP. unfold numba_atomic_minmax.
  pose proof (interfere_length sched mem) as Hlen.
  destruct (interfere sched mem) as [mem0 sched0]. cbn [fst snd] in *.
  assert (exists reference,
            early_return is_nan flt nnan_poison PTR_OR_VAL val mem0
            = Some (is_nan val || is_nan reference)) as [reference ->]
    by (destruct HP as [->| ->]; eexists; reflexivity).
  destruct (is_nan val || is_nan reference) eqn:Hearly.
  - eexists. split; reflexivity.
  - apply orb_false_iff in Hearly. destruct Hearly as [Hval _].
    destruct (minmax_lt_check_spec OP mem0 Hirr Hval sched0
                (fuel := List.length sched + 3) (dold := mem0) (mem := mem0) [])
      as (out & more & Hrun & Hret & _); [left; reflexivity | lia |].
    exists out. split; assumption.
Qed.

(** The early return of the min/max template: which comparison decides it,
    and that it returns the loaded value without a [cmpxchg]. *)
Lemma early_return_spec (fuel : nat) (OP : string) (val mem : Z) (sched : schedule) :
  let ptrval := fst (interfere sched mem) in
  early_return is_nan flt nnan_poison EmptyString val ptrval = Some (is_nan val)
  /\ early_return is_nan flt nnan_poison "ptr" val ptrval
     = Some (is_nan val || is_nan ptrval)
  /\ forall PTR_OR_VAL,
       early_return is_nan flt nnan_poison PTR_OR_VAL val ptrval = Some true ->
       numba_atomic_minmax is_nan flt nnan_poison fuel OP PTR_OR_VAL val mem sched
       = Some (Outcome ptrval ptrval [] (snd (interfere sched mem))).
Proof.
  cbv zeta. split; [|split].
  - unfold early_return. cbn [entry_register append String.eqb Ascii.eqb].
    cbn. rewrite fcmp_uno, orb_diag. reflexivity.
  - reflexivity.
  - intros P H. unfold numba_atomic_minmax.
    destruct (interfere sched mem) as [mem0 sched0]. cbn [fst snd] in *.
    rewrite H. reflexivity.
Qed.

End AtomicsFacts.

(** C1 (as amended).  In every synthesized min/max function the early
    return compares [%val] with [%val] when the function is NaN-aware
    (nanmin, nanmax) and with the loaded [%ptrval] when it is plain (min,
    max).  So a NaN-aware function returns early exactly when the operand
    is a NaN, a plain one exactly when the operand or the contents of the
    cell is a NaN; and an early return hands back the loaded value without
    any [cmpxchg], leaving the cell as it was read. *)
Theorem early_return_reference :
  Forall early_return_text atomic_catalog
  /\ forall (is_nan : Z -> bool) (flt : Z -> Z -> bool) (nnan_poison : bool)
            (fuel : nat) (OP : string) (val mem : Z) (sched : schedule),
       let ptrval := fst (interfere sched mem) in
       early_return is_nan flt nnan_poison EmptyString val ptrval = Some (is_nan val)
       /\ early_return is_nan flt nnan_poison "ptr" val ptrval
          = Some (is_nan val || is_nan ptrval)
       /\ forall PTR_OR_VAL,
            early_return is_nan flt nnan_poison PTR_OR_VAL val ptrval = Some true ->
            numba_atomic_minmax is_nan flt nnan_poison fuel OP PTR_OR_VAL val mem sched
            = Some (Outcome ptrval ptrval [] (snd (interfere sched mem))).
Proof.
  split; [exact early_return_text_catalog|].
  intros. apply early_return_spec.
Qed.

(** A plain max whose cell holds a NaN (here -1) when it is loaded: the
    call returns at once. *)
Lemma early_return_reference_witness :
  numba_atomic_minmax toy_is_nan toy_flt false 5 "nnan olt" "ptr" 7 3 [Some (-1)%Z]
  = Some (Outcome (-1) (-1) [] []).
Proof.
  exact (proj2 (proj2 (proj2 early_return_reference
                         toy_is_nan toy_flt false 5%nat "nnan olt" 7%Z 3%Z
                         [Some (-1)%Z]))
               "ptr" eq_refl).
Defined.

(** C1 as stated fails: the float nanmax compares [%val] with [%val], not
    with the loaded value, and the float max compares [%val] with
    [%ptrval], not with [%val]. *)
Lemma early_return_reference_swapped :
  (exists fn,
     ir_numba_atomic_minmax "float" "i32" "nan" "ult" EmptyString "max" = Ok fn
     /\ early_return_line fn = Some "    %early_return = fcmp uno float %val, %val"
     /\ early_return_line fn <> Some "    %early_return = fcmp uno float %val, %ptrval")
  /\ (exists fn,
     ir_numba_atomic_minmax "float" "i32" EmptyString "nnan olt" "ptr" "max" = Ok fn
     /\ early_return_line fn = Some "    %early_return = fcmp uno float %val, %ptrval"
     /\ early_return_line fn <> Some "    %early_return = fcmp uno float %val, %val").
Proof.
  split; eexists; (split; [vm_compute; reflexivity|]);
    (split; [vm_compute; reflexivity | vm_compute; discriminate]).
Qed.

(** What the two comparisons mean when the cell holds a NaN and the operand
    is a number: the NaN-aware max goes on and replaces the NaN, the plain
    max returns early. *)
Example nan_in_memory :
  numba_atomic_minmax toy_is_nan toy_flt false 5 "ult" EmptyString 7 (-1) []
  = Some (Outcome (-1) 7 [CasEvent (-1) (-1) 7; CasEvent 7 (-1) 7] [])
  /\ numba_atomic_minmax toy_is_nan toy_flt false 5 "nnan olt" "ptr" 7 (-1) []
     = Some (Outcome (-1) (-1) [] []).
Proof. split; reflexivity. Qed.



(** The same interference seen by both kinds of function: the swap that
    succeeds finds 2 in the cell; the add returns that 2, the max returns
    the 1 it loaded first. *)
Example return_contracts_asymmetry :
  numba_atomic_binary toy_arith 3 "fadd" 5 1 [None; Some 2%Z]
  = Some (Outcome 2 7 [CasEvent 2 1 6; CasEvent 2 2 7] [])
  /\ numba_atomic_minmax toy_is_nan toy_flt false 5 "nnan olt" "ptr" 5 1
       [None; Some 2%Z]
     = Some (Outcome 1 5
               [CasEvent 2 1 5; CasEvent 2 2 5; CasEvent 5 2 5] []).
Proof. split; reflexivity. Qed.

(** ** [llvm150_to_70_ir] is partial *)

Lemma convert_line_cases (line : string) :
  (Py.startswith line "attributes #" = true /\ re_attributes_def line = None
   /\ convert_line line
      = Raise (AttributeError "'NoneType' object has no attribute 'group'"))
  \/ exists out, convert_line line = Ok out.
Proof.
  unfold convert_line.
  destruct (Py.startswith line "attributes #") eqn:Es.
  - destruct (re_attributes_def line) as [g|] eqn:Em.
    + right. eexists. reflexivity.
    + left. auto.
  - right. eexists. reflexivity.
Qed.

Lemma mapM_convert_line_ok (ls : list string) :
  (forall line,
     In line ls -> Py.startswith line "attributes #" = true ->
     re_attributes_def line <> None) ->
  exists buf, mapM convert_line ls = Ok buf.
Proof.
  induction ls as [|l ls IH]; intros H; cbn [mapM].
  - eexists. reflexivity.
  - destruct (convert_line_cases l) as [(Hs & Hm & _)|[out ->]].
    + exfalso. apply (H l); [left; reflexivity | exact Hs | exact Hm].
    + destruct IH as [buf ->].
      * intros line Hin. apply H. right. exact Hin.
      * eexists. reflexivity.
Qed.

Lemma mapM_convert_line_raise (ls : list string) :
  (exists line,
     In line ls /\ Py.startswith line "attributes #" = true
     /\ re_attributes_def line = None) ->
  mapM convert_line ls
  = Raise (AttributeError "'NoneType' object has no attribute 'group'").
Proof.
  induction ls as [|l ls IH]; intros (line & Hin & Hs & Hm); [destruct Hin|].
  cbn [mapM].
  destruct (convert_line_cases l) as [(_ & _ & ->)|[out Hout]]; [reflexivity|].
  rewrite Hout. cbn [bind].
  destruct Hin as [->|Hin].
  - unfold convert_line in Hout. rewrite Hs, Hm in Hout. discriminate.
  - rewrite IH; [reflexivity|]. exists line. auto.
Qed.

Lemma re_group_class (s g : string) :
  re_group s = Some g ->
  g <> EmptyString /\ all_chars (fun c => is_word c || Py.isspace c) g = true.
Proof.
  revert g. induction s as [|c s IH]; intros g H; cbn [re_group] in H; [discriminate|].
  destruct (is_word c || Py.isspace c) eqn:Ec; [|discriminate].
  destruct (re_group s) as [g'|].
  - inversion H; subst. split; [discriminate|].
    cbn. rewrite Ec. apply (IH g' eq_refl).
  - destruct (Py.startswith s " }"); [|discriminate].
    inversion H; subst. split; [discriminate|]. cbn. rewrite Ec. reflexivity.
Qed.

(** C9.  [llvm150_to_70_ir] raises (the [AttributeError] of [m.group] on a
    failed match) on every text with a line that starts with
    [attributes #] and does not match [re_attributes_def]; it returns a
    text when every such line matches, and a line can match only with a
    non-empty body of word characters and whitespace. *)
Theorem attribute_lines_must_match (ir : string) :
  ((exists line,
      In line (Py.splitlines ir) /\ Py.startswith line "attributes #" = true
      /\ re_attributes_def line = None) ->
   llvm150_to_70_ir ir
   = Raise (AttributeError "'NoneType' object has no attribute 'group'"))
  /\ ((forall line,
         In line (Py.splitlines ir) -> Py.startswith line "attributes #" = true ->
         re_attributes_def line <> None) ->
      exists out, llvm150_to_70_ir ir = Ok out)
  /\ (forall line body,
        re_attributes_def line = Some body ->
        body <> EmptyString
        /\ all_chars (fun c => is_word c || Py.isspace c) body = true).
Proof.
  unfold llvm150_to_70_ir. split; [|split].
  - intros H. rewrite (mapM_convert_line_raise _ H). reflexivity.
  - intros H. destruct (mapM_convert_line_ok _ H) as [buf ->].
    eexists. reflexivity.
  - intros line body H. unfold re_attributes_def in H.
    destruct (strip_prefix "attributes #" line) as [s1|]; [|discriminate].
    destruct (re_digits s1) as [s2|]; [|discriminate].
    destruct (strip_prefix " = { " s2) as [s3|]; [|discriminate].
    apply (re_group_class _ H).
Qed.

(** An attribute group with a quoted string attribute, as the IR printer
    writes for [no-trapping-math]. *)
Lemma attribute_lines_must_match_witness :
  llvm150_to_70_ir
    ("define void @f() #0 {" ++ LF ++ "  ret void" ++ LF ++ "}" ++ LF
     ++ Py.q "attributes #0 = { nounwind 'no-trapping-math'='true' }" ++ LF)
  = Raise (AttributeError "'NoneType' object has no attribute 'group'").
Proof.
  apply (proj1 (attribute_lines_must_match _)).
  exists (Py.q "attributes #0 = { nounwind 'no-trapping-math'='true' }").
  split; [|split]; vm_compute; auto 10.
Defined.

Example attribute_lines_examples :
  llvm150_to_70_ir "attributes #0 = { nounwind willreturn }"
  = Ok "attributes #0 = { nounwind }"
  /\ llvm150_to_70_ir "attributes #0 = { }"
     = Raise (AttributeError "'NoneType' object has no attribute 'group'")
  /\ llvm150_to_70_ir "attributes #0 = { willreturn }" = Ok "attributes #0 = {  }"
  /\ llvm150_to_70_ir "attributes #0 = {  }"
     = Raise (AttributeError "'NoneType' object has no attribute 'group'").
Proof. repeat split. Qed.

(** ** Facts about [str.replace] *)

Lemma append_assoc (a b c : string) : (a ++ b) ++ c = a ++ (b ++ c).
Proof. induction a as [|x a IH]; cbn; [reflexivity | rewrite IH; reflexivity]. Qed.

Lemma append_nil_r (a : string) : a ++ EmptyString = a.
Proof. induction a as [|x a IH]; cbn; [reflexivity | rewrite IH; reflexivity]. Qed.

Lemma is_lf_eqb (c : ascii) : Ascii.eqb c lf = Py.is_lf c.
Proof. destruct c as [[] [] [] [] [] [] [] []]; reflexivity. Qed.

Lemma is_lf_eq (c : ascii) : Py.is_lf c = true -> c = lf.
Proof. rewrite <- is_lf_eqb. apply Ascii.eqb_eq. Qed.

Lemma startswith_nil (s : string) : Py.startswith s EmptyString = true.
Proof. destruct s; reflexivity. Qed.

Lemma contains_cons (c : ascii) (s pat : string) :
  Py.contains (String c s) pat = Py.startswith (String c s) pat || Py.contains s pat.
Proof. reflexivity. Qed.

Lemma contains_nil (pat : string) :
  Py.contains EmptyString pat = Py.startswith EmptyString pat.
Proof. cbn. apply orb_false_r. Qed.

Lemma contains_drop (pat : string) (k : nat) :
  forall s, Py.contains s pat = false -> Py.contains (drop k s) pat = false.
Proof.
  induction k as [|k IH]; intros s H; [destruct s; exact H|].
  destruct s as [|c s]; [exact H|].
  cbn [drop]. apply IH. rewrite contains_cons in H.
  apply orb_false_iff in H. apply H.
Qed.

(** A pattern without a line feed that starts in [a] cannot run past a line
    feed that follows [a]. *)
Lemma startswith_app_lf (pat : string) :
  lf_free pat = true ->
  forall a b, Py.startswith (a ++ String lf b) pat = Py.startswith a pat.
Proof.
  induction pat as [|p pat IH]; intros Hfree a b.
  - rewrite !startswith_nil. reflexivity.
  - cbn in Hfree. apply andb_true_iff in Hfree. destruct Hfree as [Hp Hfree].
    destruct a as [|c a]; cbn [append Py.startswith].
    + rewrite is_lf_eqb. apply negb_true_iff in Hp. rewrite Hp. reflexivity.
    + rewrite (IH Hfree). reflexivity.
Qed.

Lemma contains_app_lf (pat : string) :
  lf_free pat = true ->
  forall a b,
    Py.contains (a ++ String lf b) pat = Py.contains a pat || Py.contains b pat.
Proof.
  intros Hfree a b. induction a as [|c a IH].
  - cbn [append]. rewrite contains_cons, contains_nil.
    change (String lf b) with (EmptyString ++ String lf b).
    rewrite (startswith_app_lf _ Hfree). reflexivity.
  - cbn [append]. rewrite !contains_cons, IH.
    change (String c (a ++ String lf b)) with (String c a ++ String lf b).
    rewrite (startswith_app_lf _ Hfree). apply orb_assoc.
Qed.

Lemma lf_bounded_shape (s : string) :
  lf_bounded s = true -> exists m, s = String lf (m ++ String lf EmptyString).
Proof.
  destruct s as [|c s]; [discriminate|]. cbn [lf_bounded].
  intros H. apply andb_true_iff in H. destruct H as [Hc He].
  apply is_lf_eq in Hc. subst c.
  assert (exists m, s = m ++ String lf EmptyString) as [m ->]; [|eexists; reflexivity].
  clear -He. induction s as [|c s IH]; [discriminate|].
  destruct s as [|c' s'].
  - cbn in He. apply is_lf_eq in He. subst. exists EmptyString. reflexivity.
  - destruct IH as [m Hm]; [exact He|]. rewrite Hm. exists (String c m). reflexivity.
Qed.

Section ReplaceFacts.

Variables old new : string.
Hypothesis old_nonempty : old <> EmptyString.

(** Nothing to replace, nothing changes. *)
Lemma replace_from_absent (s : string) :
  Py.contains s old = false -> Py.replace_from old new 0 s = s.
Proof.
  induction s as [|c s IH]; intros H; [reflexivity|].
  rewrite contains_cons in H. apply orb_false_iff in H. destruct H as [Hs Hc].
  cbn [Py.replace_from]. rewrite Hs, (IH Hc). reflexivity.
Qed.

Lemma replace_absent (s : string) :
  Py.contains s old = false -> Py.replace s old new = s.
Proof.
  intros H.
  assert (Py.replace s old new = Py.replace_from old new 0 s) as ->
    by (unfold Py.replace; destruct old; [contradiction | reflexivity]).
  apply replace_from_absent, H.
Qed.

Hypothesis new_bounded : lf_bounded new = true.

(** A pattern without a line feed that starts the result started the
    text. *)
Lemma startswith_replace_from (pat : string) :
  lf_free pat = true ->
  forall s,
    Py.startswith (Py.replace_from old new 0 s) pat = true ->
    Py.startswith s pat = true.
Proof.
  destruct (lf_bounded_shape _ new_bounded) as [m Hnew].
  induction pat as [|p pat IH]; intros Hfree s H; [apply startswith_nil|].
  cbn in Hfree. apply andb_true_iff in Hfree. destruct Hfree as [Hp Hfree].
  destruct s as [|c s]; [exact H|].
  cbn [Py.replace_from] in H.
  destruct (Py.startswith (String c s) old).
  - rewrite Hnew in H. cbn [append Py.startswith] in H.
    rewrite is_lf_eqb in H. apply negb_true_iff in Hp. rewrite Hp in H. discriminate.
  - cbn [Py.startswith] in H |- *.
    apply andb_true_iff in H. destruct H as [Hc H].
    rewrite Hc. cbn [andb]. apply (IH Hfree), H.
Qed.

(** A pattern that occurs neither in the text nor in [new] does not occur
    in the result. *)
Lemma contains_replace_from (pat : string) :
  lf_free pat = true ->
  Py.contains new pat = false ->
  forall s skip,
    Py.contains (drop skip s) pat = false ->
    Py.contains (Py.replace_from old new skip s) pat = false.
Proof.
  intros Hfree Hnew.
  destruct (lf_bounded_shape _ new_bounded) as [m Hm].
  induction s as [|c s IH]; intros skip H.
  - destruct skip; exact H.
  - destruct skip as [|k]; cbn [Py.replace_from].
    + cbn [drop] in H. rewrite contains_cons in H.
      apply orb_false_iff in H. destruct H as [Hs Hc].
      destruct (Py.startswith (String c s) old) eqn:Eo.
      * set (R := Py.replace_from old new (String.length old - 1) s).
        rewrite Hm. cbn [append]. rewrite append_assoc. cbn [append].
        change (String lf (m ++ String lf R))
          with (EmptyString ++ String lf (m ++ String lf R)).
        rewrite !(contains_app_lf _ Hfree).
        rewrite Hm in Hnew.
        change (String lf (m ++ String lf EmptyString))
          with (EmptyString ++ String lf (m ++ String lf EmptyString)) in Hnew.
        rewrite !(contains_app_lf _ Hfree) in Hnew.
        apply orb_false_iff in Hnew. destruct Hnew as [He Hnew].
        apply orb_false_iff in Hnew. destruct Hnew as [Hmm _].
        rewrite He, Hmm. cbn [orb].
        subst R. apply IH, contains_drop, Hc.
      * rewrite contains_cons. apply orb_false_iff. split.
        -- destruct (Py.startswith
                       (String c (Py.replace_from old new 0 s)) pat) eqn:E;
             [|reflexivity].
           rewrite <- Hs. symmetry.
           apply (startswith_replace_from _ Hfree).
           cbn [Py.replace_from]. rewrite Eo. exact E.
        -- apply IH. exact Hc.
    + cbn [drop] in H. apply IH, H.
Qed.

Hypothesis old_free : lf_free old = true.
Hypothesis new_clean : Py.contains new old = false.

(** After the replacement the text has no occurrence of [old]. *)
Lemma replace_from_consumes (s : string) :
  forall skip, Py.contains (Py.replace_from old new skip s) old = false.
Proof.
  destruct (lf_bounded_shape _ new_bounded) as [m Hm].
  assert (Py.startswith EmptyString old = false) as He
    by (destruct old; [contradiction | reflexivity]).
  induction s as [|c s IH]; intros skip.
  - destruct skip; cbn [Py.replace_from]; rewrite contains_nil; exact He.
  - destruct skip as [|k]; cbn [Py.replace_from]; [|apply IH].
    destruct (Py.startswith (String c s) old) eqn:Eo.
    + set (R := Py.replace_from old new (String.length old - 1) s).
      rewrite Hm. cbn [append]. rewrite append_assoc. cbn [append].
      change (String lf (m ++ String lf R))
        with (EmptyString ++ String lf (m ++ String lf R)).
      rewrite !(contains_app_lf _ old_free).
      pose proof new_clean as Hnew. rewrite Hm in Hnew.
      change (String lf (m ++ String lf EmptyString))
        with (EmptyString ++ String lf (m ++ String lf EmptyString)) in Hnew.
      rewrite !(contains_app_lf _ old_free) in Hnew.
      apply orb_false_iff in Hnew. destruct Hnew as [He' Hnew].
      apply orb_false_iff in Hnew. destruct Hnew as [Hmm _].
      rewrite He', Hmm. cbn [orb]. subst R. apply IH.
    + rewrite contains_cons. apply orb_false_iff. split; [|apply IH].
      destruct (Py.startswith (String c (Py.replace_from old new 0 s)) old) eqn:E;
        [|reflexivity].
      rewrite <- Eo. symmetry.
      apply (startswith_replace_from _ old_free).
      cbn [Py.replace_from]. rewrite Eo. exact E.
Qed.

End ReplaceFacts.

(** ** Applying a table of replacements twice *)

Lemma replace_all_app (l1 l2 : list (string * string)) (s : string) :
  replace_all (l1 ++ l2)%list s = replace_all l2 (replace_all l1 s).
Proof. unfold replace_all. apply fold_left_app. Qed.

Lemma replace_all_absent (l : list (string * string)) :
  forall s,
    (forall e, In e l -> fst e <> EmptyString /\ Py.contains s (fst e) = false) ->
    replace_all l s = s.
Proof.
  induction l as [|e l IH]; intros s H; [reflexivity|].
  unfold replace_all; cbn [fold_left]. fold (replace_all l).
  destruct (H e (or_introl eq_refl)) as [Hne Habs].
  rewrite (replace_absent (snd e) Hne _ Habs).
  apply IH. intros e' Hin. apply H. right. exact Hin.
Qed.

Section Table.

Variable tbl : list (string * string).
Hypothesis tbl_ok : table_ok tbl = true.

Lemma table_entry (e : string * string) :
  In e tbl ->
  fst e <> EmptyString /\ lf_free (fst e) = true /\ lf_bounded (snd e) = true
  /\ forall d, In d tbl -> Py.contains (snd e) (fst d) = false.
Proof.
  intros Hin. unfold table_ok in tbl_ok.
  rewrite forallb_forall in tbl_ok. specialize (tbl_ok e Hin).
  rewrite !andb_true_iff in tbl_ok.
  destruct tbl_ok as [[[Hne Hfree] Hb] Hc].
  split; [|split; [|split]]; try assumption.
  - apply negb_true_iff, String.eqb_neq in Hne. exact Hne.
  - intros d Hd. rewrite forallb_forall in Hc.
    apply negb_true_iff. apply Hc, Hd.
Qed.

(** The patterns already replaced stay away while the rest of the table is
    applied, and each entry removes its own pattern. *)
Lemma replace_all_consumes (l : list (string * string)) :
  forall done s,
    incl l tbl -> incl done tbl ->
    (forall d, In d done -> Py.contains s (fst d) = false) ->
    forall d, In d (done ++ l)%list -> Py.contains (replace_all l s) (fst d) = false.
Proof.
  induction l as [|e l IH]; intros done s Hl Hdone Habs d Hd.
  - rewrite app_nil_r in Hd. apply Habs, Hd.
  - unfold replace_all; cbn [fold_left]. fold (replace_all l).
    assert (In e tbl) as He by (apply Hl; left; reflexivity).
    destruct (table_entry e He) as (Hne & Hfree & Hb & Hclean).
    assert (Py.replace s (fst e) (snd e) = Py.replace_from (fst e) (snd e) 0 s) as Hr
      by (unfold Py.replace; destruct (fst e); [contradiction | reflexivity]).
    apply (IH (done ++ [e])%list).
    + intros x Hx. apply Hl. right. exact Hx.
    + intros x Hx. apply in_app_or in Hx. destruct Hx as [Hx|[<-|[]]]; auto.
    + intros x Hx. rewrite Hr. apply in_app_or in Hx.
      destruct Hx as [Hx|[<-|[]]].
      * destruct (table_entry x (Hdone x Hx)) as (_ & Hxfree & _ & _).
        apply contains_replace_from; try assumption.
        -- apply Hclean, Hdone, Hx.
        -- cbn [drop]. apply Habs, Hx.
      * apply replace_from_consumes; try assumption.
        apply Hclean, He.
    + rewrite <- app_assoc. exact Hd.
Qed.

(** A safe table applied twice does what it does applied once. *)
Lemma replace_all_idempotent (s : string) :
  (forall d, In d tbl -> Py.contains (replace_all tbl s) (fst d) = false)
  /\ replace_all tbl (replace_all tbl s) = replace_all tbl s.
Proof.
  assert (forall d, In d tbl -> Py.contains (replace_all tbl s) (fst d) = false) as H.
  { intros d Hd.
    apply (replace_all_consumes (l := tbl) (done := []));
      auto using incl_refl, incl_nil_l.
    intros x []. }
  split; [exact H|].
  apply replace_all_absent. intros e He.
  split; [apply (table_entry e He) | apply H, He].
Qed.

End Table.

(** The atomic entries of [replacements] are built without an exception
    and make a safe table with the patterns of the catalog. *)
Lemma atomic_replacements_ok :
  exists tbl,
    atomic_replacements = Ok tbl
    /\ table_ok tbl = true
    /\ map fst tbl = map fst atomic_catalog.
Proof.
  eexists. split; [vm_compute; reflexivity|].
  split; vm_compute; reflexivity.
Qed.

(** C3 (as amended).  The substitution of the declarations by the
    synthesized definitions - the loop of [llvm_replace] over the atomic
    entries - is idempotent on every text: it returns, its result contains
    none of the declaration patterns, and applied to its result it returns
    it unchanged. *)
Theorem atomic_substitution_idempotent (llvmir : string) :
  exists once,
    atomic_substitution llvmir = Ok once
    /\ (forall e, In e atomic_catalog -> Py.contains once (fst e) = false)
    /\ atomic_substitution once = Ok once
    /\ twice atomic_substitution llvmir = atomic_substitution llvmir.
Proof.
  destruct atomic_replacements_ok as (tbl & Htbl & Hok & Hpat).
  destruct (replace_all_idempotent _ Hok llvmir) as [Habs Hidem].
  exists (replace_all tbl llvmir).
  unfold twice, atomic_substitution. rewrite Htbl. cbn [bind].
  rewrite Hidem. repeat split.
  intros e He.
  assert (In (fst e) (map fst tbl)) as Hin by (rewrite Hpat; apply in_map, He).
  apply in_map_iff in Hin. destruct Hin as (d & Hd & Hdin).
  rewrite <- Hd. apply Habs, Hdin.
Qed.

(** C3 as stated fails on a module whose last line is one of the
    declarations: the definition that replaces it ends in a line feed, and
    each pass of [llvm_replace] drops one line break from the end. *)
Lemma llvm_replace_not_idempotent :
  let llvmir :=
    Py.q "declare double @'___numba_atomic_double_add'(double* %'.1', double %'.2')"
    ++ LF in
  exists once again,
    llvm_replace llvmir = Ok once
    /\ twice llvm_replace llvmir = Ok again
    /\ once = again ++ LF
    /\ once <> again.
Proof.
  cbv zeta. eexists; eexists.
  split; [vm_compute; reflexivity|].
  split; [vm_compute; reflexivity|].
  split; [vm_compute; reflexivity|].
  vm_compute. discriminate.
Qed.

(** Other texts on which a second pass of [llvm_replace] differs from the
    first: [immarg] that the deletion itself puts together, blank lines at
    the end, and an attribute group left empty. *)
Example llvm_replace_second_pass :
  (llvm_replace "immimmargarg" = Ok "immarg"
   /\ twice llvm_replace "immimmargarg" = Ok EmptyString)
  /\ (llvm_replace (LF ++ LF) = Ok LF
      /\ twice llvm_replace (LF ++ LF) = Ok EmptyString)
  /\ (llvm_replace "attributes #0 = { willreturn }" = Ok "attributes #0 = {  }"
      /\ twice llvm_replace "attributes #0 = { willreturn }"
         = Raise (AttributeError "'NoneType' object has no attribute 'group'")).
Proof. repeat split; vm_compute; reflexivity. Qed.

(** ** The deletion of [immarg] *)

(** While the scan skips a match of [immarg] no other match can begin:
    replacing the matches found from the left deletes every character that
    lies in any occurrence. *)
Lemma replace_from_immarg (s : string) :
  forall k,
    (k <= 5)%nat ->
    Py.startswith s (drop (6 - k) "immarg") = true ->
    Py.replace_from "immarg" EmptyString k s = delete_covered "immarg" k s.
Proof.
  induction s as [|c s IH]; intros k Hk Hs; [reflexivity|].
  destruct k as [|k].
  - cbn [Py.replace_from delete_covered].
    destruct (Py.startswith (String c s) "immarg") eqn:E.
    + cbn [String.length Nat.sub append].
      apply IH; [lia|].
      cbn [Py.startswith] in E. apply andb_true_iff in E. apply E.
    + f_equal. apply IH; [lia | apply startswith_nil].
  - cbn [Py.replace_from delete_covered].
    assert (Py.startswith (String c s) "immarg" = false
            /\ Py.startswith s (drop (6 - k) "immarg") = true) as [E Hs'].
    { destruct k as [|[|[|[|[|k]]]]]; try lia;
        cbn [Nat.sub drop Py.startswith] in Hs |- *;
        apply andb_true_iff in Hs; destruct Hs as [Hc Hs];
        apply Ascii.eqb_eq in Hc; subst c; split; try reflexivity; exact Hs. }
    rewrite E. apply IH; [lia | exact Hs'].
Qed.

Lemma replace_immarg (s : string) :
  Py.replace s "immarg" EmptyString = delete_occurrences "immarg" s.
Proof.
  unfold Py.replace, delete_occurrences. cbn iota.
  apply replace_from_immarg; [lia | apply startswith_nil].
Qed.

Lemma llvm_replace_unfold (llvmir : string) :
  llvm_replace llvmir
  = (subst <- atomic_substitution llvmir ;;
     llvm150_to_70_ir (Py.replace subst "immarg" EmptyString)).
Proof.
  unfold llvm_replace, replacements, atomic_substitution.
  destruct atomic_replacements as [tbl|e]; [|reflexivity].
  cbn [bind]. rewrite replace_all_app. reflexivity.
Qed.

(** C10.  [llvm_replace] deletes [immarg] by a replacement over the whole
    text: what goes on to [llvm150_to_70_ir] is the text, after the
    substitution of the atomic declarations, without every character that
    lies in an occurrence of [immarg], in whatever line and whatever word the
    occurrence is; a text with none of the atomic declarations is that text
    itself. *)
Theorem immarg_deleted_everywhere (llvmir : string) :
  llvm_replace llvmir
  = (subst <- atomic_substitution llvmir ;;
     llvm150_to_70_ir (delete_occurrences "immarg" subst))
  /\ ((forall e, In e atomic_catalog -> Py.contains llvmir (fst e) = false) ->
      llvm_replace llvmir
      = llvm150_to_70_ir (delete_occurrences "immarg" llvmir)).
Proof.
  assert (llvm_replace llvmir
          = (subst <- atomic_substitution llvmir ;;
             llvm150_to_70_ir (delete_occurrences "immarg" subst))) as E.
  { rewrite llvm_replace_unfold.
    destruct (atomic_substitution llvmir); cbn [bind]; [|reflexivity].
    rewrite replace_immarg. reflexivity. }
  split; [exact E|].
  intros Habs. rewrite E.
  destruct atomic_replacements_ok as (tbl & Htbl & Hok & Hpat).
  unfold atomic_substitution. rewrite Htbl. cbn [bind].
  rewrite replace_all_absent; [reflexivity|].
  intros d Hd. split; [apply (table_entry _ Hok d Hd)|].
  assert (In (fst d) (map fst atomic_catalog)) as Hin
    by (rewrite <- Hpat; apply in_map, Hd).
  apply in_map_iff in Hin. destruct Hin as (e & He & Hein).
  rewrite <- He. apply Habs, Hein.
Qed.

(** A function whose name contains [immarg]: the definition and the call
    lose it. *)
Lemma immarg_deleted_everywhere_witness :
  llvm_replace
    (Py.q "define void @'set_immarg_flag'(i1 immarg %'.1') {" ++ LF
     ++ "  ret void" ++ LF ++ "}")
  = Ok (Py.q "define void @'set__flag'(i1  %'.1') {" ++ LF
        ++ "  ret void" ++ LF ++ "}").
Proof.
  rewrite (proj2 (immarg_deleted_everywhere _)).
  - vm_compute. reflexivity.
  - intros e He. vm_compute in He.
    repeat (destruct He as [<-|He]; [vm_compute; reflexivity|]).
    destruct He.
Defined.

(** ** Attribute stripping *)

Lemma startswith_app (p x : string) : Py.startswith (p ++ x) p = true.
Proof.
  induction p as [|a p IH]; [apply startswith_nil|].
  cbn. rewrite Ascii.eqb_refl. exact IH.
Qed.

Lemma strip_prefix_app (p x : string) : strip_prefix p (p ++ x) = Some x.
Proof.
  induction p as [|a p IH]; [reflexivity|].
  cbn. rewrite Ascii.eqb_refl. exact IH.
Qed.

Lemma drop_app_length (p x : string) : drop (String.length p) (p ++ x) = x.
Proof. induction p as [|a p IH]; [destruct x; reflexivity | exact IH]. Qed.

Lemma startswith_split (p : string) :
  forall s, Py.startswith s p = true -> s = p ++ drop (String.length p) s.
Proof.
  induction p as [|a p IH]; intros s H; [destruct s; reflexivity|].
  destruct s as [|b s]; [discriminate|].
  cbn in H. apply andb_true_iff in H. destruct H as [Hab H].
  apply Ascii.eqb_eq in Hab. subst b. cbn. f_equal. apply IH, H.
Qed.

(** Skipping [k] characters is starting [k] characters later. *)
Lemma replace_from_skip (old new : string) (k : nat) :
  forall s, Py.replace_from old new k s = Py.replace_from old new 0 (drop k s).
Proof.
  induction k as [|k IH]; intros s; [destruct s; reflexivity|].
  destruct s as [|c s]; [reflexivity|]. cbn [Py.replace_from drop]. apply IH.
Qed.

(** At an occurrence of [old] the replacement follows and the scan goes on
    behind the occurrence. *)
Lemma replace_from_hit (old new v : string) :
  old <> EmptyString ->
  Py.replace_from old new 0 (old ++ v) = new ++ Py.replace_from old new 0 v.
Proof.
  intros Hne. destruct old as [|a old']; [contradiction|].
  cbn [append Py.replace_from].
  change (String a (old' ++ v)) with (String a old' ++ v).
  rewrite startswith_app. rewrite replace_from_skip.
  cbn [String.length Nat.sub]. rewrite Nat.sub_0_r, drop_app_length. reflexivity.
Qed.

(** Replacing a text by itself changes nothing. *)
Lemma replace_from_same (old : string) :
  old <> EmptyString ->
  forall s k, Py.replace_from old old k s = drop k s.
Proof.
  intros Hne.
  induction s as [|c s IH]; intros k; [destruct k; reflexivity|].
  destruct k as [|k]; cbn [Py.replace_from drop]; [|apply IH].
  destruct (Py.startswith (String c s) old) eqn:E.
  - rewrite IH. destruct old as [|a old']; [contradiction|].
    apply startswith_split in E. cbn [String.length Nat.sub append] in E |- *.
    rewrite Nat.sub_0_r. injection E as Hc Hs. subst c.
    f_equal. symmetry. exact Hs.
  - rewrite IH. destruct s; reflexivity.
Qed.

Lemma replace_same (s old : string) :
  old <> EmptyString -> Py.replace s old old = s.
Proof.
  intros Hne. unfold Py.replace. destruct old; [contradiction|].
  rewrite replace_from_same by exact Hne. destruct s; reflexivity.
Qed.

Lemma startswith_chars (g : string) (x : ascii) :
  forall u, Py.startswith u g = true -> char_in x g = true -> char_in x u = true.
Proof.
  induction g as [|y g IH]; intros u H Hx; [discriminate|].
  destruct u as [|a u]; [discriminate|].
  cbn in H. apply andb_true_iff in H. destruct H as [Hya H].
  apply Ascii.eqb_eq in Hya. subst a.
  cbn in Hx |- *. destruct (Ascii.eqb y x); [reflexivity|].
  cbn in Hx |- *. apply (IH u H Hx).
Qed.

Lemma startswith_app_char (g : string) (c : ascii) (rest : string) :
  forall u,
    Py.startswith (u ++ String c rest) g = true ->
    Py.startswith u g = true \/ char_in c g = true.
Proof.
  induction g as [|y g IH]; intros u H; [left; apply startswith_nil|].
  destruct u as [|a u]; cbn [append Py.startswith] in H |- *;
    apply andb_true_iff in H; destruct H as [Hy H].
  - right. cbn. rewrite Hy. reflexivity.
  - rewrite Hy. cbn [andb]. destruct (IH u H) as [Hu|Hc]; [left; exact Hu|].
    right. cbn. rewrite Hc. apply orb_true_r.
Qed.

(** The scan passes a stretch [u] and the character after it when the
    pattern has a character that [u] lacks and lacks the one after [u]. *)
Lemma replace_from_pass (g new : string) (x c : ascii) (rest : string) :
  char_in x g = true -> char_in c g = false ->
  forall u,
    char_in x u = false ->
    Py.replace_from g new 0 (u ++ String c rest)
    = u ++ String c (Py.replace_from g new 0 rest).
Proof.
  intros Hx Hc.
  assert (forall u, char_in x u = false ->
                    Py.startswith (u ++ String c rest) g = false) as Hno.
  { intros u Hu. destruct (Py.startswith (u ++ String c rest) g) eqn:E; [|reflexivity].
    destruct (startswith_app_char _ _ _ _ E) as [H|H].
    - rewrite (startswith_chars _ _ _ H Hx) in Hu. discriminate.
    - rewrite H in Hc. discriminate. }
  induction u as [|a u IH]; intros Hu.
  - cbn [append Py.replace_from].
    change (String c rest) with (EmptyString ++ String c rest) at 1.
    rewrite (Hno EmptyString Hu). reflexivity.
  - cbn [append Py.replace_from].
    change (String a (u ++ String c rest)) with (String a u ++ String c rest).
    rewrite (Hno _ Hu). f_equal. apply IH.
    cbn in Hu. apply orb_false_iff in Hu. apply Hu.
Qed.

Lemma word_char (c : ascii) :
  is_word c = true ->
  Py.isspace c = false /\ Ascii.eqb c " " = false /\ Ascii.eqb c "}" = false.
Proof.
  destruct c as [[] [] [] [] [] [] [] []]; cbn; intros H;
    try discriminate H; repeat split.
Qed.

Lemma all_chars_app (p : ascii -> bool) (a b : string) :
  all_chars p (a ++ b) = all_chars p a && all_chars p b.
Proof.
  induction a as [|x a IH]; [reflexivity|].
  cbn. rewrite IH. apply andb_assoc.
Qed.

Lemma all_chars_weaken (p p' : ascii -> bool) (s : string) :
  (forall c, p c = true -> p' c = true) ->
  all_chars p s = true -> all_chars p' s = true.
Proof.
  intros Hp. induction s as [|x s IH]; [reflexivity|].
  cbn. rewrite !andb_true_iff. intros [Hx Hs]. split; [apply Hp, Hx | apply IH, Hs].
Qed.

Lemma all_chars_char_in (p : ascii -> bool) (x : ascii) (s : string) :
  all_chars p s = true -> p x = false -> char_in x s = false.
Proof.
  intros Hs Hx. induction s as [|y s IH]; [reflexivity|].
  cbn in Hs |- *. apply andb_true_iff in Hs. destruct Hs as [Hy Hs].
  destruct (Ascii.eqb_spec y x) as [->|_]; [congruence|]. cbn. apply IH, Hs.
Qed.

Lemma char_in_app (x : ascii) (a b : string) :
  char_in x (a ++ b) = char_in x a || char_in x b.
Proof.
  induction a as [|y a IH]; [reflexivity|].
  cbn. rewrite IH. apply orb_assoc.
Qed.

Lemma attr_token_inv (t : string) :
  is_attr_token t = true ->
  exists w t', t = String w t' /\ is_word w = true /\ all_chars is_word t' = true.
Proof.
  unfold is_attr_token. destruct t as [|w t']; [discriminate|].
  cbn. rewrite andb_true_iff. intros [Hw Ht]. exists w, t'. auto.
Qed.

Lemma join_cons (sep t : string) (ts : list string) :
  Py.join sep (t :: ts)
  = match ts with [] => t | _ :: _ => t ++ sep ++ Py.join sep ts end.
Proof. destruct ts; reflexivity. Qed.

(** The body of an attribute group: word characters and single spaces,
    beginning with a word character. *)
Lemma join_tokens (ts : list string) :
  ts <> [] -> forallb is_attr_token ts = true ->
  all_chars in_class (Py.join " " ts) = true
  /\ exists w g', Py.join " " ts = String w g' /\ is_word w = true.
Proof.
  intros Hne Hts. destruct ts as [|t ts]; [contradiction|]. clear Hne.
  revert t Hts. induction ts as [|t2 ts IH]; intros t Hts.
  - cbn in Hts |- *. rewrite andb_true_r in Hts.
    destruct (attr_token_inv _ Hts) as (w & t' & -> & Hw & Ht').
    split; [|exists w, t'; auto].
    cbn. unfold in_class at 1. rewrite Hw. cbn.
    apply (all_chars_weaken is_word); [|exact Ht'].
    intros c Hc. unfold in_class. rewrite Hc. reflexivity.
  - cbn [forallb] in Hts. apply andb_true_iff in Hts. destruct Hts as [Ht Hts].
    destruct (IH t2 Hts) as [Hall _].
    destruct (attr_token_inv _ Ht) as (w & t' & -> & Hw & Ht').
    rewrite join_cons. split.
    + rewrite !all_chars_app. rewrite Hall.
      cbn. unfold in_class at 1. rewrite Hw. cbn.
      rewrite (all_chars_weaken is_word in_class t'); [reflexivity | | exact Ht'].
      intros c Hc. unfold in_class. rewrite Hc. reflexivity.
    + eexists w, _. split; [reflexivity | exact Hw].
Qed.

(** [split] takes a token off the front of a text in which a space or
    nothing follows the token. *)
Lemma split_token (t : string) :
  t <> EmptyString -> all_chars is_word t = true ->
  forall rest,
    rest = EmptyString \/ (exists r, rest = String " " r) ->
    Py.split (t ++ rest) = t :: Py.split rest.
Proof.
  induction t as [|c t IH]; intros Hne Ht rest Hrest; [contradiction|].
  cbn in Ht. apply andb_true_iff in Ht. destruct Ht as [Hc Ht].
  destruct (word_char _ Hc) as (Hsp & _ & _).
  cbn [append Py.split]. rewrite Hsp.
  destruct t as [|c' t'].
  - cbn [append]. destruct Hrest as [->|[r ->]]; reflexivity.
  - cbn [append].
    assert (Py.isspace c' = false) as Hsp'.
    { cbn in Ht. apply andb_true_iff in Ht. apply (word_char _ (proj1 Ht)). }
    rewrite Hsp'.
    change (String c' (t' ++ rest)) with (String c' t' ++ rest).
    rewrite IH; [reflexivity | discriminate | exact Ht | exact Hrest].
Qed.

Lemma split_join (ts : list string) :
  forallb is_attr_token ts = true -> Py.split (Py.join " " ts) = ts.
Proof.
  induction ts as [|t ts IH]; intros Hts; [reflexivity|].
  cbn [forallb] in Hts. apply andb_true_iff in Hts. destruct Hts as [Ht Hts].
  destruct (attr_token_inv _ Ht) as (w & t' & Et & Hw & Ht').
  assert (t <> EmptyString) as Hne by (rewrite Et; discriminate).
  assert (all_chars is_word t = true) as Hall
    by (rewrite Et; cbn; rewrite Hw, Ht'; reflexivity).
  rewrite join_cons. destruct ts as [|t2 ts].
  - rewrite <- (append_nil_r t) at 1.
    rewrite (split_token Hne Hall); [reflexivity | left; reflexivity].
  - rewrite (split_token Hne Hall); [|right; eexists; reflexivity].
    cbn [append]. change (Py.split (String " " (Py.join " " (t2 :: ts))))
      with (Py.split (Py.join " " (t2 :: ts))).
    rewrite (IH Hts). reflexivity.
Qed.

Lemma skip_digits_app (ds rest : string) :
  all_chars is_digit ds = true ->
  skip_digits (ds ++ String " " rest) = String " " rest.
Proof.
  induction ds as [|d ds IH]; intros H; [reflexivity|].
  cbn in H |- *. apply andb_true_iff in H. destruct H as [Hd H].
  rewrite Hd. apply IH, H.
Qed.

Lemma re_group_app (g : string) :
  g <> EmptyString -> all_chars in_class g = true ->
  re_group (g ++ " }") = Some g.
Proof.
  induction g as [|c g IH]; intros Hne Hg; [contradiction|].
  cbn in Hg. apply andb_true_iff in Hg. destruct Hg as [Hc Hg].
  cbn [append re_group]. unfold in_class in Hc. rewrite Hc.
  destruct g as [|c' g'].
  - reflexivity.
  - rewrite IH; [reflexivity | discriminate | exact Hg].
Qed.

(** The match of [re_attributes_def] on the text of an attribute group. *)
Lemma re_attributes_def_attr_line (ds : string) (ts : list string) :
  is_number ds = true -> ts <> [] -> forallb is_attr_token ts = true ->
  re_attributes_def (attr_line ds ts) = Some (Py.join " " ts).
Proof.
  intros Hds Hne Hts.
  destruct (join_tokens Hne Hts) as (Hall & w & g' & Hg & Hw).
  unfold re_attributes_def, attr_line.
  rewrite strip_prefix_app.
  unfold is_number in Hds. apply andb_true_iff in Hds. destruct Hds as [Hds0 Hds].
  destruct ds as [|d ds]; [discriminate|].
  cbn in Hds. apply andb_true_iff in Hds. destruct Hds as [Hd Hds].
  cbn [append re_digits]. rewrite Hd.
  change (ds ++ String " " (String "=" (String " " (String "{" (String " " (Py.join " " ts ++ " }"))))))
    with (ds ++ String " " ("= { " ++ (Py.join " " ts ++ " }"))).
  rewrite (skip_digits_app _ _ Hds).
  cbn [strip_prefix append Ascii.eqb Bool.eqb].
  apply re_group_app; [rewrite Hg; discriminate | exact Hall].
Qed.

Lemma char_in_join (x : ascii) (t : string) (ts : list string) :
  In t ts -> char_in x t = true -> char_in x (Py.join " " ts) = true.
Proof.
  intros Hin Hx. induction ts as [|t0 ts IH]; [destruct Hin|].
  rewrite join_cons. destruct Hin as [->|Hin].
  - destruct ts; [exact Hx|]. rewrite char_in_app, Hx. reflexivity.
  - destruct ts as [|t1 ts]; [destruct Hin|].
    rewrite !char_in_app, (IH Hin). rewrite !orb_true_r. reflexivity.
Qed.

Lemma digits_no_w (ds : string) :
  all_chars is_digit ds = true -> char_in "w" (ds ++ " ") = false.
Proof.
  intros H. rewrite char_in_app. cbn. rewrite orb_false_r.
  apply (all_chars_char_in is_digit); [exact H | reflexivity].
Qed.

(** [line.replace(m.group(1), attrs)] on the text of an attribute group
    with [willreturn] among its attributes: the body is the one occurrence
    of the group in the line. *)
Lemma replace_attr_line (ds : string) (ts : list string) (attrs : string) :
  is_number ds = true -> ts <> [] -> forallb is_attr_token ts = true ->
  In "willreturn" ts ->
  Py.replace (attr_line ds ts) (Py.join " " ts) attrs
  = "attributes #" ++ ds ++ " = { " ++ attrs ++ " }".
Proof.
  intros Hds Hne Hts Hwill.
  destruct (join_tokens Hne Hts) as (Hall & w & g' & Hg & Hw).
  destruct (word_char _ Hw) as (_ & Hwsp & Hwbr).
  set (g := Py.join " " ts) in *.
  assert (g <> EmptyString) as Hgne by (rewrite Hg; discriminate).
  assert (char_in "w" g = true) as Hx
    by (apply (char_in_join _ _ _ Hwill); reflexivity).
  assert (forall c, in_class c = false -> char_in c g = false) as Hout
    by (intros c Hc; apply (all_chars_char_in in_class); assumption).
  unfold is_number in Hds. apply andb_true_iff in Hds. destruct Hds as [_ Hds].
  assert (Py.replace (attr_line ds ts) g attrs
          = Py.replace_from g attrs 0 (attr_line ds ts)) as ->
    by (unfold Py.replace; destruct g; [contradiction | reflexivity]).
  assert (attr_line ds ts
          = "attributes "
            ++ String "#" ((ds ++ " ")
            ++ String "=" (" "
            ++ String "{" (String " " (g ++ " }"))))) as ->.
  { unfold attr_line. fold g. cbn [append]. rewrite append_assoc. reflexivity. }
  rewrite (replace_from_pass g attrs "w" "#"); try reflexivity; auto.
  rewrite (replace_from_pass g attrs "w" "="); auto using digits_no_w.
  rewrite (replace_from_pass g attrs "w" "{"); try reflexivity; auto.
  assert (Py.replace_from g attrs 0 (String " " (g ++ " }"))
          = String " " (attrs ++ " }")) as ->.
  { cbn [Py.replace_from].
    assert (Py.startswith (String " " (g ++ " }")) g = false) as ->.
    { rewrite Hg. cbn [Py.startswith]. rewrite Hwsp. reflexivity. }
    rewrite (replace_from_hit attrs " }" Hgne).
    rewrite replace_from_absent; [reflexivity|].
    rewrite Hg. cbn. rewrite Hwsp, Hwbr. reflexivity. }
  cbn [append]. rewrite append_assoc. reflexivity.
Qed.

Lemma filter_all (ts : list string) :
  (forall a, In a ts -> a <> "willreturn") -> filter not_willreturn ts = ts.
Proof.
  induction ts as [|t ts IH]; intros H; [reflexivity|].
  cbn. unfold not_willreturn at 1.
  destruct (String.eqb_spec t "willreturn") as [E|_].
  - exfalso. apply (H t); [left; reflexivity | exact E].
  - cbn. rewrite IH; [reflexivity|]. intros a Ha. apply H. right. exact Ha.
Qed.

Lemma willreturn_dec (ts : list string) :
  In "willreturn" ts \/ forall a, In a ts -> a <> "willreturn".
Proof.
  induction ts as [|t ts [IH|IH]].
  - right. intros a [].
  - left. right. exact IH.
  - destruct (String.eqb_spec t "willreturn") as [->|Hne].
    + left. left. reflexivity.
    + right. intros a [<-|Ha]; [exact Hne | apply IH, Ha].
Qed.

(** The loop body on the text of an attribute group. *)
Lemma convert_attr_line (ds : string) (ts : list string) :
  is_number ds = true -> ts <> [] -> forallb is_attr_token ts = true ->
  convert_line (attr_line ds ts) = Ok (attr_line ds (filter not_willreturn ts)).
Proof.
  intros Hds Hne Hts. unfold convert_line.
  assert (Py.startswith (attr_line ds ts) "attributes #" = true) as ->
    by (unfold attr_line; apply startswith_app).
  rewrite (re_attributes_def_attr_line _ Hds Hne Hts).
  rewrite (split_join _ Hts). fold not_willreturn. f_equal.
  destruct (willreturn_dec ts) as [Hwill|Hnone].
  - apply (replace_attr_line _ _ Hds Hne Hts Hwill).
  - rewrite (filter_all _ Hnone). apply replace_same.
    destruct (join_tokens Hne Hts) as (_ & w & g' & -> & _). discriminate.
Qed.

(** ** Lines *)

Lemma splitlines_app (l : string) :
  is_line l = true ->
  forall rest, Py.splitlines (l ++ LF ++ rest) = l :: Py.splitlines rest.
Proof.
  induction l as [|c l IH]; intros Hl rest.
  - cbn [append]. destruct rest; reflexivity.
  - cbn in Hl. apply andb_true_iff in Hl. destruct Hl as [Hc Hl].
    apply negb_true_iff in Hc.
    cbn [append Py.splitlines]. rewrite Hc.
    change (l ++ String (ascii_of_nat 10) rest) with (l ++ LF ++ rest).
    rewrite (IH Hl). reflexivity.
Qed.

Lemma splitlines_line (l : string) :
  is_line l = true -> l <> EmptyString -> Py.splitlines l = [l].
Proof.
  induction l as [|c l IH]; intros Hl Hne; [contradiction|].
  cbn in Hl. apply andb_true_iff in Hl. destruct Hl as [Hc Hl].
  apply negb_true_iff in Hc. cbn [Py.splitlines]. rewrite Hc.
  destruct l as [|c' l']; [reflexivity|].
  rewrite IH; [reflexivity | exact Hl | discriminate].
Qed.

(** A text written as lines joined by line feeds, the last one not empty,
    splits into these lines. *)
Lemma splitlines_join (ls : list string) :
  forallb is_line ls = true -> last ls "x" <> EmptyString ->
  Py.splitlines (Py.join LF ls) = ls.
Proof.
  induction ls as [|l ls IH]; intros Hls Hlast; [reflexivity|].
  cbn [forallb] in Hls. apply andb_true_iff in Hls. destruct Hls as [Hl Hls].
  rewrite join_cons. destruct ls as [|l2 ls].
  - apply splitlines_line; assumption.
  - rewrite (splitlines_app _ Hl), IH; [reflexivity | exact Hls | exact Hlast].
Qed.

(** C4 (as amended).  Attribute stripping is [llvm150_to_70_ir]: it works
    line by line, and its removal list is the one token [willreturn].  On
    the text of an attribute group (a number, then word attributes one
    space apart) every [willreturn] is removed and the other attributes
    stay in their order; a group without [willreturn] is returned as it
    is; a line that does not start with [attributes #] is returned as it
    is.  ([immarg] is not on the list: [llvm_replace] deletes it from the
    whole text before this pass.) *)
Theorem attribute_stripping :
  (forall ls,
     forallb is_line ls = true -> last ls "x" <> EmptyString ->
     llvm150_to_70_ir (Py.join LF ls)
     = (buf <- mapM convert_line ls ;; Ok (Py.join LF buf)))
  /\ (forall ds ts,
        is_number ds = true -> ts <> [] -> forallb is_attr_token ts = true ->
        convert_line (attr_line ds ts)
        = Ok (attr_line ds (filter not_willreturn ts)))
  /\ (forall ds ts,
        is_number ds = true -> ts <> [] -> forallb is_attr_token ts = true ->
        (forall a, In a ts -> a <> "willreturn") ->
        convert_line (attr_line ds ts) = Ok (attr_line ds ts))
  /\ (forall line,
        Py.startswith line "attributes #" = false -> convert_line line = Ok line).
Proof.
  split; [|split; [|split]].
  - intros ls Hls Hlast. unfold llvm150_to_70_ir.
    rewrite (splitlines_join _ Hls Hlast). reflexivity.
  - exact convert_attr_line.
  - intros ds ts Hds Hne Hts Hnone.
    rewrite (convert_attr_line _ Hds Hne Hts), (filter_all _ Hnone). reflexivity.
  - intros line H. unfold convert_line. rewrite H. reflexivity.
Qed.

(** A module with two attribute groups. *)
Lemma attribute_stripping_witness :
  llvm150_to_70_ir
    (Py.join LF
       [ "define void @f() #0 {"; "  ret void"; "}";
         attr_line "0" ["nounwind"; "willreturn"; "readnone"];
         attr_line "12" ["noinline"; "optnone"] ])
  = Ok (Py.join LF
       [ "define void @f() #0 {"; "  ret void"; "}";
         attr_line "0" ["nounwind"; "readnone"];
         attr_line "12" ["noinline"; "optnone"] ]).
Proof.
  destruct attribute_stripping as (Hlines & Hstrip & Hkeep & Hother).
  rewrite Hlines; [| vm_compute; reflexivity | vm_compute; discriminate].
  cbn [mapM].
  rewrite !Hother by (vm_compute; reflexivity).
  rewrite (Hstrip "0" ["nounwind"; "willreturn"; "readnone"])
    by (vm_compute; first [reflexivity | discriminate]).
  rewrite (Hkeep "12" ["noinline"; "optnone"]);
    [ reflexivity
    | vm_compute; reflexivity
    | discriminate
    | vm_compute; reflexivity
    | intros a Ha; cbn in Ha; destruct Ha as [<-|[<-|[]]]; discriminate ].
Defined.

(** Attributes more than one space apart: the line is rewritten with single
    spaces even when nothing is removed, and all of it is searched for the
    body. *)
Example attribute_spacing_examples :
  llvm150_to_70_ir "attributes #0 = { a  b }" = Ok "attributes #0 = { a b }"
  /\ llvm150_to_70_ir "attributes #0 = { s  }" = Ok "attributes#0 = { s }".
Proof. split; vm_compute; reflexivity. Qed.

(** C4 as stated fails: [immarg] is not a token the per-line pass removes,
    and what does remove it - the replacement in [llvm_replace] - alters
    lines that are no attribute group. *)
Lemma immarg_not_stripped_per_line :
  llvm150_to_70_ir (attr_line "0" ["immarg"; "nounwind"])
  = Ok (attr_line "0" ["immarg"; "nounwind"])
  /\ In "immarg" (Py.split "immarg nounwind")
  /\ llvm_replace "declare void @llvm.f(i8*, i1 immarg)"
     = Ok "declare void @llvm.f(i8*, i1 )".
Proof.
  split; [vm_compute; reflexivity|].
  split; [vm_compute; auto|].
  vm_compute. reflexivity.
Qed.

(** * Further properties *)

(** ** Result codes *)

Lemma list_index_outside (error : Z) :
  (10 <= error \/ error < -10)%Z ->
  list_index RESULT_CODE_NAMES error
  = Raise (IndexError
             (if (error <? - sys_maxsize - 1)%Z || (sys_maxsize <? error)%Z
              then "cannot fit 'int' into an index-sized integer"
              else "list index out of range")).
Proof.
  intros H. unfold list_index.
  destruct ((error <? - sys_maxsize - 1)%Z || (sys_maxsize <? error)%Z);
    [reflexivity|].
  change (Z.of_nat (List.length RESULT_CODE_NAMES)) with 10%Z. cbv zeta.
  destruct (Z.ltb_spec error 0).
  - destruct (Z.ltb_spec (10 + error) 0); [reflexivity | lia].
  - destruct (Z.ltb_spec error 0); [lia|].
    destruct (nth_error RESULT_CODE_NAMES (Z.to_nat error)) eqn:E; [|reflexivity].
    assert (Z.to_nat error < List.length RESULT_CODE_NAMES)%nat as Hlt
      by (apply nth_error_Some; congruence).
    cbn in Hlt. lia.
Qed.

(** [check_error] on every result code, with and without [exit].  Code 0
    returns and prints nothing.  A code from 1 to 9 is named by
    [RESULT_CODE_NAMES], whose names are distinct: without [exit] the call
    raises [NvvmError] with the message and that name; with [exit] it
    prints that exception and raises [SystemExit(1)].  A code from -10 to
    -1 is read from the end of the list, with the same two outcomes.  Any
    other code is no index of the list: the look-up raises [IndexError]
    before [exit] is looked at, so nothing is printed and no [SystemExit]
    raised; the message is that of an index out of range when the code
    fits an index and that of an integer too large otherwise.  The
    function [check_error] of the calls that leave [exit] at its default is
    the case without [exit]. *)
Theorem check_error_codes (error : Z) (msg : string) (t : list event) :
  NVVM_check_error error msg false t = lift (check_error error msg) t
  /\ (error = 0%Z ->
      forall exit, NVVM_check_error error msg exit t = (inl tt, t))
  /\ ((1 <= error <= 9)%Z ->
      exists name,
        nth_error RESULT_CODE_NAMES (Z.to_nat error) = Some name
        /\ NVVM_check_error error msg false t
           = (inr (Exn (NvvmError msg name)), t)
        /\ NVVM_check_error error msg true t
           = (inr (SystemExit 1), (t ++ [Printed (NvvmError msg name)])%list))
  /\ ((-10 <= error <= -1)%Z ->
      exists name,
        nth_error RESULT_CODE_NAMES (Z.to_nat (10 + error)) = Some name
        /\ NVVM_check_error error msg false t
           = (inr (Exn (NvvmError msg name)), t)
        /\ NVVM_check_error error msg true t
           = (inr (SystemExit 1), (t ++ [Printed (NvvmError msg name)])%list))
  /\ ((10 <= error \/ error < -10)%Z ->
      exists m,
        (forall exit,
            NVVM_check_error error msg exit t = (inr (Exn (IndexError m)), t))
        /\ ((- sys_maxsize - 1 <= error <= sys_maxsize)%Z ->
            m = "list index out of range")
        /\ ((error < - sys_maxsize - 1 \/ sys_maxsize < error)%Z ->
            m = "cannot fit 'int' into an index-sized integer"))
  /\ NoDup RESULT_CODE_NAMES.
Proof.
  split.
  { unfold NVVM_check_error, check_error, and_then.
    destruct (error =? 0)%Z; [reflexivity|].
    destruct (list_index RESULT_CODE_NAMES error); reflexivity. }
  split; [intros -> exit; destruct exit; reflexivity|].
  split.
  { intros H.
    assert (error = 1 \/ error = 2 \/ error = 3 \/ error = 4 \/ error = 5
            \/ error = 6 \/ error = 7 \/ error = 8 \/ error = 9)%Z as E by lia.
    repeat (destruct E as [->|E];
            [eexists; split; [reflexivity | split; reflexivity]|]).
    subst. eexists; split; [reflexivity | split; reflexivity]. }
  split.
  { intros H.
    assert (error = -1 \/ error = -2 \/ error = -3 \/ error = -4 \/ error = -5
            \/ error = -6 \/ error = -7 \/ error = -8 \/ error = -9
            \/ error = -10)%Z as E by lia.
    repeat (destruct E as [->|E];
            [eexists; split; [reflexivity | split; reflexivity]|]).
    subst. eexists; split; [reflexivity | split; reflexivity]. }
  split.
  { intros H. eexists. split; [|split].
    - intros exit. unfold NVVM_check_error, and_then.
      destruct (Z.eqb_spec error 0); [lia|].
      rewrite (list_index_outside H). reflexivity.
    - intros Hfit.
      destruct (Z.ltb_spec error (- sys_maxsize - 1)); [lia|].
      destruct (Z.ltb_spec sys_maxsize error); [lia | reflexivity].
    - intros Hbig.
      destruct (Z.ltb_spec error (- sys_maxsize - 1)); [reflexivity|].
      destruct (Z.ltb_spec sys_maxsize error); [reflexivity | lia]. }
  unfold RESULT_CODE_NAMES.
  repeat (constructor; [cbn; intuition discriminate|]). constructor.
Qed.

Lemma check_error_codes_witness :
  NVVM_check_error 7 "Failed to destroy CU" false []
  = (inr (Exn (NvvmError "Failed to destroy CU" "NVVM_ERROR_INVALID_OPTION")), [])
  /\ NVVM_check_error 7 "Failed to destroy CU" true []
     = (inr (SystemExit 1),
        [Printed (NvvmError "Failed to destroy CU" "NVVM_ERROR_INVALID_OPTION")])
  /\ NVVM_check_error 12 "Failed to destroy CU" true []
     = (inr (Exn (IndexError "list index out of range")), [])
  /\ NVVM_check_error (-1) "Failed to destroy CU" false []
     = (inr (Exn (NvvmError "Failed to destroy CU" "NVVM_ERROR_COMPILATION")), []).
Proof.
  destruct (check_error_codes 7 "Failed to destroy CU" []) as (_ & _ & H7 & _).
  destruct (check_error_codes 12 "Failed to destroy CU" [])
    as (_ & _ & _ & _ & H12 & _).
  destruct (check_error_codes (-1) "Failed to destroy CU" [])
    as (_ & _ & _ & Hm & _).
  split; [|split; [|split]].
  - destruct (H7 ltac:(lia)) as (name & Hn & -> & _).
    vm_compute in Hn. injection Hn as <-. reflexivity.
  - destruct (H7 ltac:(lia)) as (name & Hn & _ & ->).
    vm_compute in Hn. injection Hn as <-. reflexivity.
  - destruct (H12 ltac:(lia)) as (m & -> & Hfit & _).
    rewrite Hfit; [reflexivity | vm_compute; split; discriminate].
  - destruct (Hm ltac:(lia)) as (name & Hn & -> & _).
    vm_compute in Hn. injection Hn as <-. reflexivity.
Defined.

(** ** The synthesizers *)

(** Whatever texts they are given, the four synthesizers return: every
    replacement field of every template is among the keywords passed, and
    the arguments are inserted as they are.  The function defined is
    [___numba_atomic_] followed by the type and operation asked for. *)
Theorem synthesizers_return (T Ti Tu OP NAN PTR_OR_VAL FUNC : string) :
  (exists rest,
     ir_numba_atomic_binary T Ti OP FUNC
     = Ok (LF ++ "define internal " ++ T ++ " @___numba_atomic_" ++ T ++ "_" ++ FUNC
           ++ "(" ++ T ++ "* %ptr, " ++ T ++ " %val) alwaysinline {" ++ LF ++ rest))
  /\ (exists rest,
        ir_numba_atomic_minmax T Ti NAN OP PTR_OR_VAL FUNC
        = Ok (LF ++ "define internal " ++ T ++ " @___numba_atomic_" ++ T ++ "_"
              ++ NAN ++ FUNC
              ++ "(" ++ T ++ "* %ptr, " ++ T ++ " %val) alwaysinline {" ++ LF ++ rest))
  /\ (exists rest,
        ir_numba_atomic_inc T Tu
        = Ok (LF ++ "define internal " ++ T ++ " @___numba_atomic_" ++ Tu ++ "_inc"
              ++ "(" ++ T ++ "* %iptr, " ++ T ++ " %val) alwaysinline {" ++ LF ++ rest))
  /\ (exists rest,
        ir_numba_atomic_dec T Tu
        = Ok (LF ++ "define internal " ++ T ++ " @___numba_atomic_" ++ Tu ++ "_dec"
              ++ "(" ++ T ++ "* %iptr, " ++ T ++ " %val) alwaysinline {" ++ LF ++ rest))
  /\ (exists cas, ir_cas Ti = Ok cas).
Proof.
  split; [|split; [|split; [|split]]]; eexists.
  - unfold ir_numba_atomic_binary, ir_cas, Py.format, cas_nvvm,
      ir_numba_atomic_binary_template. cbn. reflexivity.
  - unfold ir_numba_atomic_minmax, ir_cas, Py.format, cas_nvvm,
      ir_numba_atomic_minmax_template. cbn. rewrite !append_assoc. reflexivity.
  - unfold ir_numba_atomic_inc, ir_cas, Py.format, cas_nvvm,
      ir_numba_atomic_inc_template. cbn. reflexivity.
  - unfold ir_numba_atomic_dec, ir_cas, Py.format, cas_nvvm,
      ir_numba_atomic_dec_template. cbn. reflexivity.
  - unfold ir_cas, Py.format, cas_nvvm. cbn. reflexivity.
Qed.

(** Every definition of the catalog defines the function its declaration
    declares: the same symbol, return type and parameter types. *)
Theorem catalog_signatures :
  Forall
    (fun e : string * atomic_call =>
       exists fn,
         synthesize (snd e) = Ok fn
         /\ signature_of fn = signature_of (fst e)
         /\ Py.startswith (snd (fst (signature_of fn))) "___numba_atomic_" = true
         /\ List.length (snd (signature_of fn)) = 2%nat)
    atomic_catalog.
Proof.
  unfold atomic_catalog.
  repeat (apply Forall_cons; [|]); try apply Forall_nil;
    cbn [fst snd]; (eexists; split; [vm_compute; reflexivity|]);
    (split; [|split]); vm_compute; reflexivity.
Qed.

Example catalog_signature_example :
  signature_of
    (Py.q "declare double @'___numba_atomic_double_add'(double* %'.1', double %'.2')")
  = ("double", "___numba_atomic_double_add", ["double*"; "double"]).
Proof. vm_compute. reflexivity. Qed.

(** ** Increment and decrement *)

Lemma inc_attempt_binary (val : Z) (fuel : nat) :
  forall old mem sched trace,
    inc_attempt fuel val old mem sched trace
    = binary_attempt
        (fun _ old val => if (old <? val)%Z then u64 (old + 1) else 0%Z)
        fuel "inc" val old mem sched trace.
Proof.
  induction fuel as [|fuel IH]; intros; [reflexivity|].
  cbn [inc_attempt binary_attempt].
  destruct (interfere sched mem) as [mem0 sched0].
  destruct (cmpxchg mem0 old _) as [cas mem']. rewrite IH. reflexivity.
Qed.

Lemma dec_attempt_binary (val : Z) (fuel : nat) :
  forall old mem sched trace,
    dec_attempt fuel val old mem sched trace
    = binary_attempt
        (fun _ old val => if (u64 (old + -1) <? val)%Z then u64 (old + -1) else val)
        fuel "dec" val old mem sched trace.
Proof.
  induction fuel as [|fuel IH]; intros; [reflexivity|].
  cbn [dec_attempt binary_attempt].
  destruct (interfere sched mem) as [mem0 sched0].
  destruct (cmpxchg mem0 old _) as [cas mem']. rewrite IH. reflexivity.
Qed.

(** What a loop of this shape returns was in the cell when the loop began
    or was stored by another thread. *)
Lemma binary_attempt_ret (farith : string -> Z -> Z -> Z) (OP : string) (val : Z)
  (P : Z -> Prop) (fuel : nat) :
  forall old sched trace out,
    P old -> stores sched P ->
    binary_attempt farith fuel OP val old old sched trace = Some out ->
    P (ret out).
Proof.
  induction fuel as [|fuel IH]; intros old sched trace out Hold Hs H; [discriminate|].
  cbn [binary_attempt] in H.
  assert (forall sched',
            (let (cas, mem') := cmpxchg old old (farith OP old val) in
             if negb (cas =? old)%Z
             then binary_attempt farith fuel OP val cas mem' sched'
                    (trace ++ [CasEvent old old (farith OP old val)])
             else Some (Outcome old mem'
                    (trace ++ [CasEvent old old (farith OP old val)]) sched'))
            = Some out -> P (ret out)) as Hhit.
  { intros sched' H'. rewrite cmpxchg_hit, Z.eqb_refl in H'. cbn in H'.
    inversion H'; subst. exact Hold. }
  destruct sched as [|[v|] sched']; cbn [interfere] in H.
  - apply (Hhit _ H).
  - destruct (Z.eq_dec v old) as [->|Hne]; [apply (Hhit _ H)|].
    rewrite (cmpxchg_miss _ Hne) in H.
    destruct (Z.eqb_spec v old) as [|_]; [contradiction|]. cbn [negb] in H.
    eapply IH; [ | | exact H].
    + apply Hs. left. reflexivity.
    + intros x Hx. apply Hs. right. exact Hx.
  - apply (Hhit _ H).
Qed.

Lemma stores_interfere (sched : schedule) (mem : Z) (P : Z -> Prop) :
  P mem -> stores sched P ->
  P (fst (interfere sched mem)) /\ stores (snd (interfere sched mem)) P.
Proof.
  intros Hm Hs. destruct sched as [|[v|] sched']; cbn.
  - auto.
  - split; [apply Hs; left; reflexivity|]. intros x Hx. apply Hs. right. exact Hx.
  - split; [exact Hm|]. intros x Hx. apply Hs. right. exact Hx.
Qed.

(** The increment.  With the cell, the bound and the stores of the other
    threads all 64-bit values, the call returns the value [old] that its
    last, successful [cmpxchg] found, and that [cmpxchg] stored [old + 1]
    when [old] was below the bound and 0 otherwise - so never more than
    the bound, and never a wrapped sum.  The text returns [%old]. *)
Theorem atomic_inc_saturates (val mem : Z) (sched : schedule) :
  is_u64 val -> is_u64 mem -> stores sched is_u64 ->
  exists out earlier last,
    numba_atomic_inc (S (List.length sched)) val mem sched = Some out
    /\ attempts out = (earlier ++ [last])%list
    /\ Forall (fun e => succeeded e = false) earlier
    /\ succeeded last = true
    /\ ret out = observed last
    /\ final_mem out = desired last
    /\ final_mem out = (if (ret out <? val)%Z then ret out + 1 else 0)%Z
    /\ (0 <= final_mem out <= val)%Z
    /\ (exists fn, ir_numba_atomic_inc "i64" "u64" = Ok fn
                   /\ done_block fn = ["    ret i64 %old"]).
Proof.
  intros Hval Hmem Hs.
  pose proof (numba_atomic_binary_spec
                (fun _ old val => if (old <? val)%Z then u64 (old + 1) else 0%Z)
                "inc" val mem sched) as (out & earlier & last & Hrun & Htr & Hf & Hl & Hr & Hd & Hm).
  assert (numba_atomic_inc (S (List.length sched)) val mem sched = Some out) as Hrun'.
  { unfold numba_atomic_inc. unfold numba_atomic_binary in Hrun.
    destruct (interfere sched mem) as [mem0 sched0].
    rewrite inc_attempt_binary. exact Hrun. }
  assert (is_u64 (ret out)) as Hret.
  { unfold numba_atomic_binary in Hrun.
    destruct (@stores_interfere sched mem is_u64 Hmem Hs) as [H0 Hs0].
    destruct (interfere sched mem) as [mem0 sched0]. cbn [fst snd] in *.
    refine (@binary_attempt_ret _ _ _ is_u64 _ _ _ _ _ H0 Hs0 Hrun). }
  exists out, earlier, last.
  repeat (split; [assumption|]).
  assert (final_mem out = (if (ret out <? val)%Z then ret out + 1 else 0)%Z) as E.
  { rewrite Hm, Hd. destruct (Z.ltb_spec (ret out) val); [|reflexivity].
    unfold u64. unfold is_u64 in *. apply Z.mod_small. lia. }
  split; [exact E|]. split.
  - rewrite E. unfold is_u64 in *. destruct (Z.ltb_spec (ret out) val); lia.
  - eexists. split; vm_compute; reflexivity.
Qed.

Lemma atomic_inc_saturates_witness :
  exists out,
    numba_atomic_inc 3 5 4 [None; Some 5%Z] = Some out
    /\ ret out = 5%Z /\ final_mem out = 0%Z.
Proof.
  assert (is_u64 5) as H5 by (unfold is_u64; lia).
  assert (is_u64 4) as H4 by (unfold is_u64; lia).
  assert (stores [None; Some 5%Z] is_u64) as Hs.
  { intros v [H|[H|[]]]; [discriminate | inversion H; subst; exact H5]. }
  destruct (@atomic_inc_saturates 5 4 [None; Some 5%Z] H5 H4 Hs)
    as (out & earlier & last & Hrun & _).
  exists out. split; [exact Hrun|].
  vm_compute in Hrun. inversion Hrun; subst. split; reflexivity.
Defined.

(** The decrement.  Under the same conditions the successful [cmpxchg]
    stored the bound when [old] was 0 (where [old - 1] wraps to the largest
    value) or above the bound, and [old - 1] otherwise - so never more
    than the bound.  The text returns [%old]. *)
Theorem atomic_dec_saturates (val mem : Z) (sched : schedule) :
  is_u64 val -> is_u64 mem -> stores sched is_u64 ->
  exists out earlier last,
    numba_atomic_dec (S (List.length sched)) val mem sched = Some out
    /\ attempts out = (earlier ++ [last])%list
    /\ Forall (fun e => succeeded e = false) earlier
    /\ succeeded last = true
    /\ ret out = observed last
    /\ final_mem out = desired last
    /\ final_mem out
       = (if (ret out =? 0)%Z || (val <? ret out)%Z then val else ret out - 1)%Z
    /\ (0 <= final_mem out <= val)%Z
    /\ (exists fn, ir_numba_atomic_dec "i64" "u64" = Ok fn
                   /\ done_block fn = ["    ret i64 %old"]).
Proof.
  intros Hval Hmem Hs.
  pose proof (numba_atomic_binary_spec
                (fun _ old val =>
                   if (u64 (old + -1) <? val)%Z then u64 (old + -1) else val)
                "dec" val mem sched) as (out & earlier & last & Hrun & Htr & Hf & Hl & Hr & Hd & Hm).
  assert (numba_atomic_dec (S (List.length sched)) val mem sched = Some out) as Hrun'.
  { unfold numba_atomic_dec. unfold numba_atomic_binary in Hrun.
    destruct (interfere sched mem) as [mem0 sched0].
    rewrite dec_attempt_binary. exact Hrun. }
  assert (is_u64 (ret out)) as Hret.
  { unfold numba_atomic_binary in Hrun.
    destruct (@stores_interfere sched mem is_u64 Hmem Hs) as [H0 Hs0].
    destruct (interfere sched mem) as [mem0 sched0]. cbn [fst snd] in *.
    refine (@binary_attempt_ret _ _ _ is_u64 _ _ _ _ _ H0 Hs0 Hrun). }
  exists out, earlier, last.
  repeat (split; [assumption|]).
  assert (final_mem out
          = (if (ret out =? 0)%Z || (val <? ret out)%Z then val else ret out - 1)%Z)
    as E.
  { rewrite Hm, Hd. unfold u64, is_u64 in *.
    destruct (Z.eqb_spec (ret out) 0) as [E0|E0]; cbn [orb].
    - rewrite E0. change ((0 + -1) mod 2 ^ 64)%Z with (2 ^ 64 - 1)%Z.
      destruct (Z.ltb_spec (2 ^ 64 - 1) val); [lia | reflexivity].
    - rewrite (Z.mod_small (ret out + -1)) by lia.
      destruct (Z.ltb_spec (ret out + -1) val), (Z.ltb_spec val (ret out)); lia. }
  split; [exact E|]. split.
  - rewrite E. unfold is_u64 in *.
    destruct (Z.eqb_spec (ret out) 0), (Z.ltb_spec val (ret out)); cbn [orb]; lia.
  - eexists. split; vm_compute; reflexivity.
Qed.

Lemma atomic_dec_saturates_witness :
  exists out,
    numba_atomic_dec 2 5 0 [None] = Some out
    /\ ret out = 0%Z /\ final_mem out = 5%Z.
Proof.
  assert (is_u64 5) as H5 by (unfold is_u64; lia).
  assert (is_u64 0) as H0 by (unfold is_u64; lia).
  assert (stores [None] is_u64) as Hs by (intros v [H|[]]; discriminate).
  destruct (@atomic_dec_saturates 5 0 [None] H5 H0 Hs)
    as (out & earlier & last & Hrun & _).
  exists out. split; [exact Hrun|].
  vm_compute in Hrun. inversion Hrun; subst. split; reflexivity.
Defined.

(** ** What the min/max functions store *)

Section MinMaxFacts.

Variable is_nan : Z -> bool.
Variable flt : Z -> Z -> bool.
Variable nnan_poison : bool.
Hypothesis flt_irrefl : forall y, flt y y = false.

(** Every [cmpxchg] of the loop offers the operand, against a value the
    comparison told it to replace. *)
Lemma minmax_lt_check_attempts (OP : string) (val ptrval : Z) (fuel : nat) :
  forall dold mem sched trace out,
    minmax_lt_check is_nan flt nnan_poison fuel OP val ptrval dold mem sched trace
    = Some out ->
    Forall (fun e => desired e = val
                     /\ fcmp is_nan flt nnan_poison OP (expected e) val = true) trace ->
    Forall (fun e => desired e = val
                     /\ fcmp is_nan flt nnan_poison OP (expected e) val = true)
           (attempts out).
Proof.
  induction fuel as [|fuel IH]; intros dold mem sched trace out H Htr; [discriminate|].
  cbn [minmax_lt_check] in H.
  destruct (fcmp is_nan flt nnan_poison OP dold val) eqn:Hc.
  - destruct (interfere sched mem) as [mem0 sched0].
    destruct (cmpxchg mem0 dold val) as [cas mem'].
    eapply IH; [exact H|].
    apply Forall_app. split; [exact Htr|].
    constructor; [|constructor]. cbn. auto.
  - inversion H; subst. exact Htr.
Qed.

(** A call that no other thread disturbs. *)
Lemma minmax_quiet (OP PTR_OR_VAL : string) (val mem : Z) :
  PTR_OR_VAL = EmptyString \/ PTR_OR_VAL = "ptr" ->
  let early :=
    is_nan val || (if String.eqb PTR_OR_VAL "ptr" then is_nan mem else false) in
  exists out,
    numba_atomic_minmax is_nan flt nnan_poison 3 OP PTR_OR_VAL val mem [] = Some out
    /\ ret out = mem
    /\ final_mem out
       = (if early then mem
          else if fcmp is_nan flt nnan_poison OP mem val then val else mem)
    /\ (early = true -> attempts out = []).
Proof.
  intros HP early. unfold numba_atomic_minmax. cbn [interfere].
  assert (early_return is_nan flt nnan_poison PTR_OR_VAL val mem = Some early) as ->.
  { subst early. destruct HP as [-> | ->]; cbn.
    - rewrite fcmp_uno, orb_false_r, orb_diag. reflexivity.
    - rewrite fcmp_uno. reflexivity. }
  destruct early eqn:Eearly.
  - eexists. split; [reflexivity|]. split; [reflexivity|].
    split; [reflexivity | intros; reflexivity].
  - assert (is_nan val = false) as Hval
      by (subst early; apply orb_false_iff in Eearly; apply Eearly).
    cbn [minmax_lt_check interfere].
    destruct (fcmp is_nan flt nnan_poison OP mem val) eqn:Hc.
    + rewrite cmpxchg_hit. cbn [minmax_lt_check interfere]. rewrite Hc.
      assert (val <> mem) as Hne.
      { intros <-. rewrite fcmp_refl in Hc by assumption. discriminate. }
      rewrite (cmpxchg_miss _ Hne). cbn [minmax_lt_check].
      rewrite fcmp_refl by assumption.
      eexists. split; [reflexivity|]. split; [reflexivity|].
      split; [reflexivity | intros; discriminate].
    + eexists. split; [reflexivity|]. split; [reflexivity|].
      split; [reflexivity | intros; discriminate].
Qed.

End MinMaxFacts.

(** The min/max functions write nothing but their operand.  Whatever the
    other threads do, the call returns, and each of its [cmpxchg]s offered
    the operand in exchange for a value that the comparison of the loop
    ([fcmp OP %dold, %val]) held to be replaced. *)
Theorem minmax_stores_only_operand
  (is_nan : Z -> bool) (flt : Z -> Z -> bool) (nnan_poison : bool)
  (OP PTR_OR_VAL : string) (val mem : Z) (sched : schedule) :
  (forall y, flt y y = false) ->
  PTR_OR_VAL = EmptyString \/ PTR_OR_VAL = "ptr" ->
  exists out,
    numba_atomic_minmax is_nan flt nnan_poison (List.length sched + 3)
      OP PTR_OR_VAL val mem sched = Some out
    /\ Forall (fun e => desired e = val
                        /\ fcmp is_nan flt nnan_poison OP (expected e) val = true)
              (attempts out).
Proof.
  intros Hirr HP.
  destruct (@numba_atomic_minmax_spec is_nan flt nnan_poison OP PTR_OR_VAL val mem
              sched Hirr HP) as (out & Hrun & _).
  exists out. split; [exact Hrun|].
  unfold numba_atomic_minmax in Hrun.
  destruct (interfere sched mem) as [mem0 sched0].
  destruct (early_return is_nan flt nnan_poison PTR_OR_VAL val mem0) as [[|]|];
    [inversion Hrun; constructor | | discriminate].
  eapply minmax_lt_check_attempts; [exact Hrun | constructor].
Qed.

Lemma minmax_stores_only_operand_witness :
  exists out,
    numba_atomic_minmax toy_is_nan toy_flt false 5 "nnan olt" "ptr" 5 1
      [None; Some 2%Z] = Some out
    /\ Forall (fun e => desired e = 5%Z
                        /\ fcmp toy_is_nan toy_flt false "nnan olt" (expected e) 5 = true)
              (attempts out).
Proof.
  exact (@minmax_stores_only_operand toy_is_nan toy_flt false "nnan olt" "ptr"
           5%Z 1%Z [None; Some 2%Z] Z.ltb_irrefl (or_intror eq_refl)).
Defined.

(** An undisturbed call computes the maximum or the minimum.  With a
    number as operand and a number in the cell, max leaves the larger and
    min the smaller of the two in the cell; the NaN-aware functions also
    replace a NaN in the cell by the operand; a NaN operand changes
    nothing; and the call returns what the cell held. *)
Theorem minmax_undisturbed
  (is_nan : Z -> bool) (flt : Z -> Z -> bool) (nnan_poison : bool) (val mem : Z) :
  (forall y, flt y y = false) ->
  let run OP P := numba_atomic_minmax is_nan flt nnan_poison 3 OP P val mem [] in
  let ends OP P final :=
    exists out, run OP P = Some out /\ ret out = mem /\ final_mem out = final in
  (is_nan val = false -> is_nan mem = false ->
     ends "nnan olt" "ptr" (if flt mem val then val else mem)
     /\ ends "nnan ogt" "ptr" (if flt val mem then val else mem))
  /\ (is_nan val = false ->
      ends "ult" EmptyString (if is_nan mem || flt mem val then val else mem)
      /\ ends "ugt" EmptyString (if is_nan mem || flt val mem then val else mem))
  /\ (is_nan val = true ->
      ends "nnan olt" "ptr" mem /\ ends "nnan ogt" "ptr" mem
      /\ ends "ult" EmptyString mem /\ ends "ugt" EmptyString mem)
  /\ (is_nan mem = true -> ends "nnan olt" "ptr" mem /\ ends "nnan ogt" "ptr" mem).
Proof.
  intros Hirr run ends.
  assert (forall OP P final,
            P = EmptyString \/ P = "ptr" ->
            (if is_nan val || (if String.eqb P "ptr" then is_nan mem else false)
             then mem
             else if fcmp is_nan flt nnan_poison OP mem val then val else mem) = final ->
            ends OP P final) as Hends.
  { intros OP P final HP Hf.
    destruct (@minmax_quiet is_nan flt nnan_poison Hirr OP P val mem HP)
      as (out & Hrun & Hret & Hfin & _).
    exists out. split; [exact Hrun|]. split; [exact Hret|]. rewrite Hfin. exact Hf. }
  split; [|split; [|split]].
  - intros Hv Hm. split; apply Hends; auto; cbn [String.eqb Ascii.eqb Bool.eqb];
      rewrite Hv, Hm; cbn; unfold fcmp; cbn; unfold fcmp_pred; cbn;
      rewrite Hv, Hm; cbn; reflexivity.
  - intros Hv. split; apply Hends; auto; cbn [String.eqb Ascii.eqb Bool.eqb];
      rewrite Hv; cbn; unfold fcmp; cbn; unfold fcmp_pred; cbn;
      rewrite Hv, orb_false_r; reflexivity.
  - intros Hv. repeat split; apply Hends; auto; cbn [String.eqb Ascii.eqb Bool.eqb];
      rewrite Hv; reflexivity.
  - intros Hm. split; apply Hends; auto; cbn [String.eqb Ascii.eqb Bool.eqb];
      rewrite Hm, orb_true_r; reflexivity.
Qed.

Lemma minmax_undisturbed_witness :
  (exists out,
     numba_atomic_minmax toy_is_nan toy_flt false 3 "nnan olt" "ptr" 7 3 [] = Some out
     /\ ret out = 3%Z /\ final_mem out = 7%Z)
  /\ (exists out,
     numba_atomic_minmax toy_is_nan toy_flt false 3 "ult" EmptyString 7 (-1) [] = Some out
     /\ ret out = (-1)%Z /\ final_mem out = 7%Z).
Proof.
  destruct (@minmax_undisturbed toy_is_nan toy_flt false 7%Z 3%Z Z.ltb_irrefl)
    as (Hplain & _).
  destruct (@minmax_undisturbed toy_is_nan toy_flt false 7%Z (-1)%Z Z.ltb_irrefl)
    as (_ & Hnan & _).
  split.
  - exact (proj1 (Hplain eq_refl eq_refl)).
  - exact (proj1 (Hnan eq_refl)).
Defined.

(** ** Texts that [llvm_replace] has nothing to do on, and line breaks *)

Lemma mapM_convert_line_plain (ls : list string) :
  (forall l, In l ls -> Py.startswith l "attributes #" = false) ->
  mapM convert_line ls = Ok ls.
Proof.
  induction ls as [|l ls IH]; intros H; [reflexivity|].
  cbn [mapM]. unfold convert_line at 1.
  rewrite (H l (or_introl eq_refl)). cbn [bind].
  rewrite IH; [reflexivity|]. intros x Hx. apply H. right. exact Hx.
Qed.

(** A module without atomic declaration, without [immarg] and without
    attribute group, written as lines joined by line feeds (the last line
    not empty), comes back from [llvm_replace] as it went in. *)
Theorem llvm_replace_plain_module (ls : list string) :
  forallb is_line ls = true -> last ls "x" <> EmptyString ->
  (forall l, In l ls -> Py.startswith l "attributes #" = false) ->
  (forall e, In e atomic_catalog -> Py.contains (Py.join LF ls) (fst e) = false) ->
  Py.contains (Py.join LF ls) "immarg" = false ->
  llvm_replace (Py.join LF ls) = Ok (Py.join LF ls).
Proof.
  intros Hls Hlast Hattr Hdecl Himm.
  rewrite llvm_replace_unfold.
  destruct atomic_replacements_ok as (tbl & Htbl & Hok & Hpat).
  unfold atomic_substitution. rewrite Htbl. cbn [bind].
  rewrite replace_all_absent.
  - rewrite replace_absent by (discriminate || exact Himm).
    unfold llvm150_to_70_ir.
    rewrite (splitlines_join _ Hls Hlast), (mapM_convert_line_plain _ Hattr).
    reflexivity.
  - intros d Hd. split; [apply (table_entry _ Hok d Hd)|].
    assert (In (fst d) (map fst atomic_catalog)) as Hin
      by (rewrite <- Hpat; apply in_map, Hd).
    apply in_map_iff in Hin. destruct Hin as (e & He & Hein).
    rewrite <- He. apply Hdecl, Hein.
Qed.

Lemma llvm_replace_plain_module_witness :
  llvm_replace
    (Py.join LF [ "define void @f(i32 %x) {"; "entry:"; "  ret void"; "}" ])
  = Ok (Py.join LF [ "define void @f(i32 %x) {"; "entry:"; "  ret void"; "}" ]).
Proof.
  apply llvm_replace_plain_module.
  - vm_compute. reflexivity.
  - vm_compute. discriminate.
  - intros l Hl. cbn in Hl.
    repeat (destruct Hl as [<-|Hl]; [vm_compute; reflexivity|]). destruct Hl.
  - intros e He. vm_compute in He.
    repeat (destruct He as [<-|He]; [vm_compute; reflexivity|]). destruct He.
  - vm_compute. reflexivity.
Defined.

Lemma linebreak_is_space (c : ascii) :
  Py.is_linebreak c = true -> Py.isspace c = true.
Proof.
  destruct c as [[] [] [] [] [] [] [] []]; cbn; intros H;
    try discriminate H; reflexivity.
Qed.

Lemma splitlines_lines_le (n : nat) :
  forall s, (String.length s <= n)%nat -> forallb is_line (Py.splitlines s) = true.
Proof.
  induction n as [|n IH]; intros s Hn.
  - destruct s; [reflexivity | cbn in Hn; lia].
  - destruct s as [|c s]; [reflexivity|]. cbn in Hn.
    cbn [Py.splitlines].
    destruct (Py.is_linebreak c) eqn:Ec.
    + destruct s as [|c2 s2]; [reflexivity|].
      destruct (Py.is_cr c && Py.is_lf c2).
      * change (forallb is_line (Py.splitlines s2) = true).
        apply IH. cbn in Hn. lia.
      * change (forallb is_line (Py.splitlines (String c2 s2)) = true).
        apply IH. lia.
    + pose proof (IH s ltac:(lia)) as Hs.
      destruct (Py.splitlines s) as [|l ls]; cbn; rewrite Ec; cbn; [reflexivity|].
      cbn in Hs. exact Hs.
Qed.

Lemma splitlines_lines (s : string) : forallb is_line (Py.splitlines s) = true.
Proof. apply (@splitlines_lines_le (String.length s)). lia. Qed.

Lemma split_tokens (s : string) :
  forallb (all_chars (fun c => negb (Py.isspace c))) (Py.split s) = true.
Proof.
  induction s as [|c s IH]; [reflexivity|].
  cbn [Py.split]. destruct (Py.isspace c) eqn:Ec; [exact IH|].
  destruct s as [|c2 s2]; [cbn; rewrite Ec; reflexivity|].
  destruct (Py.isspace c2) eqn:Ec2.
  - cbn [forallb]. rewrite IH. cbn. rewrite Ec. reflexivity.
  - destruct (Py.split (String c2 s2)) as [|t ts].
    + cbn. rewrite Ec. reflexivity.
    + cbn [forallb] in IH |- *. cbn [all_chars]. rewrite Ec. exact IH.
Qed.

Lemma join_tokens_line (ts : list string) :
  forallb (all_chars (fun c => negb (Py.isspace c))) ts = true ->
  is_line (Py.join " " ts) = true.
Proof.
  assert (forall t, all_chars (fun c => negb (Py.isspace c)) t = true ->
                    is_line t = true) as Htok.
  { intros t. apply all_chars_weaken. intros c Hc.
    destruct (Py.is_linebreak c) eqn:E; [|reflexivity].
    rewrite (linebreak_is_space _ E) in Hc. discriminate. }
  induction ts as [|t ts IH]; intros H; [reflexivity|].
  cbn [forallb] in H. apply andb_true_iff in H. destruct H as [Ht Hts].
  rewrite join_cons. destruct ts as [|t2 ts]; [apply Htok, Ht|].
  unfold is_line in *. rewrite !all_chars_app, (Htok t Ht), (IH Hts). reflexivity.
Qed.

Lemma filter_forallb {A : Type} (p q : A -> bool) (l : list A) :
  forallb p l = true -> forallb p (filter q l) = true.
Proof.
  induction l as [|x l IH]; [reflexivity|].
  cbn. rewrite andb_true_iff. intros [Hx Hl].
  destruct (q x); cbn; [rewrite Hx|]; apply IH, Hl.
Qed.

Lemma replace_from_all_chars (p : ascii -> bool) (old new : string) :
  all_chars p new = true ->
  forall s skip, all_chars p s = true ->
                 all_chars p (Py.replace_from old new skip s) = true.
Proof.
  intros Hnew. induction s as [|c s IH]; intros skip Hs; [reflexivity|].
  cbn in Hs. apply andb_true_iff in Hs. destruct Hs as [Hc Hs].
  destruct skip as [|k]; cbn [Py.replace_from]; [|apply IH, Hs].
  destruct (Py.startswith (String c s) old).
  - rewrite all_chars_app, Hnew. apply IH, Hs.
  - cbn. rewrite Hc. apply IH, Hs.
Qed.

Lemma replace_empty_all_chars (p : ascii -> bool) (new : string) :
  all_chars p new = true ->
  forall s, all_chars p s = true -> all_chars p (Py.replace_empty new s) = true.
Proof.
  intros Hnew. induction s as [|c s IH]; intros Hs; [exact Hnew|].
  cbn in Hs. apply andb_true_iff in Hs. destruct Hs as [Hc Hs].
  cbn [Py.replace_empty]. rewrite all_chars_app, Hnew. cbn. rewrite Hc. apply IH, Hs.
Qed.

Lemma convert_line_line (line out : string) :
  is_line line = true -> convert_line line = Ok out -> is_line out = true.
Proof.
  intros Hl H. unfold convert_line in H.
  destruct (Py.startswith line "attributes #"); [|inversion H; subst; exact Hl].
  destruct (re_attributes_def line) as [g|]; [|discriminate].
  inversion H; subst. clear H.
  assert (is_line (Py.join " "
            (filter (fun a => negb (String.eqb a "willreturn")) (Py.split g))) = true)
    as Hattrs by (apply join_tokens_line, filter_forallb, split_tokens).
  unfold Py.replace. destruct g.
  - apply replace_empty_all_chars; assumption.
  - apply replace_from_all_chars; assumption.
Qed.

Lemma mapM_convert_line_lines (ls buf : list string) :
  forallb is_line ls = true -> mapM convert_line ls = Ok buf ->
  forallb is_line buf = true /\ List.length buf = List.length ls.
Proof.
  revert buf. induction ls as [|l ls IH]; intros buf Hls H.
  - inversion H; subst. split; reflexivity.
  - cbn [forallb] in Hls. apply andb_true_iff in Hls. destruct Hls as [Hl Hls].
    cbn [mapM] in H.
    destruct (convert_line l) as [l'|] eqn:El; [|discriminate]. cbn [bind] in H.
    destruct (mapM convert_line ls) as [buf'|]; [|discriminate]. cbn [bind] in H.
    inversion H; subst. destruct (IH buf' Hls eq_refl) as [Hb Hn].
    cbn. rewrite (convert_line_line _ Hl El), Hb, Hn. split; reflexivity.
Qed.

Lemma join_lines_breaks (buf : list string) :
  forallb is_line buf = true ->
  all_chars (fun c => negb (Py.is_linebreak c) || Py.is_lf c) (Py.join LF buf) = true.
Proof.
  assert (forall l, is_line l = true ->
            all_chars (fun c => negb (Py.is_linebreak c) || Py.is_lf c) l = true) as Hw.
  { intros l. apply all_chars_weaken. intros c ->. reflexivity. }
  induction buf as [|l buf IH]; intros H; [reflexivity|].
  cbn [forallb] in H. apply andb_true_iff in H. destruct H as [Hl Hb].
  rewrite join_cons. destruct buf as [|l2 buf]; [apply Hw, Hl|].
  rewrite !all_chars_app, (Hw l Hl), (IH Hb). reflexivity.
Qed.

(** [llvm150_to_70_ir] normalises the line boundaries.  When it returns,
    the text it returns consists of as many lines as the input has, joined
    by line feeds: no other line boundary (carriage return, form feed, ...)
    is left in it, and no line feed follows the last line. *)
Theorem llvm150_to_70_ir_line_feeds (ir out : string) :
  llvm150_to_70_ir ir = Ok out ->
  exists buf,
    out = Py.join LF buf
    /\ List.length buf = List.length (Py.splitlines ir)
    /\ forallb is_line buf = true
    /\ all_chars (fun c => negb (Py.is_linebreak c) || Py.is_lf c) out = true.
Proof.
  unfold llvm150_to_70_ir. intros H.
  destruct (mapM convert_line (Py.splitlines ir)) as [buf|] eqn:E; [|discriminate].
  inversion H; subst.
  destruct (mapM_convert_line_lines _ (splitlines_lines ir) E) as [Hb Hn].
  exists buf. repeat split; auto using join_lines_breaks.
Qed.

Lemma llvm150_to_70_ir_line_feeds_witness :
  exists buf,
    "a" ++ LF ++ "b" = Py.join LF buf
    /\ List.length buf
       = List.length (Py.splitlines ("a" ++ String (ascii_of_nat 13) LF ++ "b" ++ LF))
    /\ forallb is_line buf = true
    /\ all_chars (fun c => negb (Py.is_linebreak c) || Py.is_lf c) ("a" ++ LF ++ "b")
       = true.
Proof.
  exact (@llvm150_to_70_ir_line_feeds
           ("a" ++ String (ascii_of_nat 13) LF ++ "b" ++ LF) ("a" ++ LF ++ "b") eq_refl).
Defined.

(** ** Marking a kernel *)

(** The metadata part of [set_cuda_kernel]: one more operand of
    [nvvm.annotations], the node of the kernel. *)
Lemma kernel_metadata_spec (function : string) (m : module) :
  exists idx extra,
    let (md, mdm) := add_metadata (MD function "kernel" 1) m in
    let m' :=
      nmd_add "nvvm.annotations" md
        (get_or_insert_named_metadata "nvvm.annotations" mdm) in
    md = idx
    /\ annotation_ops m' = (annotation_ops m ++ [idx])%list
    /\ metadata m' = (metadata m ++ extra)%list
    /\ nth_error (metadata m') idx = Some (MD function "kernel" 1).
Proof.
  pose proof (add_metadata_spec (MD function "kernel" 1) m) as Ha.
  unfold add_metadata in *.
  destruct (md_index (MD function "kernel" 1) (metadata m) 0) as [i|] eqn:Ei.
  - destruct Ha as (Hi & Hnm & extra & Hext).
    pose proof (get_or_insert_spec "nvvm.annotations" m) as (Hn & Hops & Hmd).
    destruct (named_ops_add "nvvm.annotations" i _ Hn) as [Hadd _].
    exists i, []. cbn zeta.
    unfold annotation_ops, nmd_add; cbn [named_metadata metadata].
    rewrite Hadd, Hops, Hmd, app_nil_r. auto.
  - destruct Ha as (Hi & Hnm & extra & Hext).
    set (m1 := Module_ (metadata m ++ [MD function "kernel" 1]) (named_metadata m)) in *.
    pose proof (get_or_insert_spec "nvvm.annotations" m1) as (Hn & Hops & Hmd).
    destruct (named_ops_add "nvvm.annotations" (List.length (metadata m)) _ Hn)
      as [Hadd _].
    exists (List.length (metadata m)), [MD function "kernel" 1]. cbn zeta.
    unfold annotation_ops, nmd_add; cbn [named_metadata metadata].
    rewrite Hadd, Hops, Hmd. subst m1. cbn [named_metadata metadata].
    split; [reflexivity|]. split; [reflexivity|]. split; [reflexivity|].
    rewrite nth_error_app2 by lia. rewrite Nat.sub_diag. reflexivity.
Qed.

Lemma set_cuda_kernel_first (function : string) (attributes : list string)
  (m : ir_module) :
  existsb (String.eqb "llvm.used") (ir_scope m) = false ->
  exists m1 attributes1,
    set_cuda_kernel function attributes m = (Marked, m1, attributes1)
    /\ existsb (String.eqb "llvm.used") (ir_scope m1) = true.
Proof.
  intros Hfree. unfold set_cuda_kernel. rewrite Hfree.
  destruct (add_metadata (MD function "kernel" 1) (ir_metadata m)) as [md mdm].
  eexists; eexists. split; [reflexivity|]. cbn [ir_scope].
  rewrite existsb_app. cbn. apply orb_true_r.
Qed.

(** On a module in which the name [llvm.used] is free, [set_cuda_kernel]
    appends the node (function, kernel, 1) to the operands of
    [nvvm.annotations] without touching a node that was there, creates the
    global [llvm.used] holding the function, and removes [noinline] from
    the attributes of the function and nothing else. *)
Theorem set_cuda_kernel_marks (function : string) (attributes : list string)
  (m : ir_module) :
  existsb (String.eqb "llvm.used") (ir_scope m) = false ->
  exists m' attributes' idx extra,
    set_cuda_kernel function attributes m = (Marked, m', attributes')
    /\ annotation_ops (ir_metadata m')
       = (annotation_ops (ir_metadata m) ++ [idx])%list
    /\ metadata (ir_metadata m') = (metadata (ir_metadata m) ++ extra)%list
    /\ nth_error (metadata (ir_metadata m')) idx = Some (MD function "kernel" 1)
    /\ ir_globals m'
       = (ir_globals m
          ++ [GlobalVariable "llvm.used" "appending" "llvm.metadata" [function]])%list
    /\ ~ In "noinline" attributes'
    /\ (forall a, a <> "noinline" -> (In a attributes' <-> In a attributes)).
Proof.
  intros Hfree. unfold set_cuda_kernel. rewrite Hfree.
  destruct (kernel_metadata_spec function (ir_metadata m)) as (idx & extra & H).
  destruct (add_metadata (MD function "kernel" 1) (ir_metadata m)) as [md mdm].
  destruct H as (-> & Hops & Hmd & Hnth).
  eexists; eexists; exists idx, extra.
  split; [reflexivity|]. cbn [ir_metadata ir_globals].
  repeat (split; [assumption || reflexivity|]).
  split.
  - intros Hin. apply filter_In in Hin. destruct Hin as [_ Hin].
    rewrite String.eqb_refl in Hin. discriminate.
  - intros a Ha. rewrite filter_In. split; [intros [H _]; exact H|].
    intros H. split; [exact H|].
    apply negb_true_iff, String.eqb_neq. exact Ha.
Qed.

Lemma set_cuda_kernel_marks_witness :
  set_cuda_kernel "k" ["noinline"; "nounwind"] (IRModule (Module_ [] []) ["k"] [])
  = (Marked,
     IRModule (Module_ [MD "k" "kernel" 1] [("nvvm.annotations", [0%nat])])
              ["k"; "llvm.used"]
              [GlobalVariable "llvm.used" "appending" "llvm.metadata" ["k"]],
     ["nounwind"]).
Proof.
  destruct (@set_cuda_kernel_marks "k" ["noinline"; "nounwind"]
              (IRModule (Module_ [] []) ["k"] []) eq_refl)
    as (m' & attributes' & idx & extra & Hrun & _).
  rewrite Hrun. vm_compute in Hrun. inversion Hrun. reflexivity.
Defined.

(** A second kernel in the same module is refused, late: the call raises
    [DuplicatedNameError] for [llvm.used], but only after it has added the
    kernel node to [nvvm.annotations] once more; the [noinline] attribute
    of the function is then left in place. *)
Theorem set_cuda_kernel_second_call (function function2 : string)
  (attributes attributes2 : list string) (m : ir_module) :
  existsb (String.eqb "llvm.used") (ir_scope m) = false ->
  exists m1 attributes1 m2 idx2,
    set_cuda_kernel function attributes m = (Marked, m1, attributes1)
    /\ set_cuda_kernel function2 attributes2 m1
       = (DuplicatedNameError "llvm.used", m2, attributes2)
    /\ annotation_ops (ir_metadata m2)
       = (annotation_ops (ir_metadata m1) ++ [idx2])%list
    /\ nth_error (metadata (ir_metadata m2)) idx2 = Some (MD function2 "kernel" 1)
    /\ ir_globals m2 = ir_globals m1.
Proof.
  intros Hfree.
  destruct (set_cuda_kernel_first function attributes m Hfree) as (m1 & a1 & Hrun & Hscope).
  exists m1, a1.
  destruct (kernel_metadata_spec function2 (ir_metadata m1)) as (idx & extra & H).
  unfold set_cuda_kernel at 2. rewrite Hscope.
  destruct (add_metadata (MD function2 "kernel" 1) (ir_metadata m1)) as [md mdm].
  destruct H as (-> & Hops & Hmd & Hnth).
  eexists; exists idx. split; [exact Hrun|]. split; [reflexivity|].
  cbn [ir_metadata ir_globals]. auto.
Qed.

(** ** A compilation session *)

Lemma accepted_stops (l : list event) :
  forallb accepted l = true -> stops_at_error l = true.
Proof.
  induction l as [|e l IH]; cbn; [reflexivity|].
  destruct (accepted e); cbn; [exact IH | discriminate].
Qed.


Lemma check_error_raises (err : Z) (msg : string) :
  err <> 0%Z -> exists e, check_error err msg = Raise e.
Proof.
  intros H. unfold check_error. apply Z.eqb_neq in H. rewrite H.
  destruct (list_index RESULT_CODE_NAMES err) as [code|e]; cbn; eauto.
Qed.









Lemma and_then_unit (c : session unit) (t : list event) :
  and_then c (fun _ => pure tt) t = c t.
Proof.
  unfold and_then, pure. destruct (c t) as [[[]|e] t1]; reflexivity.
Qed.


Section SessionFacts.

Variable libnvvm : list event -> request -> reply.
Variable get_libdevice : option string.
Variable open_libdevice : string.

Lemma call_run (r : request) (t : list event) :
  call libnvvm r t
  = (inl (libnvvm t r), (t ++ [Native r (libnvvm t r)])%list).
Proof. reflexivity. Qed.















End SessionFacts.

(** ** The outline of a session that returns *)






Section SessionOutline.

Variable libnvvm : list event -> request -> reply.
Variable get_libdevice : option string.
Variable open_libdevice : string.












(** A failure to read the size of the log hides the outcome of the
    verification: [verify] then raises the error of that query, whether
    the verifier accepted the program or not. *)
Theorem verify_log_failure_masks (self : CompilationUnit) (t : list event) :
  let r := VerifyProgram (cu_handle self) (cu_options self) in
  let a := libnvvm t r in
  let q := GetProgramLogSize (cu_handle self) in
  let b := libnvvm (t ++ [Native r a])%list q in
  rc b <> 0%Z ->
  exists e,
    check_error (rc b) "Failed to get compilation log size." = Raise e
    /\ verify libnvvm self t
       = (inr (Exn e), (t ++ [Native r a; Native q b])%list).
Proof.
  intros r a q b Hb.
  destruct (check_error_raises "Failed to get compilation log size." Hb) as (e & He).
  exists e. split; [exact He|].
  unfold verify, _try_error, get_log, and_then. rewrite !call_run.
  fold r a q b. rewrite He. cbn. rewrite <- app_assoc. reflexivity.
Qed.

End SessionOutline.


Lemma verify_log_failure_masks_witness :
  exists e,
    check_error 4 "Failed to get compilation log size." = Raise e
    /\ verify (fun _ r => match r with
                          | GetProgramLogSize _ => Reply 4 NoValue
                          | _ => Reply 0 NoValue
                          end)
         (MkCompilationUnit 7 ["-opt=3"]) []
       = (inr (Exn e),
          [Native (VerifyProgram 7 ["-opt=3"]) (Reply 0 NoValue);
           Native (GetProgramLogSize 7) (Reply 4 NoValue)]).
Proof.
  apply (@verify_log_failure_masks
           (fun _ r => match r with
                       | GetProgramLogSize _ => Reply 4 NoValue
                       | _ => Reply 0 NoValue
                       end)
           (MkCompilationUnit 7 ["-opt=3"]) []).
  cbn. discriminate.
Defined.

(** ** Vector type stubs and their aliases *)

Lemma dd_get_append (k k' : string) (r : nat) (d : list (string * list nat)) :
  dd_get k (dd_append k' r d)
  = if String.eqb k' k then (dd_get k d ++ [r])%list else dd_get k d.
Proof.
  induction d as [|[k0 l] d IH]; cbn.
  - destruct (String.eqb k' k); reflexivity.
  - destruct (String.eqb k0 k') eqn:E0; cbn.
    + apply String.eqb_eq in E0. subst k0.
      destruct (String.eqb k' k); reflexivity.
    + destruct (String.eqb k0 k) eqn:E1; [|exact IH].
      apply String.eqb_eq in E1. subst k0.
      rewrite String.eqb_sym, E0. reflexivity.
Qed.

Lemma dd_get_group (key : nat -> string) (k : string) (refs : list nat) :
  forall d,
    dd_get k (fold_left (fun d r => dd_append (key r) r d) refs d)
    = (dd_get k d ++ filter (fun r => String.eqb (key r) k) refs)%list.
Proof.
  induction refs as [|r refs IH]; intros d; cbn [fold_left filter].
  - rewrite app_nil_r. reflexivity.
  - rewrite IH, dd_get_append.
    destruct (String.eqb (key r) k); [rewrite <- app_assoc|]; reflexivity.
Qed.

Lemma but_last_two_empty : but_last_two EmptyString = EmptyString.
Proof. reflexivity. Qed.

Lemma last_char_some (s : string) :
  s <> EmptyString -> exists c, last_char s = Ok c.
Proof.
  induction s as [|a s IH]; [congruence|]. intros _.
  destruct s as [|b s]; [eexists; reflexivity|].
  destruct IH as (c & Hc); [discriminate|]. exists c. exact Hc.
Qed.

(** The inner loop, over the references of one group. *)
Lemma append_group (alias base : string) (rs : list nat) :
  base <> EmptyString ->
  forall h,
    Forall (fun r => but_last_two (__name__ (h r)) = base) rs ->
    exists h',
      foldM (fun h r =>
               nelem <- last_char (__name__ (h r)) ;;
               Ok (append_alias h r (alias ++ nelem))) rs h = Ok h'
      /\ forall i,
           same_class (h i) (h' i)
           /\ aliases (h' i)
              = (aliases (h i)
                 ++ flat_map (fun r => if Nat.eqb r i
                                       then [(alias ++ last_or_empty (__name__ (h i)))%string]
                                       else []) rs)%list.
Proof.
  intros Hbase. induction rs as [|r rs IH]; intros h Hrs; cbn [foldM flat_map].
  - exists h. split; [reflexivity|]. intros i. rewrite app_nil_r.
    unfold same_class. auto 10.
  - assert (Hr := Forall_inv Hrs). assert (Hrs' := Forall_inv_tail Hrs). cbn beta in Hr.
    destruct (@last_char_some (__name__ (h r))) as (c & Hc).
    { intros E. rewrite E in Hr. cbn in Hr. congruence. }
    rewrite Hc. cbn [bind].
    set (h1 := append_alias h r (alias ++ c)).
    assert (Hname : forall i, __name__ (h1 i) = __name__ (h i)).
    { intros i. unfold h1, append_alias. destruct (Nat.eqb i r); reflexivity. }
    destruct (IH h1) as (h' & Hrun & Hh').
    { eapply Forall_impl; [|exact Hrs']. intros r' Hr'. cbn beta.
      rewrite Hname. exact Hr'. }
    exists h'. split; [exact Hrun|]. intros i.
    destruct (Hh' i) as [(Hn & Hm & Hd & Hs & Hdoc) Hal].
    split.
    + unfold same_class. rewrite Hn, Hm, Hd, Hs, Hdoc.
      unfold h1, append_alias. destruct (Nat.eqb i r); cbn; auto 10.
    + rewrite Hal, Hname. unfold h1, append_alias.
      rewrite (Nat.eqb_sym r i).
      destruct (Nat.eqb i r) eqn:E; cbn [aliases].
      * apply Nat.eqb_eq in E. subst i. unfold last_or_empty. rewrite Hc.
        rewrite <- app_assoc. reflexivity.
      * reflexivity.
Qed.

Lemma filter_flat_map (f : nat -> bool) (g : nat -> bool) (x : string)
  (refs : list nat) :
  flat_map (fun r => if g r then [x] else []) (filter f refs)
  = flat_map (fun r => if g r && f r then [x] else []) refs.
Proof.
  induction refs as [|r refs IH]; cbn; [reflexivity|].
  destruct (f r); cbn; rewrite IH.
  - rewrite andb_true_r. reflexivity.
  - rewrite andb_false_r. reflexivity.
Qed.

(** The outer loop, over the items of a table without empty base type,
    the groups being those of the names. *)
Lemma append_table (refs : list nat) (key : nat -> string)
  (table : list (string * string)) :
  Forall (fun item => snd item <> EmptyString) table ->
  forall h,
    (forall i, but_last_two (__name__ (h i)) = key i) ->
    exists h',
      foldM (fun h (item : string * string) =>
               let (alias, base_type) := item in
               foldM (fun h r =>
                        nelem <- last_char (__name__ (h r)) ;;
                        Ok (append_alias h r (alias ++ nelem)))
                     (filter (fun r => String.eqb (key r) base_type) refs) h)
            table h = Ok h'
      /\ forall i,
           same_class (h i) (h' i)
           /\ aliases (h' i)
              = (aliases (h i) ++ new_aliases table refs (__name__ (h i)) i)%list.
Proof.
  intros Htable. induction Htable as [|[alias base] table Hbase Htable IH];
    intros h Hkey; cbn [foldM].
  - exists h. split; [reflexivity|]. intros i. unfold new_aliases. cbn.
    rewrite app_nil_r. unfold same_class. auto 10.
  - cbn [snd] in Hbase.
    destruct (@append_group alias base
                (filter (fun r => String.eqb (key r) base) refs) Hbase h)
      as (h1 & Hrun1 & Hh1).
    { apply Forall_forall. intros r Hr. apply filter_In in Hr.
      destruct Hr as [_ Hr]. apply String.eqb_eq in Hr. rewrite Hkey. exact Hr. }
    rewrite Hrun1. cbn [bind].
    destruct (IH h1) as (h' & Hrun & Hh').
    { intros i. destruct (Hh1 i) as [(Hn & _) _]. rewrite Hn. apply Hkey. }
    exists h'. split; [exact Hrun|]. intros i.
    destruct (Hh1 i) as [(Hn1 & Hm1 & Hd1 & Hs1 & Hdoc1) Hal1].
    destruct (Hh' i) as [(Hn & Hm & Hd & Hs & Hdoc) Hal].
    split.
    + unfold same_class. rewrite Hn, Hm, Hd, Hs, Hdoc. auto 10.
    + rewrite Hal, Hal1, Hn1, <- app_assoc. f_equal.
      unfold new_aliases. cbn [flat_map fst snd]. f_equal.
      rewrite filter_flat_map.
      apply flat_map_ext. intros r.
      destruct (Nat.eqb r i) eqn:E; cbn [andb]; [|reflexivity].
      apply Nat.eqb_eq in E. subst r. rewrite (Hkey i).
      reflexivity.
Qed.

Lemma foldM_groups_ext (g1 g2 : string -> list nat) :
  (forall k, g1 k = g2 k) ->
  forall (table : list (string * string)) (h : store),
    foldM (fun h (item : string * string) =>
             let (alias, base_type) := item in
             foldM (fun h r =>
                      nelem <- last_char (__name__ (h r)) ;;
                      Ok (append_alias h r (alias ++ nelem)))
                   (g1 base_type) h)
          table h
    = foldM (fun h (item : string * string) =>
               let (alias, base_type) := item in
               foldM (fun h r =>
                        nelem <- last_char (__name__ (h r)) ;;
                        Ok (append_alias h r (alias ++ nelem)))
                     (g2 base_type) h)
            table h.
Proof.
  intros Hg. induction table as [|[alias base] table IH]; intros h; cbn [foldM];
    [reflexivity|].
  rewrite Hg.
  destruct (foldM (fun h r =>
                     nelem <- last_char (__name__ (h r)) ;;
                     Ok (append_alias h r (alias ++ nelem))) (g2 base) h)
    as [h1|e]; cbn [bind]; [apply IH | reflexivity].
Qed.

Lemma base_types_not_empty (np : itemsizes) :
  Forall (fun item : string * string => snd item <> EmptyString)
         (base_type_to_alias np).
Proof.
  unfold base_type_to_alias.
  repeat (apply Forall_cons; [cbn; discriminate|]). apply Forall_nil.
Qed.

(** The groups of the [defaultdict] are the references filtered by the
    name. *)
Lemma map_vector_type_stubs_to_alias_groups (np : itemsizes) (h : store)
  (refs : list nat) :
  map_vector_type_stubs_to_alias np h refs
  = foldM (fun h0 (item : string * string) =>
             let (alias, base_type) := item in
             foldM (fun h1 r =>
                      nelem <- last_char (__name__ (h1 r)) ;;
                      Ok (append_alias h1 r (alias ++ nelem)))
                   (filter (fun r => String.eqb (but_last_two (__name__ (h r))) base_type)
                           refs) h0)
          (base_type_to_alias np) h.
Proof.
  unfold map_vector_type_stubs_to_alias. cbv zeta.
  apply (@foldM_groups_ext
           (fun k => dd_get k (fold_left (fun d r => dd_append (but_last_two (__name__ (h r))) r d) refs []))
           (fun k => filter (fun r => String.eqb (but_last_two (__name__ (h r))) k) refs)).
  intros k.
  rewrite (dd_get_group (fun r => but_last_two (__name__ (h r))) k refs []).
  reflexivity.
Qed.


Lemma substring_prefix (p q : string) :
  substring 0 (String.length p) (p ++ q) = p.
Proof.
  induction p as [|a p IH]; cbn.
  - destruct q; reflexivity.
  - rewrite IH. reflexivity.
Qed.

Lemma length_append (p q : string) :
  String.length (p ++ q) = (String.length p + String.length q)%nat.
Proof. induction p as [|a p IH]; cbn; [reflexivity | rewrite IH; reflexivity]. Qed.

Lemma but_last_two_app (p : string) (a b : ascii) :
  but_last_two (p ++ String a (String b EmptyString)) = p.
Proof.
  unfold but_last_two. rewrite length_append. cbn [String.length].
  replace (String.length p + 2 - 2)%nat with (String.length p) by lia.
  apply substring_prefix.
Qed.

Lemma last_char_app (p : string) (a b : ascii) :
  last_char (p ++ String a (String b EmptyString)) = Ok (String b EmptyString).
Proof.
  induction p as [|c p IH]; [reflexivity|].
  cbn [append]. cbn [last_char]. rewrite IH.
  destruct (p ++ String a (String b EmptyString)) eqn:E; [|reflexivity].
  destruct p; discriminate.
Qed.

Lemma flat_map_none {A B : Type} (f : A -> list B) (l : list A) :
  (forall x, In x l -> f x = []) -> flat_map f l = [].
Proof.
  induction l as [|x l IH]; intros H; cbn; [reflexivity|].
  rewrite (H x (or_introl eq_refl)), IH; [reflexivity|].
  intros y Hy. apply H. right. exact Hy.
Qed.

Lemma once_in_seq (i n : nat) (b : bool) (x : string) :
  (i < n)%nat ->
  forall start,
    flat_map (fun r => if Nat.eqb r (start + i) && b then [x] else []) (seq start n)
    = if b then [x] else [].
Proof.
  revert i. induction n as [|n IH]; intros i Hi start; [lia|].
  cbn [seq flat_map]. destruct i as [|i].
  - rewrite Nat.add_0_r, Nat.eqb_refl. cbn [andb].
    assert (Hrest : flat_map (fun r => if Nat.eqb r start && b then [x] else [])
                             (seq (S start) n) = []).
    { apply flat_map_none. intros r Hr. apply in_seq in Hr.
      replace (Nat.eqb r start) with false; [reflexivity|].
      symmetry. apply Nat.eqb_neq. lia. }
    rewrite Hrest. destruct b; reflexivity.
  - replace (Nat.eqb start (start + S i)) with false
      by (symmetry; apply Nat.eqb_neq; lia).
    cbn [andb app]. replace (start + S i)%nat with (S start + i)%nat by lia.
    apply IH. lia.
Qed.

Lemma flat_map_filter_map {A : Type} (f : A -> bool) (g : A -> string) (l : list A) :
  flat_map (fun x => if f x then [g x] else []) l = map g (filter f l).
Proof.
  induction l as [|x l IH]; cbn; [reflexivity|].
  destruct (f x); cbn; rewrite IH; reflexivity.
Qed.

Lemma element_count_digit (nelem : nat) :
  In nelem vector_type_element_counts ->
  exists b, Py.str_int (Z.of_nat nelem) = String b EmptyString.
Proof.
  intros [<-|[<-|[<-|[<-|[]]]]]; eexists; reflexivity.
Qed.

(** Once the module is loaded, the class made for a prefix and an element
    count is named prefix, x, count, has the first count of the methods x,
    y, z, w, and its aliases are, in the order of the table, the C names
    whose base type on the platform is the prefix, each followed by the
    count. *)
Theorem module_stub_aliases (np : itemsizes) (prefix : string) (nelem : nat) :
  In prefix vector_type_prefix -> In nelem vector_type_element_counts ->
  exists h' i,
    _vector_type_stubs np = Ok h'
    /\ (i < List.length make_vector_type_stubs)%nat
    /\ __name__ (h' i) = prefix ++ "x" ++ Py.str_int (Z.of_nat nelem)
    /\ methods (h' i) = firstn nelem vector_type_attribute_names
    /\ _description_ (h' i)
       = "<" ++ (prefix ++ "x" ++ Py.str_int (Z.of_nat nelem)) ++ ">"
    /\ aliases (h' i)
       = map (fun item => fst item ++ Py.str_int (Z.of_nat nelem))
             (filter (fun item => String.eqb prefix (snd item))
                     (base_type_to_alias np)).
Proof.
  intros Hp Hn.
  set (h := store_of make_vector_type_stubs).
  set (refs := seq 0 (List.length make_vector_type_stubs)).
  destruct (@append_table refs (fun r => but_last_two (__name__ (h r)))
              (base_type_to_alias np) (base_types_not_empty np) h)
    as (h' & Hrun & Hh'); [reflexivity|].
  rewrite <- map_vector_type_stubs_to_alias_groups in Hrun.
  subst h refs.
  assert (Hin : In (prefix, nelem)
                   (product vector_type_prefix vector_type_element_counts)).
  { unfold product. apply in_flat_map. exists prefix. split; [exact Hp|].
    apply in_map. exact Hn. }
  destruct (In_nth _ _ (EmptyString, O) Hin) as (i & Hi & Hnth).
  assert (Hlen : List.length make_vector_type_stubs
                 = List.length (product vector_type_prefix vector_type_element_counts)).
  { unfold make_vector_type_stubs. apply length_map. }
  assert (Hstub : store_of make_vector_type_stubs i = vector_type_stub prefix nelem).
  { unfold store_of.
    rewrite (nth_indep make_vector_type_stubs _
               (vector_type_stub (fst (EmptyString, O)) (snd (EmptyString, O))))
      by (rewrite Hlen; exact Hi).
    unfold make_vector_type_stubs.
    rewrite (map_nth (fun pn => vector_type_stub (fst pn) (snd pn))), Hnth.
    reflexivity. }
  destruct (element_count_digit Hn) as (b & Hb).
  exists h', i. split; [exact Hrun|]. split; [rewrite Hlen; exact Hi|].
  destruct (Hh' i) as [(Hname & Hm & Hd & _ & _) Hal].
  rewrite Hname, Hm, Hd, Hal, Hstub. cbn [vector_type_stub __name__ methods _description_ aliases].
  split; [reflexivity|]. split; [reflexivity|]. split; [reflexivity|].
  cbn [app]. unfold new_aliases.
  rewrite Hb.
  change ("x" ++ String b EmptyString) with (String "x" (String b EmptyString)).
  rewrite but_last_two_app. unfold last_or_empty. rewrite last_char_app.
  rewrite <- flat_map_filter_map. apply flat_map_ext. intros [alias base].
  cbn [fst snd].
  apply (@once_in_seq i (List.length make_vector_type_stubs)
           (String.eqb prefix base) (alias ++ String b EmptyString)
           ltac:(rewrite Hlen; exact Hi) 0%nat).
Qed.

Lemma module_stub_aliases_witness :
  exists h' i,
    _vector_type_stubs lp64 = Ok h'
    /\ (i < List.length make_vector_type_stubs)%nat
    /\ __name__ (h' i) = "int64x2"
    /\ methods (h' i) = ["x"; "y"]
    /\ _description_ (h' i) = "<int64x2>"
    /\ aliases (h' i) = ["long2"; "longlong2"].
Proof.
  apply (@module_stub_aliases lp64 "int64" 2); cbn; auto 10.
Defined.


Lemma set_cuda_kernel_second_call_witness :
  exists m1 attributes1 m2 idx2,
    set_cuda_kernel "k" ["noinline"] (IRModule (Module_ [] []) ["k"; "g"] [])
    = (Marked, m1, attributes1)
    /\ set_cuda_kernel "g" ["noinline"] m1
       = (DuplicatedNameError "llvm.used", m2, ["noinline"])
    /\ annotation_ops (ir_metadata m2)
       = (annotation_ops (ir_metadata m1) ++ [idx2])%list
    /\ nth_error (metadata (ir_metadata m2)) idx2 = Some (MD "g" "kernel" 1)
    /\ ir_globals m2 = ir_globals m1.
Proof.
  apply (@set_cuda_kernel_second_call "k" "g" ["noinline"] ["noinline"]
           (IRModule (Module_ [] []) ["k"; "g"] [])).
  reflexivity.
Defined.
